(** * ESG report crawler: a shallow embedding of [esg_crawler.py]

    The development follows the source file top to bottom:
    strings and exceptions, the URL utilities ([_normalize_url],
    [_extract_links], [_is_same_domain], [_filter_esg_links],
    [_detect_esg_url_patterns]), the parsed page, the regular expressions
    of the detection strategies, the four strategies
    ([_detect_esg_content_v1] .. [_detect_esg_content_v4]), the result
    assembly ([analyze_company_website], [batch_analyze_companies]) and
    the stored history ([update_company_esg_info],
    [_has_version_analysis]) with the continuous run
    ([process_all_companies]).

    Modelling conventions.
    - A Python [str] is a list of characters held in 8-bit cells and read
      as ASCII text: [lower] and the character classes ([isspace],
      [isalpha], [\d], [\s], [\w], [\b]) are those of the code points
      below 128.  The steps of the library that act on other text only
      are left out: of [urlsplit], the check of the NFKC form of a network
      location ([_checknetloc]), which returns at once on ASCII text.  A
      statement that depends on them is made for ASCII input
      ([isascii]).
    - A Python [float] is an exact rational ([Q]); [round] is decimal
      rounding, half to even.
    - An exception is a value of [exn]; a computation that may raise
      returns a [result].
    - The collaborators outside the repository (HTTP fetch, HTML parser,
      [urljoin], the NLTK toolkit, [json.loads], the database) are
      arguments of the functions that call them.  [urlparse] and
      [urlunparse] follow CPython 3.10 ([urllib/parse.py]); the [re]
      module is the backtracking matcher [rx_match] below.
    - Wall-clock values (time stamps, response times) and the content
      snippets of the evidence are left out of the records. *)

From Stdlib Require Import String Ascii.
From Stdlib Require DecimalString.
From Stdlib Require Import List Bool Arith Lia ZArith.
From Stdlib Require Import QArith Qminmax Qround Lqa.
From Stdlib Require Import Sorted.
Import ListNotations.
Open Scope string_scope.
Open Scope list_scope.

Set Warnings "-register-all".

(** ** Strings *)

Definition str := list ascii.

(** A string literal of the source. *)
Definition s (x : string) : str := list_ascii_of_string x.

Definition str_eqb (a b : str) : bool :=
  if list_eq_dec ascii_dec a b then true else false.

Definition chr_in (c : ascii) (u : str) : bool := existsb (Ascii.eqb c) u.

Definition in_range (lo hi : nat) (c : ascii) : bool :=
  (lo <=? nat_of_ascii c)%nat && (nat_of_ascii c <=? hi)%nat.

Definition is_upper : ascii -> bool := in_range 65 90.
Definition is_lower : ascii -> bool := in_range 97 122.
Definition is_digit : ascii -> bool := in_range 48 57.
Definition is_alpha (c : ascii) : bool := is_upper c || is_lower c.

(** [c.isspace()], which is also [\s] of the [re] module: the characters
    9 to 13 (\t, \n, \v, \f, \r) and 28 to 32 (the separators and the
    space). *)
Definition is_space (c : ascii) : bool :=
  in_range 9 13 c || in_range 28 32 c.

(** [\w] of the [re] module: letters, digits and the underscore. *)
Definition is_word (c : ascii) : bool :=
  is_alpha c || is_digit c || (nat_of_ascii c =? 95)%nat.

Definition lower_ascii (c : ascii) : ascii :=
  if is_upper c then ascii_of_nat (nat_of_ascii c + 32) else c.

(** [str.lower()] *)
Definition lower (u : str) : str := map lower_ascii u.

(** [u.startswith(p)] *)
Fixpoint startswith (p u : str) : bool :=
  match p, u with
  | [], _ => true
  | _ :: _, [] => false
  | a :: p', b :: u' => Ascii.eqb a b && startswith p' u'
  end.

(** [needle in hay] *)
Fixpoint contains (needle hay : str) : bool :=
  startswith needle hay ||
  match hay with
  | [] => false
  | _ :: hay' => contains needle hay'
  end.

(** The longest prefix without a character satisfying [p], and the rest. *)
Fixpoint span_until (p : ascii -> bool) (u : str) : str * str :=
  match u with
  | [] => ([], [])
  | c :: r => if p c then ([], u)
              else let '(a, b) := span_until p r in (c :: a, b)
  end.

(** [u.split(c, 1)] as the pair (before, after); after is empty when [c]
    does not occur. *)
Definition split_once (c : ascii) (u : str) : str * str :=
  let '(a, b) := span_until (Ascii.eqb c) u in (a, tl b).

(** [u.rstrip(c)] for a single character [c]. *)
Fixpoint rstrip_chr (c : ascii) (u : str) : str :=
  match u with
  | [] => []
  | x :: r =>
      match rstrip_chr c r with
      | [] => if Ascii.eqb x c then [] else [x]
      | r' => x :: r'
      end
  end.

Fixpoint lstrip (u : str) : str :=
  match u with
  | c :: r => if is_space c then lstrip r else u
  | [] => []
  end.

(** [u.strip()] *)
Definition strip (u : str) : str := rev (lstrip (rev (lstrip u))).

(** [x or y] on strings. *)
Definition str_or (x y : str) : str :=
  match x with [] => y | _ => x end.

(** ** Exceptions *)

Inductive exn : Type :=
| ValueError (msg : str)
| KeyError (key : str)
| TimeoutError
| OtherError (msg : str).

(** [str(e)]; the message of a [KeyError] is the [repr] of its key. *)
Definition exn_message (e : exn) : str :=
  match e with
  | ValueError m => m
  | KeyError k => s "'" ++ k ++ s "'"
  | TimeoutError => []
  | OtherError m => m
  end.

Inductive result (A : Type) : Type :=
| Ok (a : A)
| Raise (e : exn).
Arguments Ok {A} a.
Arguments Raise {A} e.

Definition bind {A B} (r : result A) (f : A -> result B) : result B :=
  match r with
  | Ok a => f a
  | Raise e => Raise e
  end.

Notation "x <- r ;; k" := (bind r (fun x => k))
  (at level 61, r at next level, right associativity).

(** ** [urllib.parse] (CPython 3.10) *)

Record ParseResult := {
  scheme : str;
  netloc : str;
  path : str;
  params : str;
  query : str;
  fragment : str
}.

Definition uses_netloc : list str :=
  [] :: map s ["ftp"; "http"; "gopher"; "nntp"; "telnet"; "imap"; "wais";
         "file"; "mms"; "https"; "shttp"; "snews"; "prospero"; "rtsp";
         "rtspu"; "rsync"; "svn"; "svn+ssh"; "sftp"; "nfs"; "git";
         "git+ssh"; "ws"; "wss"].

Definition uses_params : list str :=
  [] :: map s ["ftp"; "hdl"; "prospero"; "http"; "imap"; "https"; "shttp";
         "rtsp"; "rtspu"; "sip"; "sips"; "mms"; "sftp"; "tel"].

Definition str_mem (x : str) (l : list str) : bool := existsb (str_eqb x) l.

(** letters, digits and "+-." *)
Definition is_scheme_char (c : ascii) : bool :=
  is_alpha c || is_digit c || chr_in c (s "+-.").

(** [_UNSAFE_URL_BYTES_TO_REMOVE] = tab, carriage return, line feed *)
Definition is_unsafe (c : ascii) : bool :=
  let n := nat_of_ascii c in
  (n =? 9)%nat || (n =? 13)%nat || (n =? 10)%nat.

Definition remove_unsafe (u : str) : str :=
  filter (fun c => negb (is_unsafe c)) u.

(** The scheme-splitting step of [urlsplit]: [i = url.find(':')]; when
    [i > 0] and [url[:i]] consists of scheme characters, the scheme is
    [url[:i].lower()] and the rest is [url[i+1:]]. *)
Definition split_scheme (url : str) : str * str :=
  let '(a, b) := span_until (Ascii.eqb ":") url in
  match a, b with
  | _ :: _, _ :: rest =>
      if forallb is_scheme_char a then (lower a, rest) else ([], url)
  | _, _ => ([], url)
  end.

Definition is_netloc_delim (c : ascii) : bool := chr_in c (s "/?#").

(** [_splitnetloc(url, 2)] *)
Definition _splitnetloc (url : str) : str * str :=
  span_until is_netloc_delim (skipn 2 url).

Definition brackets_mismatch (nl : str) : bool :=
  (chr_in "[" nl && negb (chr_in "]" nl)) ||
  (chr_in "]" nl && negb (chr_in "[" nl)).

(** [urlsplit(url)]; the result carries an empty [params]. *)
Definition urlsplit (url0 : str) : result ParseResult :=
  let url := remove_unsafe url0 in
  let '(sch, url) := split_scheme url in
  nl_url <- (if startswith (s "//") url
             then let '(nl, rest) := _splitnetloc url in
                  if brackets_mismatch nl
                  then Raise (ValueError (s "Invalid IPv6 URL"))
                  else Ok (nl, rest)
             else Ok ([], url)) ;;
  let '(nl, url) := nl_url in
  let '(url, frag) := split_once "#" url in
  let '(url, qry) := split_once "?" url in
  Ok {| scheme := sch; netloc := nl; path := url; params := [];
        query := qry; fragment := frag |}.

(** The text up to and including the last ["/"], and the last segment. *)
Definition rsplit_slash (u : str) : str * str :=
  let '(seg, before) := span_until (Ascii.eqb "/") (rev u) in
  (rev before, rev seg).

(** [_splitparams(url)], called when [';' in url]. *)
Definition _splitparams (url : str) : str * str :=
  let '(before, seg) := rsplit_slash url in
  if chr_in ";" seg
  then let '(a, b) := split_once ";" seg in (before ++ a, b)
  else (url, []).

(** [urlparse(url)] *)
Definition urlparse (url : str) : result ParseResult :=
  r <- urlsplit url ;;
  if str_mem (scheme r) uses_params && chr_in ";" (path r)
  then let '(p, prm) := _splitparams (path r) in
       Ok {| scheme := scheme r; netloc := netloc r; path := p;
             params := prm; query := query r; fragment := fragment r |}
  else Ok r.

(** [urlunsplit((scheme, netloc, url, query, fragment))] *)
Definition urlunsplit (sch nl url qry frag : str) : str :=
  let url :=
    match nl with
    | _ :: _ =>
        s "//" ++ nl ++
        (match url with
         | c :: _ => if Ascii.eqb c "/" then url else s "/" ++ url
         | [] => url
         end)
    | [] =>
        if negb (str_eqb sch []) && str_mem sch uses_netloc
           && negb (startswith (s "//") url)
        then s "//" ++
             (match url with
              | c :: _ => if Ascii.eqb c "/" then url else s "/" ++ url
              | [] => url
              end)
        else url
    end in
  let url := match sch with [] => url | _ => sch ++ s ":" ++ url end in
  let url := match qry with [] => url | _ => url ++ s "?" ++ qry end in
  match frag with [] => url | _ => url ++ s "#" ++ frag end.

(** [urlunparse(components)] *)
Definition urlunparse (p : ParseResult) : str :=
  let url := match params p with
             | [] => path p
             | prm => path p ++ s ";" ++ prm
             end in
  urlunsplit (scheme p) (netloc p) url (query p) (fragment p).

(** [u.rpartition(c)[2]]: the text after the last [c], all of [u] when [c]
    does not occur. *)
Definition after_last (c : ascii) (u : str) : str :=
  rev (fst (span_until (Ascii.eqb c) (rev u))).

(** The host of a network location, as [_hostinfo] splits it off: after
    the user information, inside the brackets or before the port. *)
Definition host_part (nl : str) : str :=
  let hostinfo := after_last "@" nl in
  if chr_in "[" hostinfo
  then fst (split_once "]" (snd (split_once "[" hostinfo)))
  else fst (split_once ":" hostinfo).

(** The [hostname] property of a parse result: lower-cased up to the zone
    separator; the empty string stands for [None]. *)
Definition hostname (nl : str) : str :=
  let '(h, zone) := span_until (Ascii.eqb "%") (host_part nl) in
  lower h ++ zone.

(** ** URL normalizer *)

(** The first statement of [_normalize_url]. *)
Definition ensure_scheme (url : str) : str :=
  if startswith (s "http://") url || startswith (s "https://") url
  then url else s "https://" ++ url.

Definition _normalize_url (url : str) : result str :=
  parsed <- urlparse (ensure_scheme url) ;;
  Ok (urlunparse {| scheme := scheme parsed;
                    netloc := lower (netloc parsed);
                    path := str_or (rstrip_chr "/" (path parsed)) (s "/");
                    params := params parsed;
                    query := query parsed;
                    fragment := [] |}).

(** ** The [re] module

    A backtracking matcher with Python's priorities: alternatives are tried
    left to right, repetition is greedy.  The state holds the text to the
    left of the cursor (reversed, for [\b] and for the matched text), the
    text to the right and the groups captured so far. *)

Inductive cls : Type :=
| Digit   (* \d *)
| Space   (* \s *)
| Dot.    (* .  : any character but a line feed *)

Inductive regex : Type :=
| REps
| RChr (c : ascii)
| RCls (k : cls)
| RSeq (r1 r2 : regex)
| RAlt (r1 r2 : regex)
| RStar (r : regex)
| RGroup (i : nat) (r : regex)
| RWordB.

Record mstate := {
  left_rev : str;
  right : str;
  caps : list (nat * str)
}.

Definition cls_mem (k : cls) (x : ascii) : bool :=
  match k with
  | Digit => is_digit x
  | Space => is_space x
  | Dot => negb (nat_of_ascii x =? 10)%nat
  end.

(** Character comparison, under [re.IGNORECASE] when [ic] is set. *)
Definition chr_eq (ic : bool) (c x : ascii) : bool :=
  if ic then Ascii.eqb (lower_ascii c) (lower_ascii x) else Ascii.eqb c x.

Definition advance (x : ascii) (u : str) (st : mstate) : mstate :=
  {| left_rev := x :: left_rev st; right := u; caps := caps st |}.

(** The text consumed between two states of one match attempt. *)
Definition consumed (st0 st1 : mstate) : str :=
  rev (firstn (length (left_rev st1) - length (left_rev st0)) (left_rev st1)).

Definition set_cap (i : nat) (t : str) (st : mstate) : mstate :=
  {| left_rev := left_rev st; right := right st; caps := (i, t) :: caps st |}.

Definition at_word_boundary (st : mstate) : bool :=
  let l := match left_rev st with c :: _ => is_word c | [] => false end in
  let r := match right st with c :: _ => is_word c | [] => false end in
  xorb l r.

Fixpoint rx_match (ic : bool) (r : regex) (st : mstate)
    (k : mstate -> option mstate) {struct r} : option mstate :=
  match r with
  | REps => k st
  | RChr c =>
      match right st with
      | x :: u => if chr_eq ic c x then k (advance x u st) else None
      | [] => None
      end
  | RCls cl =>
      match right st with
      | x :: u => if cls_mem cl x then k (advance x u st) else None
      | [] => None
      end
  | RSeq r1 r2 => rx_match ic r1 st (fun st' => rx_match ic r2 st' k)
  | RAlt r1 r2 =>
      match rx_match ic r1 st k with
      | Some e => Some e
      | None => rx_match ic r2 st k
      end
  | RStar r1 =>
      (fix loop (n : nat) (st : mstate) {struct n} : option mstate :=
         match n with
         | O => k st
         | S n' =>
             match rx_match ic r1 st
                     (fun st' =>
                        if (length (right st') <? length (right st))%nat
                        then loop n' st' else None) with
             | Some e => Some e
             | None => k st
             end
         end) (length (right st)) st
  | RGroup i r1 =>
      rx_match ic r1 st (fun st' => k (set_cap i (consumed st st') st'))
  | RWordB => if at_word_boundary st then k st else None
  end.

(** The state after the cursor moved over the first [n] characters. *)
Definition skip_over (n : nat) (st : mstate) : mstate :=
  {| left_rev := rev (firstn n (right st)) ++ left_rev st;
     right := skipn n (right st);
     caps := caps st |}.

(** A match object: start offset, matched text, captured groups. *)
Record rmatch := {
  m_start : nat;
  m_text : str;
  m_caps : list (nat * str)
}.

(** [m.group(i)]; a group that did not take part is the empty string, as
    in the result of [findall]. *)
Fixpoint group (i : nat) (cs : list (nat * str)) : str :=
  match cs with
  | [] => []
  | (j, t) :: cs' => if (i =? j)%nat then t else group i cs'
  end.

Definition match_at (ic : bool) (r : regex) (l u : str)
  : option (rmatch * mstate) :=
  let st0 := {| left_rev := l; right := u; caps := [] |} in
  match rx_match ic r st0 Some with
  | Some st1 =>
      Some ({| m_start := length l; m_text := consumed st0 st1;
               m_caps := caps st1 |}, st1)
  | None => None
  end.

(** The leftmost match at or after the cursor. *)
Fixpoint search_from (ic : bool) (r : regex) (l u : str)
  : option (rmatch * mstate) :=
  match match_at ic r l u with
  | Some m => Some m
  | None =>
      match u with
      | [] => None
      | c :: u' => search_from ic r (c :: l) u'
      end
  end.

(** [re.search(r, text)] *)
Definition re_search (ic : bool) (r : regex) (text : str) : option rmatch :=
  option_map fst (search_from ic r [] text).

Fixpoint findall_from (fuel : nat) (ic : bool) (r : regex) (l u : str)
  : list rmatch :=
  match fuel with
  | O => []
  | S fuel' =>
      match search_from ic r l u with
      | None => []
      | Some (m, st) =>
          m ::
          match m_text m, right st with
          | [], [] => []
          | [], c :: u' => findall_from fuel' ic r (c :: left_rev st) u'
          | _ :: _, _ => findall_from fuel' ic r (left_rev st) (right st)
          end
      end
  end.

(** [re.finditer(r, text)]: the non-overlapping matches, left to right. *)
Definition re_finditer (ic : bool) (r : regex) (text : str) : list rmatch :=
  findall_from (S (length text)) ic r [] text.

(** Pattern syntax. *)
Definition lit (p : str) : regex := fold_right (fun c r => RSeq (RChr c) r) REps p.
Definition lx (p : string) : regex := lit (s p).
Definition alts (rs : list regex) : regex :=
  match rs with
  | [] => REps
  | r :: rs' => fold_left RAlt rs' r
  end.
Definition plus (r : regex) : regex := RSeq r (RStar r).
Definition opt (r : regex) : regex := RAlt r REps.
Fixpoint rep (n : nat) (r : regex) : regex :=
  match n with
  | O => REps
  | S n' => RSeq r (rep n' r)
  end.
Definition seqs (rs : list regex) : regex := fold_right RSeq REps rs.
Definition dg : regex := RCls Digit.
Definition ws : regex := RCls Space.
(** [\d+(?:\.\d+)?] *)
Definition decimal : regex := RSeq (plus dg) (opt (RSeq (RChr ".") (plus dg))).

(** ** The parsed page

    The document tree of the HTML parser: text nodes and elements with
    their attributes.  An empty document is the empty list. *)

Inductive node : Type :=
| Text (t : str)
| Elem (tag : str) (attrs : list (str * str)) (children : list node).

Definition soup := list node.

(** [element.get_text()] *)
Fixpoint node_text (n : node) : str :=
  match n with
  | Text t => t
  | Elem _ _ cs => concat (map node_text cs)
  end.

(** [soup.get_text()] *)
Definition get_text (sp : soup) : str := concat (map node_text sp).

(** The elements of a subtree in document order. *)
Fixpoint node_elements (n : node) : list node :=
  match n with
  | Text _ => []
  | Elem _ _ cs => n :: flat_map node_elements cs
  end.

Definition elements (sp : soup) : list node := flat_map node_elements sp.

Definition tag_name (n : node) : str :=
  match n with Elem t _ _ => t | Text _ => [] end.

Fixpoint assoc (k : str) (kv : list (str * str)) : option str :=
  match kv with
  | [] => None
  | (k', v) :: kv' => if str_eqb k k' then Some v else assoc k kv'
  end.

(** [element.get(name)] *)
Definition attr (name : str) (n : node) : option str :=
  match n with Elem _ a _ => assoc name a | Text _ => None end.

Definition attr_or (name : str) (dflt : str) (n : node) : str :=
  match attr name n with Some v => v | None => dflt end.

Definition is_some {A} (o : option A) : bool :=
  match o with Some _ => true | None => false end.

(** [soup.find_all('a', href=True)] *)
Definition find_all_links (sp : soup) : list node :=
  filter (fun n => str_eqb (tag_name n) (s "a") && is_some (attr (s "href") n))
         (elements sp).

(** [re.compile(r'nav|menu', re.I)] *)
Definition nav_class_pattern : regex := alts [lx "nav"; lx "menu"].

(** An element whose class attribute matches the pattern. *)
Definition class_matches (r : regex) (n : node) : bool :=
  match attr (s "class") n with
  | Some c => is_some (re_search true r c)
  | None => false
  end.

(** [soup.find_all(['nav', 'ul', 'div'], class_=re.compile(r'nav|menu', re.I))] *)
Definition find_nav_elements (sp : soup) : list node :=
  filter (fun n => str_mem (tag_name n) (map s ["nav"; "ul"; "div"])
                   && class_matches nav_class_pattern n)
         (elements sp).

(** [soup.find(tag)] *)
Definition find_tag (tag : str) (sp : soup) : option node :=
  List.find (fun n => str_eqb (tag_name n) tag) (elements sp).

(** ** Link extraction and URL patterns *)

Definition http_prefixed (u : str) : bool :=
  startswith (s "http://") u || startswith (s "https://") u.

Definition _is_same_domain (link base_url : str) : bool :=
  match urlparse link with
  | Raise _ => false
  | Ok pl =>
      match urlparse base_url with
      | Raise _ => false
      | Ok pb => str_eqb (lower (netloc pl)) (lower (netloc pb))
      end
  end.

(** The hrefs skipped by [_extract_links]. *)
Definition skipped_href (href : str) : bool :=
  match href with
  | [] => true
  | _ => existsb (fun p => startswith p href)
                 (map s ["#"; "javascript:"; "mailto:"; "tel:"])
  end.

(** The loop of [_extract_links] over the anchor elements; [urljoin] is the
    library function, which may raise. *)
Fixpoint collect_links (urljoin : str -> str -> result str)
    (base_url : str) (tags : list node) : result (list str) :=
  match tags with
  | [] => Ok []
  | link_tag :: tags' =>
      let href := strip (attr_or (s "href") [] link_tag) in
      if skipped_href href then collect_links urljoin base_url tags'
      else
        absolute_url <- urljoin base_url href ;;
        links <- collect_links urljoin base_url tags' ;;
        Ok (if http_prefixed absolute_url
               && _is_same_domain absolute_url base_url
            then absolute_url :: links else links)
  end.

(** [list(set(links))]: one enumeration of the set. *)
Definition list_set (links : list str) : list str :=
  nodup (list_eq_dec ascii_dec) links.

Definition _extract_links (urljoin : str -> str -> result str)
    (sp : soup) (base_url : str) : result (list str) :=
  links <- collect_links urljoin base_url (find_all_links sp) ;;
  Ok (list_set links).

(** [self.esg_url_patterns] *)
Definition esg_url_patterns : list str :=
  map s ["/sustainability"; "/esg"; "/csr"; "/corporate-responsibility";
         "/environmental"; "/social-responsibility"; "/governance";
         "/annual-report"; "/impact-report"; "/investor-relations";
         "/responsibility"; "/climate"; "/carbon"].

(** The test of [_filter_esg_links] on one link: the patterns are regular
    expressions without special characters. *)
Definition is_esg_link (link : str) : bool :=
  let link_lower := lower link in
  existsb (fun pattern => is_some (re_search false (lit pattern) link_lower))
          esg_url_patterns.

Definition _filter_esg_links (links : list str) : list str :=
  filter is_esg_link links.

(** The local list [esg_patterns] of [_detect_esg_url_patterns]. *)
Definition esg_patterns : list str :=
  map s ["/sustainability"; "/esg"; "/csr"; "/corporate-responsibility";
         "/environmental"; "/social-responsibility"; "/governance";
         "/annual-report"; "/impact-report"; "/climate"; "/carbon"].

Definition _detect_esg_url_patterns (base_url : str) : list str :=
  filter (fun pattern => contains pattern (lower base_url)) esg_patterns.

(** ** Numbers *)

Definition Qnat (n : nat) : Q := inject_Z (Z.of_nat n).

(** [a >= b] on floats. *)
Definition Qge_bool (a b : Q) : bool := Qle_bool b a.
(** [a > b] on floats. *)
Definition Qgt_bool (a b : Q) : bool := negb (Qle_bool a b).

(** Rounding to the nearest integer, ties to even. *)
Definition round_half_even (y : Q) : Z :=
  let f := Qfloor y in
  let frac := y - inject_Z f in
  if Qgt_bool (1 # 2) frac then f
  else if Qgt_bool frac (1 # 2) then (f + 1)%Z
  else if Z.even f then f else (f + 1)%Z.

(** [round(x, ndigits)] *)
Definition py_round (x : Q) (ndigits : nat) : Q :=
  let scale := (10 ^ Z.of_nat ndigits)%Z in
  inject_Z (round_half_even (x * inject_Z scale)) / inject_Z scale.

Definition Qsum (l : list Q) : Q := fold_left Qplus l 0.

(** [int(text)] for a string of decimal digits. *)
Definition int_of_digits (t : str) : nat :=
  fold_left (fun acc c => (10 * acc + (nat_of_ascii c - 48))%nat) t 0%nat.

(** ** Evidence *)

Record keyword_match := {
  km_keyword : str;
  km_impact : option str
}.

Record nav_match := {
  nm_keyword : str;
  nm_nav_text : str;
  nm_element_type : str;
  nm_element_class : option str;
  nm_confidence : option Q
}.

Record title_match := {
  tm_keyword : str;
  tm_full_title : str;
  tm_confidence : option Q
}.

Record content_quality := {
  high_impact_keywords : nat;
  medium_impact_keywords : nat;
  low_impact_keywords : nat;
  content_quality_score : Q;
  navigation_score : Q;
  title_score : Q
}.

Record doc_info := {
  doc_url : str;
  doc_link_text : str;
  doc_type : str;
  is_sustainability_related : bool
}.

Record document_discovery_t := {
  pdf_documents : list doc_info;
  doc_documents : list doc_info;
  total_documents_found : nat;
  sustainability_documents : list doc_info;
  sustainability_ratio : Q
}.

Record quantitative_patterns_t := {
  percentages_found : list str;
  targets_found : list str;
  metrics_found : list str;
  years_found : list str;
  numerical_goals : list str
}.

Record sentiment := {
  compound : Q;
  pos : Q;
  neg : Q;
  neu : Q
}.

Record entity := {
  en_type : str;
  en_value : str;
  en_context : str;
  en_position : nat * nat
}.

Record semantic := {
  concept_similarities : list (str * Q);
  dominant_concept : option str;
  overall_esg_alignment : Q
}.

Record summary_t := {
  summary : str;
  key_points : list str;
  sentence_count : nat
}.

Record topic := {
  tp_topic : str;
  keyword_matches : nat;
  relevance_score : Q
}.

Record credibility := {
  category_scores : list (str * Q);
  overall_credibility : Q;
  has_verification : bool;
  has_specific_metrics : bool
}.

(** The dictionary returned by a successful [_perform_nlp_analysis]. *)
Record nlp_block := {
  overall_sentiment : sentiment;
  esg_specific_sentiment : Q;
  named_entities : list entity;
  semantic_similarity : semantic;
  content_summary : summary_t;
  esg_topics_identified : list topic;
  commitment_strength : Q;
  forward_looking_statements : list str;
  credibility_indicators : credibility
}.

(** The value of [_perform_nlp_analysis]: [None] is the empty dictionary. *)
Definition nlp_results := option nlp_block.

(** The evidence dictionary; a key that a version does not have is [None]. *)
Record evidence := {
  keywords_found : list keyword_match;
  navigation_matches : list nav_match;
  title_matches : list title_match;
  url_patterns_found : list str;
  detection_method : str;
  sustainability_score : option Q;
  confidence_level : option Q;
  content_quality_analysis : option content_quality;
  quantitative_data_found : option bool;
  targets_or_goals_found : option bool;
  document_discovery : option document_discovery_t;
  quantitative_patterns : option quantitative_patterns_t;
  nlp_analysis : option nlp_results
}.

(** [evidence.get(key, 0.0)] *)
Definition get_or_zero (o : option Q) : Q :=
  match o with Some q => q | None => 0 end.

(** The key is present and holds the number [q]. *)
Definition value_is (o : option Q) (q : Q) : Prop :=
  match o with Some x => x == q | None => False end.

Definition nonempty {A} (l : list A) : bool :=
  match l with [] => false | _ => true end.

(** ** Detection, version 1 *)

(** [self.esg_keywords] *)
Definition esg_keywords : list str :=
  map s ["sustainability report"; "esg report"; "csr report";
         "environmental report"; "social responsibility report";
         "annual sustainability"; "impact report";
         "corporate responsibility report"; "governance report";
         "climate report"; "carbon report";
         "environmental social governance"].

Definition esg_nav_keywords : list str :=
  map s ["sustainability"; "esg"; "csr"; "responsibility"; "environmental";
         "governance"].

Definition title_keywords : list str :=
  map s ["sustainability"; "esg"; "csr"; "responsibility"].

(** The navigation loop shared by versions 1 and 2. *)
Definition nav_matches (conf : option Q) (sp : soup) : list nav_match :=
  flat_map
    (fun nav =>
       let nav_text := lower (node_text nav) in
       flat_map
         (fun keyword =>
            if contains keyword nav_text
            then [{| nm_keyword := keyword;
                     nm_nav_text := firstn 200 (strip nav_text);
                     nm_element_type := tag_name nav;
                     nm_element_class := attr (s "class") nav;
                     nm_confidence := conf |}]
            else [])
         esg_nav_keywords)
    (find_nav_elements sp).

(** The title check shared by versions 1 and 2. *)
Definition title_matches_of (conf : option Q) (sp : soup) : list title_match :=
  match find_tag (s "title") sp with
  | Some title =>
      let title_text := lower (node_text title) in
      flat_map
        (fun keyword =>
           if contains keyword title_text
           then [{| tm_keyword := keyword;
                    tm_full_title := strip (node_text title);
                    tm_confidence := conf |}]
           else [])
        title_keywords
  | None => []
  end.

(** Version 1 sets [has_esg] whenever it records a match. *)
Definition _detect_esg_content_v1 (sp : soup) : bool * evidence :=
  let page_text := lower (get_text sp) in
  let kws := filter (fun keyword => contains keyword page_text) esg_keywords in
  let navs := nav_matches None sp in
  let titles := title_matches_of None sp in
  (nonempty kws || nonempty navs || nonempty titles,
   {| keywords_found :=
        map (fun k => {| km_keyword := k; km_impact := None |}) kws;
      navigation_matches := navs;
      title_matches := titles;
      url_patterns_found := [];
      detection_method := s "basic_keyword_matching";
      sustainability_score := None;
      confidence_level := None;
      content_quality_analysis := None;
      quantitative_data_found := None;
      targets_or_goals_found := None;
      document_discovery := None;
      quantitative_patterns := None;
      nlp_analysis := None |}).

(** ** Detection, version 2 *)

Definition high_impact : list str :=
  map s ["sustainability report"; "carbon footprint"; "net zero";
         "science-based targets"; "ESG strategy"; "climate action"].
Definition medium_impact : list str :=
  map s ["green initiatives"; "renewable energy"; "energy efficiency";
         "waste reduction"; "circular economy"].
Definition low_impact : list str :=
  map s ["eco-friendly"; "sustainable practices"; "environmental awareness"].

Definition tons : regex := RSeq (lx "ton") (opt (lx "s")).
Definition tonnes : regex := RSeq (lx "tonne") (opt (lx "s")).

(** [\d+%|\d+\s*(tons?|tonnes?|MW|GW|kWh|CO2|carbon)] *)
Definition quantitative_pattern : regex :=
  RAlt (RSeq (plus dg) (lx "%"))
       (seqs [plus dg; RStar ws;
              RGroup 1 (alts [tons; tonnes; lx "MW"; lx "GW"; lx "kWh";
                              lx "CO2"; lx "carbon"])]).

(** [by\s+20\d{2}|target|goal|commitment] *)
Definition targets_pattern : regex :=
  alts [seqs [lx "by"; plus ws; lx "20"; rep 2 dg];
        lx "target"; lx "goal"; lx "commitment"].

Definition tier_matches (impact : string) (tier : list str) (page_text : str)
  : list keyword_match :=
  map (fun k => {| km_keyword := k; km_impact := Some (s impact) |})
      (filter (fun keyword => contains keyword page_text) tier).

(** [score += step] once per match. *)
Definition accumulate {A} (step : Q) (matches : list A) : Q :=
  fold_left (fun acc _ => acc + step) matches 0.

Definition _detect_esg_content_v2 (sp : soup) : bool * evidence :=
  let page_text := lower (get_text sp) in
  let high := tier_matches "high" high_impact page_text in
  let medium := tier_matches "medium" medium_impact page_text in
  let low := tier_matches "low" low_impact page_text in
  let high_impact_matches := length high in
  let medium_impact_matches := length medium in
  let low_impact_matches := length low in
  let kws := high ++ medium ++ low in
  let content_quality_score :=
    0 + Qmin (4 # 10) (Qnat high_impact_matches * (1 # 10))
      + Qmin (3 # 10) (Qnat medium_impact_matches * (5 # 100))
      + Qmin (1 # 10) (Qnat low_impact_matches * (2 # 100)) in
  let quantitative := is_some (re_search false quantitative_pattern page_text) in
  let content_quality_score :=
    if quantitative then content_quality_score + (15 # 100)
    else content_quality_score in
  let targets := is_some (re_search false targets_pattern page_text) in
  let content_quality_score :=
    if targets then content_quality_score + (5 # 100)
    else content_quality_score in
  let navs := nav_matches (Some (8 # 10)) sp in
  let nav_score := accumulate (1 # 10) navs in
  let titles := title_matches_of (Some (9 # 10)) sp in
  let title_score := accumulate (2 # 10) titles in
  let overall_score :=
    Qmin 10 (content_quality_score * 6 + nav_score * 2 + title_score * 2) in
  let data_points := (length kws + length navs + length titles)%nat in
  let confidence := Qmin 1 ((3 # 10) + Qnat data_points * (1 # 10)) in
  (Qge_bool overall_score 2 || Qge_bool confidence (6 # 10),
   {| keywords_found := kws;
      navigation_matches := navs;
      title_matches := titles;
      url_patterns_found := [];
      detection_method := s "enhanced_scoring_algorithm";
      sustainability_score := Some (py_round overall_score 2);
      confidence_level := Some (py_round confidence 3);
      content_quality_analysis :=
        Some {| high_impact_keywords := high_impact_matches;
                medium_impact_keywords := medium_impact_matches;
                low_impact_keywords := low_impact_matches;
                content_quality_score := py_round content_quality_score 3;
                navigation_score := py_round nav_score 3;
                title_score := py_round title_score 3 |};
      quantitative_data_found := Some quantitative;
      targets_or_goals_found := Some targets;
      document_discovery := None;
      quantitative_patterns := None;
      nlp_analysis := None |}).

(** ** Detection, version 3 *)

Definition pdf_extensions : list str := map s [".pdf"].
Definition doc_extensions : list str :=
  map s [".doc"; ".docx"; ".xls"; ".xlsx"; ".ppt"; ".pptx"].

Definition sustainability_doc_keywords : list str :=
  map s ["sustainability"; "esg"; "csr"; "responsibility"; "environmental";
         "carbon"; "climate"; "green"; "renewable"; "annual report";
         "impact report"; "governance"; "ethics"; "compliance"].

Definition mk_doc (href link_text : str) (type : string) : doc_info :=
  {| doc_url := href;
     doc_link_text := link_text;
     doc_type := s type;
     is_sustainability_related :=
       existsb (fun keyword => contains keyword href
                               || contains keyword link_text)
               sustainability_doc_keywords |}.

(** The classification of one link by [_discover_documents]. *)
Definition classify_link (link : node) : option doc_info :=
  let href := lower (attr_or (s "href") [] link) in
  let link_text := lower (strip (node_text link)) in
  if existsb (fun ext => contains ext href) pdf_extensions
  then Some (mk_doc href link_text "pdf")
  else if existsb (fun ext => contains ext href) doc_extensions
  then Some (mk_doc href link_text "office_document")
  else None.

Fixpoint choose {A B} (f : A -> option B) (l : list A) : list B :=
  match l with
  | [] => []
  | x :: l' => match f x with
               | Some y => y :: choose f l'
               | None => choose f l'
               end
  end.

Definition _discover_documents (sp : soup) : document_discovery_t :=
  let docs := choose classify_link (find_all_links sp) in
  let pdfs := filter (fun di => str_eqb (doc_type di) (s "pdf")) docs in
  let offices :=
    filter (fun di => str_eqb (doc_type di) (s "office_document")) docs in
  let sust := filter is_sustainability_related docs in
  let total := (length pdfs + length offices)%nat in
  {| pdf_documents := pdfs;
     doc_documents := offices;
     total_documents_found := total;
     sustainability_documents := sust;
     sustainability_ratio := Qnat (length sust) / Qnat (Nat.max total 1) |}.

(** [(\d+(?:\.\d+)?)\s*%] *)
Definition percentage_pattern : regex :=
  seqs [RGroup 1 decimal; RStar ws; lx "%"].

(** [(?:target|goal|aim|reduce|increase|achieve)\s+(?:by\s+)?
     (\d{4}|\d+(?:\.\d+)?%|\d+(?:\.\d+)?\s*(?:million|billion|thousand|tons?|kg|mt))] *)
Definition target_pattern : regex :=
  seqs [alts [lx "target"; lx "goal"; lx "aim"; lx "reduce"; lx "increase";
              lx "achieve"];
        plus ws;
        opt (seqs [lx "by"; plus ws]);
        RGroup 1
          (alts [rep 4 dg;
                 seqs [decimal; lx "%"];
                 seqs [decimal; RStar ws;
                       alts [lx "million"; lx "billion"; lx "thousand";
                             tons; lx "kg"; lx "mt"]]])].

(** [(\d+(?:,\d{3})*(?:\.\d+)?)\s*
     (tons?|kg|mt|kwh|mwh|gwh|co2|carbon|emissions|energy|water|waste)] *)
Definition metric_pattern : regex :=
  seqs [RGroup 1 (seqs [plus dg; RStar (seqs [lx ","; rep 3 dg]);
                        opt (seqs [lx "."; plus dg])]);
        RStar ws;
        RGroup 2 (alts [tons; lx "kg"; lx "mt"; lx "kwh"; lx "mwh"; lx "gwh";
                        lx "co2"; lx "carbon"; lx "emissions"; lx "energy";
                        lx "water"; lx "waste"])].

(** [\b(20\d{2})\b] *)
Definition year_pattern : regex :=
  seqs [RWordB; RGroup 1 (seqs [lx "20"; rep 2 dg]); RWordB].

(** [(?:net.zero|carbon.neutral|zero.emissions|100%\s*renewable)] *)
Definition numerical_goal_pattern : regex :=
  alts [seqs [lx "net"; RCls Dot; lx "zero"];
        seqs [lx "carbon"; RCls Dot; lx "neutral"];
        seqs [lx "zero"; RCls Dot; lx "emissions"];
        seqs [lx "100%"; RStar ws; lx "renewable"]].

Definition relevant_year (year : str) : bool :=
  (2020 <=? int_of_digits year)%nat && (int_of_digits year <=? 2050)%nat.

Definition _extract_quantitative_data (sp : soup) : quantitative_patterns_t :=
  let page_text := get_text sp in
  let percentages := re_finditer true percentage_pattern page_text in
  let targets := re_finditer true target_pattern page_text in
  let metrics := re_finditer true metric_pattern page_text in
  let years := re_finditer false year_pattern page_text in
  let goals := re_finditer true numerical_goal_pattern page_text in
  {| percentages_found :=
       map (fun m => group 1 (m_caps m) ++ s "%") percentages;
     targets_found := map (fun m => group 1 (m_caps m)) targets;
     metrics_found :=
       map (fun m => group 1 (m_caps m) ++ s " " ++ group 2 (m_caps m))
           metrics;
     years_found :=
       list_set (filter relevant_year
                        (map (fun m => group 1 (m_caps m)) years));
     numerical_goals := list_set (map m_text goals) |}.

Definition _detect_esg_content_v3 (sp : soup) : bool * evidence :=
  let '(has_esg_v2, evidence_v2) := _detect_esg_content_v2 sp in
  let documents_found := _discover_documents sp in
  let quantitative_data := _extract_quantitative_data sp in
  let sustainability_score0 := get_or_zero (sustainability_score evidence_v2) in
  let doc_score := 0 in
  let doc_score :=
    if (0 <? total_documents_found documents_found)%nat
    then doc_score
         + Qmin (Qnat (total_documents_found documents_found) * (1 # 10))
                (3 # 10)
    else doc_score in
  let doc_score :=
    if nonempty (sustainability_documents documents_found)
    then doc_score
         + Qnat (length (sustainability_documents documents_found))
           * (15 # 100)
    else doc_score in
  let quant_score := 0 in
  let quant_score :=
    if nonempty (percentages_found quantitative_data)
    then quant_score
         + Qmin (Qnat (length (percentages_found quantitative_data))
                 * (5 # 100)) (2 # 10)
    else quant_score in
  let quant_score :=
    if nonempty (targets_found quantitative_data)
    then quant_score
         + Qmin (Qnat (length (targets_found quantitative_data)) * (1 # 10))
                (3 # 10)
    else quant_score in
  let quant_score :=
    if nonempty (numerical_goals quantitative_data)
    then quant_score
         + Qmin (Qnat (length (numerical_goals quantitative_data))
                 * (8 # 100)) (25 # 100)
    else quant_score in
  let enhanced_score := sustainability_score0 + doc_score + quant_score in
  let score := Qmin enhanced_score 10 in
  let base_confidence := get_or_zero (confidence_level evidence_v2) in
  let doc_confidence :=
    Qmin (Qnat (length (sustainability_documents documents_found))
          * (1 # 10)) (2 # 10) in
  let quant_confidence :=
    Qmin (Qnat (length (targets_found quantitative_data)) * (5 # 100))
         (1 # 10) in
  let confidence :=
    Qmin (base_confidence + doc_confidence + quant_confidence) 1 in
  (Qge_bool score (25 # 10) || Qge_bool confidence (7 # 10) || has_esg_v2,
   {| keywords_found := keywords_found evidence_v2;
      navigation_matches := navigation_matches evidence_v2;
      title_matches := title_matches evidence_v2;
      url_patterns_found := url_patterns_found evidence_v2;
      detection_method := s "document_discovery_with_quantitative_analysis";
      sustainability_score := Some score;
      confidence_level := Some confidence;
      content_quality_analysis := content_quality_analysis evidence_v2;
      quantitative_data_found :=
        Some (nonempty (percentages_found quantitative_data)
              || nonempty (metrics_found quantitative_data)
              || nonempty (numerical_goals quantitative_data));
      targets_or_goals_found :=
        Some (nonempty (targets_found quantitative_data)
              || nonempty (numerical_goals quantitative_data));
      document_discovery := Some documents_found;
      quantitative_patterns := Some quantitative_data;
      nlp_analysis := None |}).

(** ** Detection, version 4 *)

(** The NLTK toolkit; each call may raise (missing corpus, malformed
    input). *)
Record nlp_toolkit := {
  polarity_scores : str -> result sentiment;
  sent_tokenize : str -> result (list str);
  word_tokenize : str -> result (list str);
  stopwords_english : result (list str);
  lemmatize : str -> result str
}.

Fixpoint mapM {A B} (f : A -> result B) (l : list A) : result (list B) :=
  match l with
  | [] => Ok []
  | x :: l' => y <- f x ;; ys <- mapM f l' ;; Ok (y :: ys)
  end.

Definition _contains_esg_keywords (text : str) : bool :=
  let text_lower := lower text in
  existsb (fun keyword => contains keyword text_lower)
          (map s ["sustainability"; "environmental"; "social"; "governance";
                  "esg"; "carbon"; "climate"; "renewable"; "green";
                  "responsible"; "ethical"]).

Definition env_patterns : list regex :=
  [ (* \b(\d+(?:\.\d+)?)\s*(?:tons?|tonnes?)\s*(?:of\s* )?(?:co2|carbon|emissions?)\b
       (the blank after "of\s*" is not part of the pattern) *)
    seqs [RWordB; RGroup 1 decimal; RStar ws; RAlt tons tonnes; RStar ws;
          opt (seqs [lx "of"; RStar ws]);
          alts [lx "co2"; lx "carbon"; seqs [lx "emission"; opt (lx "s")]];
          RWordB];
    (* \b(\d+(?:\.\d+)?)\s*(?:mwh|kwh|gwh)\b *)
    seqs [RWordB; RGroup 1 decimal; RStar ws;
          alts [lx "mwh"; lx "kwh"; lx "gwh"]; RWordB];
    (* \b(\d+(?:\.\d+)?)\s*(?:percent|%)\s*(?:reduction|renewable|clean)\b *)
    seqs [RWordB; RGroup 1 decimal; RStar ws; alts [lx "percent"; lx "%"];
          RStar ws; alts [lx "reduction"; lx "renewable"; lx "clean"];
          RWordB] ].

Definition social_keywords : list str :=
  map s ["diversity"; "inclusion"; "safety"; "community"; "employee";
         "human rights"].

Definition span_of (m : rmatch) : nat * nat :=
  (m_start m, (m_start m + length (m_text m))%nat).

Definition _extract_esg_entities (text : str) : list entity :=
  let environmental :=
    flat_map
      (fun pattern =>
         map (fun m => {| en_type := s "environmental_metric";
                          en_value := group 1 (m_caps m);
                          en_context := m_text m;
                          en_position := span_of m |})
             (re_finditer true pattern text))
      env_patterns in
  let social :=
    flat_map
      (fun keyword =>
         map (fun m => {| en_type := s "social_topic";
                          en_value := keyword;
                          en_context := m_text m;
                          en_position := span_of m |})
             (re_finditer true (seqs [RWordB; lit keyword; RWordB]) text))
      social_keywords in
  firstn 20 (environmental ++ social).

Definition count_word (w : str) (words : list str) : nat :=
  length (filter (str_eqb w) words).

Definition esg_concept_words : list (string * list str) :=
  [("environmental", map s ["green"; "clean"; "renewable"; "sustainable";
                            "carbon"; "climate"; "energy"]);
   ("social", map s ["community"; "diversity"; "inclusion"; "safety";
                     "employee"; "stakeholder"]);
   ("governance", map s ["ethics"; "compliance"; "transparency";
                         "accountability"; "board"; "audit"])].

(** [max(scores, key=scores.get)]: the first key with the largest value. *)
Fixpoint arg_max (l : list (str * Q)) : option (str * Q) :=
  match l with
  | [] => None
  | (k, v) :: l' =>
      match arg_max l' with
      | Some (k', v') => if Qgt_bool v' v then Some (k', v') else Some (k, v)
      | None => Some (k, v)
      end
  end.

Definition _analyze_semantic_similarity (words : list str) : semantic :=
  let similarity_scores :=
    map (fun cw : string * list str =>
           let overlap :=
             fold_left Nat.add
                       (map (fun w => count_word w words) (snd cw)) 0%nat in
           (s (fst cw), Qnat overlap / Qnat (Nat.max (length (snd cw)) 1)))
        esg_concept_words in
  {| concept_similarities := similarity_scores;
     dominant_concept := option_map fst (arg_max similarity_scores);
     overall_esg_alignment :=
       Qsum (map snd similarity_scores) / Qnat (length similarity_scores) |}.

(** [sep.join(parts)] *)
Fixpoint join (sep : str) (parts : list str) : str :=
  match parts with
  | [] => []
  | [p] => p
  | p :: ps => p ++ sep ++ join sep ps
  end.

Definition _summarize_esg_content (esg_sentences : list str) : summary_t :=
  match esg_sentences with
  | [] => {| summary := []; key_points := []; sentence_count := 0 |}
  | _ =>
      let key_sentences := firstn 3 esg_sentences in
      let points :=
        map strip
            (filter (fun sentence =>
                       existsb (fun word => contains word (lower sentence))
                               (map s ["target"; "goal"; "commit"; "reduce";
                                       "increase"]))
                    esg_sentences) in
      {| summary := firstn 500 (join (s " ") key_sentences);
         key_points := firstn 5 points;
         sentence_count := length esg_sentences |}
  end.

Definition topics : list (string * list str) :=
  [("Climate Change", map s ["climate"; "global warming"; "greenhouse gas";
                             "carbon footprint"]);
   ("Renewable Energy", map s ["renewable"; "solar"; "wind"; "clean energy";
                               "green energy"]);
   ("Waste Management", map s ["waste"; "recycling"; "circular economy";
                               "zero waste"]);
   ("Water Conservation", map s ["water"; "conservation";
                                 "sustainable water"]);
   ("Diversity & Inclusion", map s ["diversity"; "inclusion";
                                    "equal opportunity"; "gender equality"]);
   ("Employee Safety", map s ["safety"; "workplace safety";
                              "occupational health"]);
   ("Corporate Governance", map s ["governance"; "board"; "ethics";
                                   "compliance"; "transparency"]);
   ("Supply Chain", map s ["supply chain"; "supplier";
                           "responsible sourcing"])].

(** How many of the phrases occur in the text. *)
Definition count_present (phrases : list str) (text : str) : nat :=
  length (filter (fun p => contains p text) phrases).

(** Stable insertion for a sort by decreasing relevance. *)
Fixpoint insert_topic (x : topic) (l : list topic) : list topic :=
  match l with
  | [] => [x]
  | y :: l' =>
      if Qgt_bool (relevance_score y) (relevance_score x)
      then y :: insert_topic x l' else x :: l
  end.

Definition sort_topics (l : list topic) : list topic :=
  fold_right insert_topic [] l.

Definition _identify_esg_topics (text : str) : list topic :=
  let text_lower := lower text in
  let identified :=
    flat_map
      (fun tk : string * list str =>
         let matches := count_present (snd tk) text_lower in
         if (0 <? matches)%nat
         then [{| tp_topic := s (fst tk);
                  keyword_matches := matches;
                  relevance_score :=
                    Qnat matches / Qnat (length (snd tk)) |}]
         else [])
      topics in
  firstn 10 (sort_topics identified).

Definition _analyze_commitment_strength (text : str) : Q :=
  let text_lower := lower text in
  let strong_count :=
    count_present (map s ["commit"; "pledge"; "promise"; "guarantee";
                          "ensure"; "will achieve"]) text_lower in
  let moderate_count :=
    count_present (map s ["aim"; "target"; "goal"; "strive"; "work towards";
                          "plan to"]) text_lower in
  let weak_count :=
    count_present (map s ["consider"; "explore"; "may"; "might"; "could";
                          "potentially"]) text_lower in
  let total_commitments := (strong_count + moderate_count + weak_count)%nat in
  if (total_commitments =? 0)%nat then 0
  else
    Qmin ((Qnat strong_count * 1 + Qnat moderate_count * (6 # 10)
           + Qnat weak_count * (2 # 10)) / Qnat total_commitments) 1.

Definition _extract_forward_looking_statements (sentences : list str)
  : list str :=
  firstn 5
    (map strip
       (filter
          (fun sentence =>
             existsb (fun indicator => contains indicator (lower sentence))
                     (map s ["by 2030"; "by 2050"; "will"; "plan to";
                             "target"; "goal"; "future"; "next year"])
             && _contains_esg_keywords sentence)
          sentences)).

Definition credibility_indicator_lists : list (string * list str) :=
  [("third_party_verification",
    map s ["verified"; "audited"; "certified"; "accredited"; "validated"]);
   ("specific_metrics",
    map s ["tons"; "kwh"; "percent"; "%"; "million"; "billion"]);
   ("timeframes", map s ["2030"; "2050"; "annual"; "quarterly"; "monthly"]);
   ("standards_frameworks",
    map s ["gri"; "sasb"; "tcfd"; "ungc"; "iso 14001";
           "science based targets"])].

Fixpoint assocQ (k : str) (kv : list (str * Q)) : Q :=
  match kv with
  | [] => 0
  | (k', v) :: kv' => if str_eqb k k' then v else assocQ k kv'
  end.

Definition _analyze_credibility_indicators (text : str) : credibility :=
  let text_lower := lower text in
  let credibility_scores :=
    map (fun ci : string * list str =>
           (s (fst ci),
            Qnat (count_present (snd ci) text_lower)
            / Qnat (length (snd ci))))
        credibility_indicator_lists in
  {| category_scores := credibility_scores;
     overall_credibility :=
       Qsum (map snd credibility_scores)
       / Qnat (length credibility_scores);
     has_verification :=
       Qgt_bool (assocQ (s "third_party_verification") credibility_scores) 0;
     has_specific_metrics :=
       Qgt_bool (assocQ (s "specific_metrics") credibility_scores) 0 |}.

(** [word.isalpha()] *)
Definition isalpha (w : str) : bool := nonempty w && forallb is_alpha w.

(** The body of the [try] block of [_perform_nlp_analysis]. *)
Definition nlp_analysis_body (tk : nlp_toolkit) (text : str)
  : result nlp_block :=
  sentiment_scores <- polarity_scores tk text ;;
  sentences <- sent_tokenize tk text ;;
  words <- word_tokenize tk (lower text) ;;
  stop_words <- stopwords_english tk ;;
  filtered_words <-
    mapM (lemmatize tk)
         (filter (fun word => isalpha word && negb (str_mem word stop_words))
                 words) ;;
  let esg_sentences := filter _contains_esg_keywords sentences in
  esg_sentiment <-
    (match esg_sentences with
     | [] => Ok 0
     | _ =>
         scores <- mapM (fun sent => sc <- polarity_scores tk sent ;;
                                     Ok (compound sc)) esg_sentences ;;
         Ok (Qsum scores / Qnat (length scores))
     end) ;;
  Ok {| overall_sentiment := sentiment_scores;
        esg_specific_sentiment := esg_sentiment;
        named_entities := _extract_esg_entities text;
        semantic_similarity := _analyze_semantic_similarity filtered_words;
        content_summary := _summarize_esg_content esg_sentences;
        esg_topics_identified := _identify_esg_topics text;
        commitment_strength := _analyze_commitment_strength text;
        forward_looking_statements :=
          _extract_forward_looking_statements sentences;
        credibility_indicators := _analyze_credibility_indicators text |}.

(** [_perform_nlp_analysis], called with the NLP libraries imported: any
    exception of the body is logged and the empty dictionary returned. *)
Definition _perform_nlp_analysis (tk : nlp_toolkit) (text : str)
  : nlp_results :=
  match nlp_analysis_body tk text with
  | Ok block => Some block
  | Raise _ => None
  end.

Definition _calculate_nlp_score (r : nlp_results) : Q :=
  match r with
  | None => 0
  | Some b =>
      let score := 0 in
      let esg_sentiment := esg_specific_sentiment b in
      let score :=
        if Qgt_bool esg_sentiment (1 # 10)
        then score + Qmin (esg_sentiment * (5 # 10)) (5 # 10) else score in
      let topics_count := length (esg_topics_identified b) in
      let score := score + Qmin (Qnat topics_count * (1 # 10)) (8 # 10) in
      let score := score + commitment_strength b * (6 # 10) in
      let score :=
        score + overall_credibility (credibility_indicators b) * (4 # 10) in
      Qmin score 2
  end.

Definition _calculate_nlp_confidence (r : nlp_results) : Q :=
  match r with
  | None => 0
  | Some b =>
      let confidence := 0 in
      let forward_statements := length (forward_looking_statements b) in
      let confidence :=
        confidence + Qmin (Qnat forward_statements * (5 # 100)) (15 # 100) in
      let entities := length (named_entities b) in
      let confidence :=
        confidence + Qmin (Qnat entities * (1 # 100)) (1 # 10) in
      let confidence :=
        if has_verification (credibility_indicators b)
        then confidence + (1 # 10) else confidence in
      let confidence :=
        if has_specific_metrics (credibility_indicators b)
        then confidence + (5 # 100) else confidence in
      Qmin confidence (3 # 10)
  end.

(** The decision of version 4, a chain of [or]: its operands are evaluated
    left to right until one is true, and
    [nlp_results["commitment_strength"]] raises [KeyError] on the empty
    dictionary. *)
Definition v4_has_esg (score confidence : Q) (nlp_res : nlp_results)
    (has_esg_v3 : bool) : result bool :=
  if Qge_bool score 3 then Ok true
  else if Qge_bool confidence (75 # 100) then Ok true
  else match nlp_res with
       | None => Raise (KeyError (s "commitment_strength"))
       | Some b =>
           Ok (Qge_bool (commitment_strength b) (7 # 10) || has_esg_v3)
       end.

(** The evidence of version 4: the keys of version 3, the updated numbers
    and the analysis block. *)
Definition v4_evidence (evidence_v3 : evidence) (score confidence : Q)
    (nlp_res : nlp_results) : evidence :=
  {| keywords_found := keywords_found evidence_v3;
     navigation_matches := navigation_matches evidence_v3;
     title_matches := title_matches evidence_v3;
     url_patterns_found := url_patterns_found evidence_v3;
     detection_method := s "advanced_nlp_processing";
     sustainability_score := Some score;
     confidence_level := Some confidence;
     content_quality_analysis := content_quality_analysis evidence_v3;
     quantitative_data_found := quantitative_data_found evidence_v3;
     targets_or_goals_found := targets_or_goals_found evidence_v3;
     document_discovery := document_discovery evidence_v3;
     quantitative_patterns := quantitative_patterns evidence_v3;
     nlp_analysis := Some nlp_res |}.

(** The part of version 4 that runs when the NLP libraries are imported. *)
Definition v4_with_nlp (tk : nlp_toolkit) (page_text : str)
    (v3 : bool * evidence) : result (bool * evidence) :=
  let '(has_esg_v3, evidence_v3) := v3 in
  let nlp_res := _perform_nlp_analysis tk page_text in
  let base_score := get_or_zero (sustainability_score evidence_v3) in
  let nlp_score := _calculate_nlp_score nlp_res in
  let score := Qmin (base_score + nlp_score) 10 in
  let base_confidence := get_or_zero (confidence_level evidence_v3) in
  let nlp_confidence := _calculate_nlp_confidence nlp_res in
  let confidence := Qmin (base_confidence + nlp_confidence) 1 in
  has_esg <- v4_has_esg score confidence nlp_res has_esg_v3 ;;
  Ok (has_esg, v4_evidence evidence_v3 score confidence nlp_res).

(** [NLP_AVAILABLE] is the module flag set by the import of the NLP
    libraries. *)
Definition _detect_esg_content_v4 (NLP_AVAILABLE : bool) (tk : nlp_toolkit)
    (sp : soup) : result (bool * evidence) :=
  if negb NLP_AVAILABLE then Ok (_detect_esg_content_v3 sp)
  else v4_with_nlp tk (get_text sp) (_detect_esg_content_v3 sp).

(** ** Strategy dispatch *)

Record CrawlerConfig := {
  max_depth : nat;
  max_pages_per_site : nat;
  request_delay : Q;
  timeout : nat;
  user_agent : str
}.

(** The crawler object and the process it runs in: the configured version,
    the [NLP_AVAILABLE] flag and the NLP toolkit. *)
Record crawler := {
  config : CrawlerConfig;
  version : str;
  nlp_available : bool;
  nltk : nlp_toolkit
}.

Definition _detect_esg_content (self : crawler) (sp : soup)
  : result (bool * evidence) :=
  if str_eqb (version self) (s "4.0")
  then _detect_esg_content_v4 (nlp_available self) (nltk self) sp
  else if str_eqb (version self) (s "3.0") then Ok (_detect_esg_content_v3 sp)
  else if str_eqb (version self) (s "2.0") then Ok (_detect_esg_content_v2 sp)
  else Ok (_detect_esg_content_v1 sp).

(** ** Website structure *)

Record WebsiteAnalysis := {
  base_url : str;
  is_accessible : bool;
  status_code : option nat;
  content_type : option str;
  page_size : option nat;
  has_navigation : bool;
  language : str;
  sustainability_section_found : bool;
  sustainability_links_found : nat;
  total_links_found : nat;
  error_message : option str
}.

(** [WebsiteAnalysis(base_url=u, is_accessible=False, status_code=c,
    error_message=m)] with the defaults of the other fields. *)
Definition inaccessible (u : str) (c : option nat) (m : str) : WebsiteAnalysis :=
  {| base_url := u;
     is_accessible := false;
     status_code := c;
     content_type := None;
     page_size := None;
     has_navigation := false;
     language := s "unknown";
     sustainability_section_found := false;
     sustainability_links_found := 0;
     total_links_found := 0;
     error_message := Some m |}.

(** What [session.get] and [response.text()] deliver. *)
Inductive fetch_outcome : Type :=
| FetchRaises (e : exn)
| Response (status : nat) (content_type_header : option str)
           (text : result str).

(** The collaborators of one analysis: the HTTP session, the HTML parser
    and [urllib.parse.urljoin]. *)
Record web := {
  http_get : str -> fetch_outcome;
  html_parser : str -> result soup;
  urljoin : str -> str -> result str
}.

(** The document of [BeautifulSoup("", 'html.parser')]. *)
Definition empty_soup : soup := [].

Definition _detect_navigation (sp : soup) : bool :=
  is_some (find_tag (s "nav") sp)
  || existsb (class_matches (lx "nav")) (elements sp)
  || existsb (fun n => match attr (s "id") n with
                       | Some v => is_some (re_search true (lx "nav") v)
                       | None => false
                       end) (elements sp)
  || existsb (fun n => str_eqb (tag_name n) (s "ul")
                       && class_matches (lx "menu") n) (elements sp).

Definition _detect_language (sp : soup) : str :=
  match match find_tag (s "html") sp with
        | Some html_tag =>
            match attr (s "lang") html_tag with
            | Some (c :: v) => Some (lower (firstn 2 (c :: v)))
            | _ => None
            end
        | None => None
        end with
  | Some lang => lang
  | None =>
      match List.find
              (fun n => str_eqb (tag_name n) (s "meta")
                        && match attr (s "http-equiv") n with
                           | Some v => str_eqb v (s "content-language")
                           | None => false
                           end) (elements sp) with
      | Some meta_lang =>
          match attr (s "content") meta_lang with
          | Some (c :: v) => lower (firstn 2 (c :: v))
          | _ => s "en"
          end
      | None => s "en"
      end
  end.

Definition string_of_nat (n : nat) : str :=
  s (DecimalString.NilEmpty.string_of_uint (Nat.to_uint n)).

(** The [try] block of [_analyze_website_structure]. *)
Definition website_structure_body (self : crawler) (w : web) (url : str)
  : result (WebsiteAnalysis * soup) :=
  normalized_url <- _normalize_url url ;;
  match http_get w normalized_url with
  | FetchRaises e => Raise e
  | Response status ctype text =>
      if negb (status =? 200)%nat
      then Ok (inaccessible normalized_url (Some status)
                            (s "HTTP " ++ string_of_nat status),
               empty_soup)
      else
        content <- text ;;
        sp <- html_parser w content ;;
        all_links <- _extract_links (urljoin w) sp normalized_url ;;
        let esg_links := _filter_esg_links all_links in
        homepage_has_esg <- _detect_esg_content self sp ;;
        (* [homepage_has_esg] is the pair returned by the strategy: as an
           operand of [or] it is true *)
        let homepage_has_esg_truth := true in
        Ok ({| base_url := normalized_url;
               is_accessible := true;
               status_code := Some status;
               content_type := Some (match ctype with
                                     | Some c => c
                                     | None => []
                                     end);
               page_size := Some (length content);
               has_navigation := _detect_navigation sp;
               language := _detect_language sp;
               sustainability_section_found :=
                 homepage_has_esg_truth || (0 <? length esg_links)%nat;
               sustainability_links_found := length esg_links;
               total_links_found := length all_links;
               error_message := None |},
            sp)
  end.

(** The message stored by the handlers of [_analyze_website_structure]: a
    timeout, then any other exception. *)
Definition handler_message (e : exn) : str :=
  match e with
  | TimeoutError => s "Request timeout"
  | _ => exn_message e
  end.

Definition _analyze_website_structure (self : crawler) (w : web) (url : str)
  : WebsiteAnalysis * soup :=
  match website_structure_body self w url with
  | Ok r => r
  | Raise e => (inaccessible url None (handler_message e), empty_soup)
  end.

Definition _determine_esg_report_presence (website_analysis : WebsiteAnalysis)
  : bool :=
  if negb (is_accessible website_analysis) then false
  else if sustainability_section_found website_analysis then true
  else if (0 <? sustainability_links_found website_analysis)%nat then true
  else false.

(** ** Result assembly *)

Record ESGReportAnalysisResult := {
  company_website : str;
  website_analysis : WebsiteAnalysis;
  has_esg_reports : bool;
  crawling_evidence : option evidence;
  crawler_config : option nat
}.

Definition set_url_patterns (ev : evidence) (found : list str) : evidence :=
  {| keywords_found := keywords_found ev;
     navigation_matches := navigation_matches ev;
     title_matches := title_matches ev;
     url_patterns_found := found;
     detection_method := detection_method ev;
     sustainability_score := sustainability_score ev;
     confidence_level := confidence_level ev;
     content_quality_analysis := content_quality_analysis ev;
     quantitative_data_found := quantitative_data_found ev;
     targets_or_goals_found := targets_or_goals_found ev;
     document_discovery := document_discovery ev;
     quantitative_patterns := quantitative_patterns ev;
     nlp_analysis := nlp_analysis ev |}.

(** [_get_crawler_config_dict], without its time stamp. *)
Definition _get_crawler_config_dict (self : crawler) : nat :=
  max_depth (config self).

(** The [try] block of [analyze_company_website], from the pair returned
    by [_analyze_website_structure] on. *)
Definition assemble (self : crawler) (website : str)
    (structure : WebsiteAnalysis * soup) : result ESGReportAnalysisResult :=
  let '(analysis, sp) := structure in
  detection <- _detect_esg_content self sp ;;
  let '(has_esg, crawling) := detection in
  let crawling :=
    set_url_patterns crawling (_detect_esg_url_patterns website) in
  Ok {| company_website := website;
        website_analysis := analysis;
        has_esg_reports := has_esg;
        crawling_evidence := Some crawling;
        crawler_config := Some (_get_crawler_config_dict self) |}.

Definition analyze_body (self : crawler) (w : web) (website : str)
  : result ESGReportAnalysisResult :=
  assemble self website (_analyze_website_structure self w website).

(** The error result built by the handlers of [analyze_company_website]
    and [batch_analyze_companies]. *)
Definition error_result (website : str) (e : exn) : ESGReportAnalysisResult :=
  {| company_website := website;
     website_analysis := inaccessible website None (exn_message e);
     has_esg_reports := false;
     crawling_evidence := None;
     crawler_config := None |}.

Definition analyze_company_website (self : crawler) (w : web) (website : str)
  : ESGReportAnalysisResult :=
  match analyze_body self w website with
  | Ok r => r
  | Raise e => error_result website e
  end.

(** [asyncio.gather] with [return_exceptions=True], followed by the loop
    of [batch_analyze_companies]: [task] is the outcome of the coroutine
    started for a website, a result or the exception it raised. *)
Definition batch_with (task : str -> result ESGReportAnalysisResult)
    (company_websites : list str) : list ESGReportAnalysisResult :=
  let results := map task company_websites in
  map (fun ir : str * result ESGReportAnalysisResult =>
         match snd ir with
         | Raise e => error_result (fst ir) e
         | Ok r => r
         end)
      (combine company_websites results).

Definition batch_analyze_companies (self : crawler) (w : web)
    (company_websites : list str) : list ESGReportAnalysisResult :=
  batch_with (fun website => Ok (analyze_company_website self w website))
             company_websites.

(** ** Stored analyses

    The [esg_info] column holds the history of a company: a JSON array
    with one entry per analysis.  [json.loads] is an argument of the
    functions that call it; the [SELECT] and the [UPDATE] are the two
    operations of a [connection]. *)

(** A Python value of this part of the program: [None], a number, a
    string, or a decoded JSON array or object. *)
Inductive json : Type :=
| JNull
| JBool (b : bool)
| JInt (n : Z)
| JFloat (x : Q)
| JStr (t : str)
| JList (l : list json)
| JDict (kv : list (str * json)).

(** The exceptions of this part of the program; [OtherException] is any
    exception of another class. *)
Inductive store_exn : Type :=
| JSONDecodeError (msg : str)
| TypeError (msg : str)
| AttributeError (msg : str)
| OtherException (msg : str).

Inductive outcome (A : Type) : Type :=
| Returns (a : A)
| Raises (e : store_exn).
Arguments Returns {A} a.
Arguments Raises {A} e.

Definition and_then {A B} (r : outcome A) (f : A -> outcome B) : outcome B :=
  match r with
  | Returns a => f a
  | Raises e => Raises e
  end.

(** The truth value of a Python object. *)
Definition truthy (v : json) : bool :=
  match v with
  | JNull => false
  | JBool b => b
  | JInt n => negb (n =? 0)%Z
  | JFloat x => negb (Qeq_bool x 0)
  | JStr t => nonempty t
  | JList l => nonempty l
  | JDict kv => nonempty kv
  end.

(** [type(v).__name__] *)
Definition type_name (v : json) : string :=
  match v with
  | JNull => "NoneType"
  | JBool _ => "bool"
  | JInt _ => "int"
  | JFloat _ => "float"
  | JStr _ => "str"
  | JList _ => "list"
  | JDict _ => "dict"
  end.

(** [d.get(key)] *)
Fixpoint dict_get (key : str) (kv : list (str * json)) : json :=
  match kv with
  | [] => JNull
  | (k, v) :: kv' => if str_eqb key k then v else dict_get key kv'
  end.

(** [v == version] for a string [version]. *)
Definition equals_str (v : json) (version : str) : bool :=
  match v with
  | JStr t => str_eqb t version
  | _ => false
  end.

(** [analysis.get('crawler_version') == version]; only a dictionary has
    the method [get]. *)
Definition entry_has_version (version : str) (analysis : json)
  : outcome bool :=
  match analysis with
  | JDict kv =>
      Returns (equals_str (dict_get (s "crawler_version") kv) version)
  | _ => Raises (AttributeError
                   (s "'" ++ s (type_name analysis)
                      ++ s "' object has no attribute 'get'"))
  end.

(** [any(f(x) for x in l)]: the elements are tested in order, up to the
    first that is true. *)
Fixpoint any_of (f : json -> outcome bool) (l : list json) : outcome bool :=
  match l with
  | [] => Returns false
  | x :: l' =>
      match f x with
      | Raises e => Raises e
      | Returns true => Returns true
      | Returns false => any_of f l'
      end
  end.

(** [json.loads(x) if isinstance(x, str) else x] *)
Definition decoded (loads : str -> outcome json) (x : json) : outcome json :=
  match x with
  | JStr t => loads t
  | _ => Returns x
  end.

Definition _has_version_analysis (loads : str -> outcome json)
    (esg_info : json) (version : str) : outcome bool :=
  if negb (truthy esg_info) then Returns false
  else
    match and_then (decoded loads esg_info)
            (fun esg_data =>
               match esg_data with
               | JList l => any_of (entry_has_version version) l
               | JDict kv =>
                   Returns (equals_str (dict_get (s "crawler_version") kv)
                                       version)
               | _ => Returns false
               end) with
    | Raises (JSONDecodeError _) => Returns false
    | Raises (TypeError _) => Returns false
    | r => r
    end.

(** The fields of an [ESGReportAnalysisResult] that are stored, as the
    data class declares them: its dictionaries are JSON values. *)
Record stored_result := {
  sr_has_esg_reports : bool;
  sr_collection_timestamp : str;
  sr_website_analysis : json;
  sr_crawling_evidence : json;
  sr_crawler_config : json
}.

(** The entry [new_analysis] of [update_company_esg_info]. *)
Definition new_analysis (version : str) (esg_result : stored_result) : json :=
  JDict [(s "has_esg_reports", JBool (sr_has_esg_reports esg_result));
         (s "analysis_timestamp", JStr (sr_collection_timestamp esg_result));
         (s "website_analysis", sr_website_analysis esg_result);
         (s "crawling_evidence", sr_crawling_evidence esg_result);
         (s "crawler_config", sr_crawler_config esg_result);
         (s "crawler_version", JStr version)].

(** The array [updated_analysis] of [update_company_esg_info];
    [existing_data] is the outcome of the [SELECT], which the replace mode
    does not run. *)
Definition updated_analysis (loads : str -> outcome json) (version : str)
    (existing_data : outcome json) (esg_result : stored_result)
    (replace_existing : bool) : outcome (list json) :=
  let new := new_analysis version esg_result in
  if replace_existing then Returns [new]
  else
    and_then existing_data
      (fun existing_data =>
         match existing_data with
         | JNull => Returns [new]
         | _ =>
             and_then (decoded loads existing_data)
               (fun existing_analysis =>
                  let existing_analysis :=
                    match existing_analysis with
                    | JList l => l
                    | _ => [existing_analysis]
                    end in
                  Returns (existing_analysis ++ [new]))
         end).

(** The database connection: the [SELECT] of the stored value of a
    company and the [UPDATE] that stores an array for it. *)
Record connection := {
  fetchval : Z -> outcome json;
  execute : list json -> Z -> outcome unit
}.

(** An exception of the body is logged and raised again. *)
Definition update_company_esg_info (loads : str -> outcome json)
    (version : str) (conn : connection) (company_id : Z)
    (esg_result : stored_result) (replace_existing : bool) : outcome unit :=
  and_then (updated_analysis loads version (fetchval conn company_id)
                             esg_result replace_existing)
           (fun updated => execute conn updated company_id).

(** ** Statistics *)

(** [batch_examples] of [show_analysis_statistics]. *)
Definition batch_examples : list Z := [10; 25; 50; 100]%Z.

(** The batch sizes and the numbers of batches that
    [show_analysis_statistics] prints:
    [(need_analysis + batch_size - 1) // batch_size]. *)
Definition batches_needed (need_analysis : Z) : list (Z * Z) :=
  map (fun batch_size =>
         (batch_size, ((need_analysis + batch_size - 1) / batch_size)%Z))
      batch_examples.

(** ** Continuous processing

    [process_all_companies] over an explicit database state.  The three
    operations on the database are arguments: the count of the companies
    still to analyse, the query for one batch, and the body of the loop
    over the companies of a batch, which catches the exceptions of a
    company and so always ends in a state. *)

Section ContinuousProcessing.

Variable db : Type.
Variable company : Type.

(** [get_total_companies_count(force_reanalysis)] *)
Variable get_total_companies_count : db -> outcome Z.

(** [get_companies_to_process(limit, offset, force_reanalysis)] *)
Variable get_companies_to_process : db -> Z -> Z -> outcome (list company).

(** One company of a batch: the [try] block with its handler. *)
Variable process_company : db -> company -> db.

(** What a run has done: the batches it fetched, each with the offset of
    its query, the counter [processed_count] and the state it leaves. *)
Record progress := {
  batches_done : list (Z * list company);
  processed_count : Z;
  final_state : db
}.

(** The [while] loop.  [None] is a run that is cut off after [fuel]
    iterations.  The description of the progress bar of a batch divides
    [current_offset] by [batch_size]. *)
Fixpoint process_all_loop (fuel : nat) (batch_size total_companies : Z)
    (st : db) (processed current_offset : Z)
    (done : list (Z * list company)) : outcome (option progress) :=
  let finished :=
    Returns (Some {| batches_done := rev done;
                     processed_count := processed;
                     final_state := st |}) in
  if (processed <? total_companies)%Z then
    match fuel with
    | O => Returns None
    | S fuel' =>
        and_then (get_companies_to_process st batch_size current_offset)
          (fun companies =>
             match companies with
             | [] => finished
             | _ =>
                 if (batch_size =? 0)%Z
                 then Raises (OtherException
                                (s "integer division or modulo by zero"))
                 else
                   let st' := fold_left process_company companies st in
                   let processed' :=
                     (processed + Z.of_nat (length companies))%Z in
                   let done' := (current_offset, companies) :: done in
                   and_then (get_total_companies_count st')
                     (fun remaining_companies =>
                        if (remaining_companies =? 0)%Z
                        then Returns (Some {| batches_done := rev done';
                                              processed_count := processed';
                                              final_state := st' |})
                        else process_all_loop fuel' batch_size
                               total_companies st' processed'
                               (current_offset + batch_size)%Z done')
             end)
    end
  else finished.

(** The loop is given [total_companies] iterations. *)
Definition process_all_companies (batch_size : Z) (st : db)
  : outcome (option progress) :=
  and_then (get_total_companies_count st)
    (fun total_companies =>
       if (total_companies =? 0)%Z
       then Returns (Some {| batches_done := [];
                             processed_count := 0;
                             final_state := st |})
       else process_all_loop (Z.to_nat total_companies) batch_size
              total_companies st 0 0 []).

(** The batches of a run: the i-th was fetched at offset
    [start + i * batch_size] and is not empty. *)
Fixpoint paged (batch_size start : Z) (l : list (Z * list company)) : Prop :=
  match l with
  | [] => True
  | (offset, companies) :: l' =>
      offset = start /\ companies <> [] /\
      paged batch_size (start + batch_size)%Z l'
  end.

(** The number of companies in the batches. *)
Definition companies_in (l : list (Z * list company)) : Z :=
  fold_right (fun b n => (Z.of_nat (length (snd b)) + n)%Z) 0%Z l.

End ContinuousProcessing.

Arguments batches_done {db company} p.
Arguments processed_count {db company} p.
Arguments final_state {db company} p.
Arguments process_all_loop {db company}.
Arguments process_all_companies {db company}.
Arguments paged {company}.
Arguments companies_in {company}.

(** ** Sample inputs *)

(** The sentence of the worked example and the page that consists of it. *)
Definition example_text : str :=
  s "Our Sustainability Report 2023 targets net zero by 2030.".

Definition example_page : soup := [Text example_text].

(** A page of four high-impact phrases. *)
Definition keyword_page : soup :=
  [Text (s "sustainability report carbon footprint net zero climate action")].

(** A toolkit whose resources are installed, with a one-sentence tokenizer
    and a neutral sentiment. *)
Definition plain_toolkit : nlp_toolkit :=
  {| polarity_scores :=
       fun _ => Ok {| compound := 0; pos := 0; neg := 0; neu := 1 |};
     sent_tokenize := fun t => Ok (match t with [] => [] | _ => [t] end);
     word_tokenize := fun t => Ok (match t with [] => [] | _ => [t] end);
     stopwords_english := Ok (map s ["the"; "a"; "of"]);
     lemmatize := fun w => Ok w |}.

(** A toolkit whose sentiment lexicon is missing: the analyzer raises. *)
Definition toolkit_without_lexicon : nlp_toolkit :=
  {| polarity_scores :=
       fun _ => Raise (OtherError (s "Resource vader_lexicon not found."));
     sent_tokenize := sent_tokenize plain_toolkit;
     word_tokenize := word_tokenize plain_toolkit;
     stopwords_english := stopwords_english plain_toolkit;
     lemmatize := lemmatize plain_toolkit |}.

Definition default_config : CrawlerConfig :=
  {| max_depth := 2; max_pages_per_site := 20; request_delay := 1;
     timeout := 15; user_agent := s "ESGReportBot/1.0" |}.

(** A crawler of version 3.0. *)
Definition crawler_v3 : crawler :=
  {| config := default_config; version := s "3.0";
     nlp_available := true; nltk := plain_toolkit |}.

(** A crawler of version 4.0 in a process where the NLP libraries are
    imported but the sentiment lexicon is missing. *)
Definition crawler_v4_without_lexicon : crawler :=
  {| config := default_config; version := s "4.0";
     nlp_available := true; nltk := toolkit_without_lexicon |}.

(** A network on which every connection is refused. *)
Definition unreachable_web : web :=
  {| http_get := fun _ => FetchRaises (OtherError (s "Cannot connect to host"));
     html_parser := fun _ => Ok empty_soup;
     urljoin := fun base _ => Ok base |}.

(** A site that serves the given page at every address. *)
Definition static_web (page : soup) : web :=
  {| http_get := fun _ => Response 200 (Some (s "text/html")) (Ok (s "<html>"));
     html_parser := fun _ => Ok page;
     urljoin := fun base _ => Ok base |}.

(** A stand-in for [urljoin] on the references of [links_page]: an
    absolute reference or one with another scheme is returned unchanged, a
    reference that starts with a slash replaces the path of the base. *)
Definition sample_urljoin (base href : str) : result str :=
  if startswith (s "/") href
  then parsed <- urlparse base ;;
       Ok (scheme parsed ++ s "://" ++ netloc parsed ++ href)
  else Ok href.

Definition anchor (href text : string) : node :=
  Elem (s "a") [(s "href", s href)] [Text (s text)].

(** A page with internal, external, repeated and non-HTTP references. *)
Definition links_page : soup :=
  [Elem (s "div") [(s "class", s "menu")]
     [anchor " /reports/sustainability-2023.pdf " "Sustainability report";
      anchor "#top" "Top";
      anchor "mailto:ir@example.com" "Contact";
      anchor "https://other.org/esg" "Partner";
      anchor "/about" "About";
      anchor "https://EXAMPLE.com/about" "About us";
      anchor "/about" "About again";
      anchor "JavaScript:void(0)" "Menu";
      Elem (s "a") [] [Text (s "no target")]]].

(** A page that names a sustainability report and links to it. *)
Definition report_page : soup :=
  [Elem (s "html") [(s "lang", s "EN-us")]
     [Elem (s "title") [] [Text (s "Acme sustainability")];
      Text (s "Read our sustainability report and our net zero plan.");
      Elem (s "a") [(s "href", s "/esg/report.pdf")] [Text (s "Report")]]].

(** A result to store. *)
Definition sample_result : stored_result :=
  {| sr_has_esg_reports := true;
     sr_collection_timestamp := s "2024-05-01T10:00:00";
     sr_website_analysis := JDict [(s "is_accessible", JBool true)];
     sr_crawling_evidence := JDict [];
     sr_crawler_config := JDict [(s "max_depth", JInt 2)] |}.

(** A stored history of one analysis, of version 1.0. *)
Definition sample_history : list json :=
  [JDict [(s "has_esg_reports", JBool false);
          (s "crawler_version", JStr (s "1.0"))]].

(** A decoder that rejects every text. *)
Definition rejecting_loads (t : str) : outcome json :=
  Raises (JSONDecodeError (s "Expecting value")).

(** A page with one keyword of the medium tier, no link and no number. *)
Definition plain_page : soup :=
  [Text (s "We support green initiatives in our offices.")].

(** ** Vocabulary of the statements *)

(** No keyword, navigation or title match. *)
Definition no_matches (ev : evidence) : Prop :=
  keywords_found ev = [] /\ navigation_matches ev = [] /\
  title_matches ev = [].

(** No character of [u] satisfies [p]. *)
Definition avoids (p : ascii -> bool) (u : str) : Prop :=
  forallb (fun c => negb (p c)) u = true.

(** The steps of [urlsplit] after the scheme and the two slashes. *)
Definition split_tail (sch r : str) : result ParseResult :=
  let '(nl, rest) := span_until is_netloc_delim r in
  if brackets_mismatch nl
  then Raise (ValueError (s "Invalid IPv6 URL"))
  else
    let '(url, frag) := split_once "#" rest in
    let '(url, qry) := split_once "?" url in
    Ok {| scheme := sch; netloc := nl; path := url; params := [];
          query := qry; fragment := frag |}.

(** What the components parsed from an HTTP or HTTPS URL satisfy. *)
Record wf_parts (p : ParseResult) : Prop := {
  wf_scheme : scheme p = s "http" \/ scheme p = s "https";
  wf_netloc_safe : avoids is_unsafe (netloc p);
  wf_netloc_delim : avoids is_netloc_delim (netloc p);
  wf_netloc_brackets : brackets_mismatch (netloc p) = false;
  wf_path_safe : avoids is_unsafe (path p);
  wf_path_hash : chr_in "#" (path p) = false;
  wf_path_qmark : chr_in "?" (path p) = false;
  wf_path_shape : path p = [] \/ exists t, path p = "/"%char :: t;
  wf_params_safe : avoids is_unsafe (params p);
  wf_params_hash : chr_in "#" (params p) = false;
  wf_query_safe : avoids is_unsafe (query p);
  wf_query_hash : chr_in "#" (query p) = false
}.

(** The query as [urlunsplit] appends it. *)
Definition query_suffix (qry : str) : str :=
  match qry with [] => [] | _ => s "?" ++ qry end.


(** [u.isascii()] *)
Definition isascii (u : str) : bool :=
  forallb (fun c => (nat_of_ascii c <? 128)%nat) u.

(** The parameters as [urlunparse] appends them to the path. *)
Definition params_suffix (prm : str) : str :=
  match prm with [] => [] | _ => s ";" ++ prm end.

(** What a second pass of the normalizer makes of the path and the
    parameters that a first pass wrote: [urlparse] splits the parameters
    off again, the trailing slashes of the path are stripped and the two
    are put back together. *)
Definition second_pass (u : str) : str :=
  let '(pth, prm) := if chr_in ";" u then _splitparams u else (u, []) in
  str_or (rstrip_chr "/" pth) (s "/") ++ params_suffix prm.

(** The components on which the normalizer is idempotent.  The path is
    taken as the normalizer writes it, without its trailing slashes.  When
    its last segment holds a [;], a second pass takes the text after the
    first [;] of that segment for parameters: the output stays as it is
    only if there is text after that [;] or there are parameters, and if
    there is text before that [;] or the segment is the first one. *)
Definition stable_parts (p : ParseResult) : bool :=
  let '(before, seg) :=
    rsplit_slash (str_or (rstrip_chr "/" (path p)) (s "/")) in
  if chr_in ";" seg
  then let '(a, b) := split_once ";" seg in
       (nonempty b || nonempty (params p))
       && (nonempty a || str_eqb before (s "/"))
  else true.

(** Both numbers are reported, the score in [0, 10] and the confidence in
    [0, 1]. *)
Definition in_bounds (ev : evidence) : Prop :=
  exists score confidence,
    sustainability_score ev = Some score /\
    confidence_level ev = Some confidence /\
    0 <= score /\ score <= 10 /\ 0 <= confidence /\ confidence <= 1.

(** The numbers reported in the evidence of a result, when it has any. *)
Definition reported_scores (r : ESGReportAnalysisResult)
  : option (option Q * option Q) :=
  option_map (fun ev => (sustainability_score ev, confidence_level ev))
             (crawling_evidence r).

(** The verdict and the numbers that the configured strategy yields on a
    parsed page; a strategy that raises yields the negative verdict of the
    error result and no numbers. *)
Definition page_verdict (self : crawler) (sp : soup) : bool :=
  match _detect_esg_content self sp with
  | Ok (has_esg, _) => has_esg
  | Raise _ => false
  end.

Definition page_scores (self : crawler) (sp : soup)
  : option (option Q * option Q) :=
  match _detect_esg_content self sp with
  | Ok (_, ev) => Some (sustainability_score ev, confidence_level ev)
  | Raise _ => None
  end.

(** The fetch or the parse of a target raises: the request, the reading of
    the body or the HTML parser; the value is the message its handler
    stores. *)
Definition fetch_or_parse_failure (w : web) (website : str) : option str :=
  match _normalize_url website with
  | Raise _ => None
  | Ok normalized_url =>
      match http_get w normalized_url with
      | FetchRaises e => Some (handler_message e)
      | Response status _ text =>
          if (status =? 200)%nat
          then match text with
               | Raise e => Some (handler_message e)
               | Ok content =>
                   match html_parser w content with
                   | Raise e => Some (handler_message e)
                   | Ok _ => None
                   end
               end
          else None
      end
  end.

(** Version 4 is configured, the NLP libraries are imported and the
    analysis of the empty text raises inside [_perform_nlp_analysis]. *)
Definition nlp_faults_on_empty_text (self : crawler) : bool :=
  str_eqb (version self) (s "4.0") && nlp_available self
  && negb (is_some (_perform_nlp_analysis (nltk self) [])).

(** The toolkit handles the empty text: it yields a sentiment, no sentence
    and no word, and its stop-word list is installed. *)
Definition processes_empty_text (tk : nlp_toolkit) : Prop :=
  (exists sc, polarity_scores tk [] = Ok sc) /\
  sent_tokenize tk [] = Ok [] /\
  word_tokenize tk [] = Ok [] /\
  (exists sw, stopwords_english tk = Ok sw).

(** The order of the topic list: the first topic is at least as relevant
    as the second. *)
Definition more_relevant (a b : topic) : Prop :=
  relevance_score b <= relevance_score a.

(** A JSON object. *)
Definition is_dict (v : json) : bool :=
  match v with JDict _ => true | _ => false end.

(** The language that the [html] tag declares, and the one that the
    first [meta] tag with [http-equiv="content-language"] declares; the
    empty string where there is none. *)
Definition declared_html_lang (sp : soup) : str :=
  match find_tag (s "html") sp with
  | Some html_tag => attr_or (s "lang") [] html_tag
  | None => []
  end.

Definition declared_meta_lang (sp : soup) : str :=
  match List.find
          (fun n => str_eqb (tag_name n) (s "meta")
                    && match attr (s "http-equiv") n with
                       | Some v => str_eqb v (s "content-language")
                       | None => false
                       end) (elements sp) with
  | Some meta_lang => attr_or (s "content") [] meta_lang
  | None => []
  end.

(** * Properties *)

(** ** Literal patterns *)

Lemma rx_match_lit (p : str) :
  forall st k,
    rx_match false (lit p) st k =
    if startswith p (right st) then k (skip_over (length p) st) else None.
Proof.
  induction p as [|c p IH]; intros st k.
  - destruct st; reflexivity.
  - cbn [lit fold_right rx_match]. fold (lit p).
    destruct st as [lft rgt cs]; cbn [right].
    destruct rgt as [|x u]; [reflexivity|].
    cbn [startswith chr_eq]. destruct (Ascii.eqb c x); [|reflexivity].
    rewrite IH. cbn [advance right andb left_rev caps].
    destruct (startswith p u); [|reflexivity].
    unfold skip_over; cbn [right left_rev caps length firstn skipn rev].
    now rewrite <- app_assoc.
Qed.

Lemma search_lit_contains (p : str) :
  forall lft u, is_some (search_from false (lit p) lft u) = contains p u.
Proof.
  intros lft u; revert lft.
  induction u as [|c u IH]; intros lft;
    cbn [search_from contains]; unfold match_at;
    rewrite rx_match_lit; cbn [right];
    destruct (startswith p _); cbn [orb is_some]; auto.
Qed.

Lemma re_search_lit (p u : str) :
  is_some (re_search false (lit p) u) = contains p u.
Proof.
  unfold re_search. rewrite <- (search_lit_contains p [] u).
  now destruct (search_from false (lit p) [] u).
Qed.

Lemma is_esg_link_contains (link : str) :
  is_esg_link link =
  existsb (fun pattern => contains pattern (lower link)) esg_url_patterns.
Proof.
  unfold is_esg_link.
  induction esg_url_patterns as [|q ps IH]; [reflexivity|].
  cbn [existsb]. now rewrite re_search_lit, IH.
Qed.

(** ** The URL-pattern lists (C9) *)

Lemma filter_nonempty_existsb {A} (f : A -> bool) (xs : list A) :
  filter f xs <> [] <-> existsb f xs = true.
Proof.
  induction xs as [|x xs IH]; cbn [filter existsb].
  - split; [congruence | discriminate].
  - destruct (f x); cbn [orb]; [|exact IH].
    split; [reflexivity | discriminate].
Qed.

Lemma filter_singleton {A} (f : A -> bool) (x : A) :
  filter f [x] = [x] <-> f x = true.
Proof.
  cbn [filter]. destruct (f x); split; congruence.
Qed.

(** The list of the base-URL check is the list of the link filter without
    two of its entries. *)
Lemma esg_url_patterns_split :
  forall q, In q esg_url_patterns <->
            In q esg_patterns \/ q = s "/investor-relations"
            \/ q = s "/responsibility".
Proof.
  intro q. unfold esg_url_patterns, esg_patterns. cbn [map In].
  intuition.
Qed.

(** C9, as stated, fails: the link filter accepts a URL under
    [/responsibility] that the base-URL check does not flag. *)
Lemma url_pattern_lists_differ :
  ~ (_detect_esg_url_patterns (s "https://example.com/responsibility") <> []
     <-> _filter_esg_links [s "https://example.com/responsibility"]
         = [s "https://example.com/responsibility"]).
Proof.
  intros [_ H].
  assert (E : _filter_esg_links [s "https://example.com/responsibility"]
              = [s "https://example.com/responsibility"])
    by (vm_compute; reflexivity).
  apply H in E. apply E. vm_compute. reflexivity.
Qed.

(** C9, amended: the link filter tests a fixed list of 13 patterns on the
    lower-cased link; the base-URL check tests a list of its own, 11 of
    those 13 (all but [/investor-relations] and [/responsibility]).  A URL
    matches the link filter exactly when the base-URL check flags it or it
    contains one of the two remaining patterns. *)
Theorem url_pattern_filter_vs_base_check :
  length esg_url_patterns = 13%nat /\
  length esg_patterns = 11%nat /\
  forall u,
    _filter_esg_links [u] = [u] <->
    (_detect_esg_url_patterns u <> []
     \/ contains (s "/investor-relations") (lower u) = true
     \/ contains (s "/responsibility") (lower u) = true).
Proof.
  split; [reflexivity|]. split; [reflexivity|].
  intro u. unfold _filter_esg_links, _detect_esg_url_patterns.
  rewrite filter_singleton, is_esg_link_contains, filter_nonempty_existsb.
  rewrite !existsb_exists. split.
  - intros (q & Hin & Hq). apply esg_url_patterns_split in Hin.
    destruct Hin as [Hin | [-> | ->]]; eauto.
  - intros [(q & Hin & Hq) | [Hq | Hq]].
    + exists q. split; [|exact Hq]. apply esg_url_patterns_split. now left.
    + exists (s "/investor-relations"). split; [|exact Hq].
      apply esg_url_patterns_split. auto.
    + exists (s "/responsibility"). split; [|exact Hq].
      apply esg_url_patterns_split. auto.
Qed.

(** ** The worked example of version 3 (C4) *)

Lemma v3_keywords (sp : soup) :
  keywords_found (snd (_detect_esg_content_v3 sp)) =
  tier_matches "high" high_impact (lower (get_text sp))
  ++ tier_matches "medium" medium_impact (lower (get_text sp))
  ++ tier_matches "low" low_impact (lower (get_text sp)).
Proof. reflexivity. Qed.

Lemma v3_quantitative (sp : soup) :
  quantitative_patterns (snd (_detect_esg_content_v3 sp)) =
  Some (_extract_quantitative_data sp).
Proof. reflexivity. Qed.

(** C4, as stated, fails: on the page that consists of the example
    sentence the decision of version 3 is negative. *)
Lemma v3_example_decision_is_false :
  fst (_detect_esg_content_v3 example_page) <> true.
Proof. vm_compute. discriminate. Qed.

(** C4, amended: every page whose text is exactly the example sentence
    yields, under version 3, the high-impact keyword match
    "sustainability report", the numerical goal "net zero" and the years
    "2023" and "2030"; for the page that consists of this sentence alone
    the score is 1.58, the confidence 0.5 and the decision
    [has_esg = false]. *)
Theorem v3_example (sp : soup) (H : get_text sp = example_text) :
  let ev := snd (_detect_esg_content_v3 sp) in
  In {| km_keyword := s "sustainability report";
        km_impact := Some (s "high") |} (keywords_found ev) /\
  (exists q, quantitative_patterns ev = Some q /\
             In (s "net zero") (numerical_goals q) /\
             In (s "2023") (years_found q) /\
             In (s "2030") (years_found q)) /\
  (let '(has_esg, ev0) := _detect_esg_content_v3 example_page in
   has_esg = false /\
   value_is (sustainability_score ev0) (158 # 100) /\
   value_is (confidence_level ev0) (5 # 10)).
Proof.
  cbv zeta. split; [|split].
  - rewrite v3_keywords, H. vm_compute. auto.
  - rewrite v3_quantitative. eexists. split; [reflexivity|].
    unfold _extract_quantitative_data. rewrite H. vm_compute. auto 6.
  - vm_compute. auto.
Qed.

Lemma v3_example_witness :
  get_text example_page = example_text /\
  In (s "net zero")
     (numerical_goals (_extract_quantitative_data example_page)).
Proof.
  split; [reflexivity|].
  destruct (v3_example example_page eq_refl) as (_ & (q & Hq & Hg & _) & _).
  rewrite v3_quantitative in Hq. injection Hq as <-. exact Hg.
Defined.

(** ** The empty page (C5) *)

(** On the empty document each of the four strategies returns
    [has_esg = false] with no keyword, navigation or title match; versions
    2, 3 and 4 report the score 0 and the confidence 0.3.  Version 4 is
    taken with the NLP libraries absent, or present with a toolkit that
    handles the empty text. *)
Lemma empty_page_behaviour (NLP_AVAILABLE : bool) (tk : nlp_toolkit)
    (Htk : NLP_AVAILABLE = true -> processes_empty_text tk) :
  (let '(has_esg, ev) := _detect_esg_content_v1 empty_soup in
   has_esg = false /\ no_matches ev) /\
  (let '(has_esg, ev) := _detect_esg_content_v2 empty_soup in
   has_esg = false /\ no_matches ev /\
   value_is (sustainability_score ev) 0 /\
   value_is (confidence_level ev) (3 # 10)) /\
  (let '(has_esg, ev) := _detect_esg_content_v3 empty_soup in
   has_esg = false /\ no_matches ev /\
   value_is (sustainability_score ev) 0 /\
   value_is (confidence_level ev) (3 # 10)) /\
  (exists ev,
     _detect_esg_content_v4 NLP_AVAILABLE tk empty_soup = Ok (false, ev) /\
     no_matches ev /\
     value_is (sustainability_score ev) 0 /\
     value_is (confidence_level ev) (3 # 10)).
Proof.
  split; [|split; [|split]].
  - vm_compute. auto.
  - vm_compute. auto 6.
  - vm_compute. auto 6.
  - destruct NLP_AVAILABLE.
    + destruct (Htk eq_refl) as ((sc & Hsc) & Hsent & Hword & (sw & Hsw)).
      unfold _detect_esg_content_v4, v4_with_nlp, _perform_nlp_analysis,
        nlp_analysis_body.
      change (get_text empty_soup) with (@nil ascii).
      cbn [lower map negb]. rewrite Hsc, Hsent, Hword, Hsw.
      vm_compute. eexists. split; [reflexivity|].
      cbn. repeat split; reflexivity.
    + eexists. split; [reflexivity|]. vm_compute. auto 6.
Qed.

Lemma empty_page_behaviour_witness :
  processes_empty_text plain_toolkit /\
  exists ev,
    _detect_esg_content_v4 true plain_toolkit empty_soup = Ok (false, ev).
Proof.
  assert (H : processes_empty_text plain_toolkit).
  { split; [eexists; reflexivity|].
    split; [reflexivity|]. split; [reflexivity|]. eexists; reflexivity. }
  split; [exact H|].
  destruct (empty_page_behaviour true plain_toolkit (fun _ => H))
    as (_ & _ & _ & ev & Hev & _).
  exists ev. exact Hev.
Defined.

(** C5 at the failing input: with the NLP libraries imported and a
    sentiment analyzer that raises, [_perform_nlp_analysis] returns the
    empty dictionary and version 4 raises [KeyError] on the empty document
    (score 0 < 3.0, confidence 0.3 < 0.75, then the lookup of
    ["commitment_strength"]) instead of returning [has_esg = false] with
    the score 0 and the confidence 0.3, which version 3 returns there. *)
Theorem v4_raises_on_empty_page :
  _perform_nlp_analysis toolkit_without_lexicon (get_text empty_soup) = None
  /\
  _detect_esg_content_v4 true toolkit_without_lexicon empty_soup
  = Raise (KeyError (s "commitment_strength")) /\
  (let '(has_esg, ev) := _detect_esg_content_v3 empty_soup in
   has_esg = false /\ no_matches ev /\
   value_is (sustainability_score ev) 0 /\
   value_is (confidence_level ev) (3 # 10)).
Proof. vm_compute. auto 8. Qed.

(** ** Arithmetic of the scores *)

Lemma Qnat_nonneg (n : nat) : 0 <= Qnat n.
Proof.
  unfold Qnat. change 0 with (inject_Z 0). rewrite <- Zle_Qle. lia.
Qed.

Lemma Qdiv_nonneg (a b : Q) : 0 <= a -> 0 <= b -> 0 <= a / b.
Proof.
  intros Ha Hb. apply Qmult_le_0_compat; [exact Ha|].
  now apply Qinv_le_0_compat.
Qed.

Lemma Qmin_nonneg (a b : Q) : 0 <= a -> 0 <= b -> 0 <= Qmin a b.
Proof. intros; now apply Q.min_glb. Qed.

Lemma Qnat_scaled_nonneg (n : nat) (c : Q) : 0 <= c -> 0 <= Qnat n * c.
Proof. intro; apply Qmult_le_0_compat; [apply Qnat_nonneg | assumption]. Qed.

Lemma fold_plus_nonneg (l : list Q) :
  forall acc, 0 <= acc -> Forall (fun x => 0 <= x) l ->
              0 <= fold_left Qplus l acc.
Proof.
  induction l as [|x l IH]; intros acc Hacc Hl; cbn [fold_left].
  - exact Hacc.
  - inversion Hl; subst. apply IH; [lra | assumption].
Qed.

Lemma Qsum_nonneg (l : list Q) : Forall (fun x => 0 <= x) l -> 0 <= Qsum l.
Proof. intro; apply fold_plus_nonneg; [lra | assumption]. Qed.

Lemma accumulate_nonneg {A} (step : Q) (l : list A) :
  0 <= step -> 0 <= accumulate step l.
Proof.
  intro Hs. unfold accumulate.
  assert (G : forall acc, 0 <= acc ->
                0 <= fold_left (fun a (_ : A) => a + step) l acc).
  { induction l as [|x l IH]; intros acc Hacc; cbn [fold_left].
    - exact Hacc.
    - apply IH. lra. }
  apply G. lra.
Qed.

Lemma Qgt_bool_true (a b : Q) : Qgt_bool a b = true -> b < a.
Proof.
  unfold Qgt_bool. intro H. apply negb_true_iff in H.
  apply Qnot_le_lt. intro Hle. apply Qle_bool_iff in Hle. congruence.
Qed.

Lemma Qgt_bool_false (a b : Q) : Qgt_bool a b = false -> a <= b.
Proof.
  unfold Qgt_bool. intro H. apply negb_false_iff in H.
  now apply Qle_bool_iff.
Qed.

(** Rounding stays between integer bounds. *)
Lemma round_half_even_bounds (m M : Z) (y : Q) :
  inject_Z m <= y -> y <= inject_Z M ->
  (m <= round_half_even y <= M)%Z.
Proof.
  intros Hm HM.
  assert (Hf1 : (m <= Qfloor y)%Z)
    by (rewrite <- (Qfloor_Z m); now apply Qfloor_resp_le).
  assert (Hf2 : (Qfloor y <= M)%Z)
    by (rewrite <- (Qfloor_Z M); now apply Qfloor_resp_le).
  assert (Hup : 0 < y - inject_Z (Qfloor y) -> (Qfloor y + 1 <= M)%Z).
  { intro Hpos.
    assert (Hlt : inject_Z (Qfloor y) < inject_Z M) by lra.
    rewrite <- Zlt_Qlt in Hlt. lia. }
  unfold round_half_even.
  destruct (Qgt_bool (1 # 2) (y - inject_Z (Qfloor y))) eqn:E1; [lia|].
  apply Qgt_bool_false in E1.
  assert (Hpos : 0 < y - inject_Z (Qfloor y)) by lra.
  specialize (Hup Hpos).
  destruct (Qgt_bool (y - inject_Z (Qfloor y)) (1 # 2)); [lia|].
  destruct (Z.even (Qfloor y)); lia.
Qed.

Lemma py_round_bounds (x : Q) (ndigits : nat) (M : Z) :
  0 <= x -> x <= inject_Z M ->
  0 <= py_round x ndigits /\ py_round x ndigits <= inject_Z M.
Proof.
  intros H0 HM. unfold py_round.
  set (scale := (10 ^ Z.of_nat ndigits)%Z).
  assert (Hs : (0 < scale)%Z) by (apply Z.pow_pos_nonneg; lia).
  assert (HsQ : 0 < inject_Z scale)
    by (change 0 with (inject_Z 0); now rewrite <- Zlt_Qlt).
  destruct (round_half_even_bounds 0 (M * scale) (x * inject_Z scale))
    as [Hlo Hhi].
  - change (inject_Z 0) with 0. apply Qmult_le_0_compat; lra.
  - rewrite inject_Z_mult. apply Qmult_le_compat_r; lra.
  - split.
    + apply Qle_shift_div_l; [exact HsQ|].
      rewrite Qmult_0_l. change 0 with (inject_Z 0). now rewrite <- Zle_Qle.
    + apply Qle_shift_div_r; [exact HsQ|].
      rewrite <- inject_Z_mult. now rewrite <- Zle_Qle.
Qed.

Lemma Qplus_nonneg (a b : Q) : 0 <= a -> 0 <= b -> 0 <= a + b.
Proof. intros; lra. Qed.

(** Non-negativity of a score expression, by its structure. *)
Ltac nonneg :=
  repeat first
    [ lra
    | assumption
    | apply Qnat_nonneg
    | apply Qmin_nonneg
    | apply Qplus_nonneg
    | apply Qdiv_nonneg
    | apply Qinv_le_0_compat
    | apply Qmult_le_0_compat
    | apply accumulate_nonneg
    | match goal with
      | |- 0 <= (if ?b then _ else _) => destruct b
      end ].

(** ** Score bounds (C2) *)

Lemma v2_in_bounds (sp : soup) : in_bounds (snd (_detect_esg_content_v2 sp)).
Proof.
  unfold in_bounds, _detect_esg_content_v2. cbv zeta.
  cbn [snd sustainability_score confidence_level].
  eexists; eexists. split; [reflexivity|]. split; [reflexivity|].
  match goal with
  | |- 0 <= py_round ?x 2 /\ _ =>
      destruct (py_round_bounds x 2 10) as [Ha Hb];
      [nonneg | apply Q.le_min_l |]
  end.
  match goal with
  | |- _ /\ _ /\ 0 <= py_round ?x 3 /\ _ =>
      destruct (py_round_bounds x 3 1) as [Hc Hd];
      [nonneg | apply Q.le_min_l |]
  end.
  auto.
Qed.

Lemma v3_in_bounds (sp : soup) : in_bounds (snd (_detect_esg_content_v3 sp)).
Proof.
  pose proof (v2_in_bounds sp) as (s2 & c2 & Hs2 & Hc2 & B1 & B2 & B3 & B4).
  unfold in_bounds, _detect_esg_content_v3.
  destruct (_detect_esg_content_v2 sp) as [b2 ev2]. cbn [snd] in Hs2, Hc2.
  cbv zeta. cbn [snd sustainability_score confidence_level].
  rewrite Hs2, Hc2. cbn [get_or_zero].
  eexists; eexists. split; [reflexivity|]. split; [reflexivity|].
  split; [|split; [apply Q.le_min_r | split; [|apply Q.le_min_r]]];
    nonneg.
Qed.

Lemma commitment_strength_nonneg (text : str) :
  0 <= _analyze_commitment_strength text.
Proof.
  unfold _analyze_commitment_strength. cbv zeta.
  destruct (_ =? 0)%nat; nonneg.
Qed.

Lemma overall_credibility_nonneg (text : str) :
  0 <= overall_credibility (_analyze_credibility_indicators text).
Proof.
  unfold _analyze_credibility_indicators. cbv zeta.
  cbn [overall_credibility]. apply Qdiv_nonneg; [|apply Qnat_nonneg].
  apply Qsum_nonneg. unfold credibility_indicator_lists.
  cbn [map snd fst]. repeat constructor; nonneg.
Qed.

Lemma bind_ok {A B} (r : result A) (f : A -> result B) (b : B) :
  bind r f = Ok b -> exists a, r = Ok a /\ f a = Ok b.
Proof.
  destruct r as [a|e]; cbn [bind]; [eauto | discriminate].
Qed.

(** What every analysis block produced by [_perform_nlp_analysis]
    satisfies. *)
Lemma nlp_block_nonneg (tk : nlp_toolkit) (text : str) (b : nlp_block) :
  _perform_nlp_analysis tk text = Some b ->
  0 <= commitment_strength b /\
  0 <= overall_credibility (credibility_indicators b).
Proof.
  unfold _perform_nlp_analysis.
  destruct (nlp_analysis_body tk text) as [b'|e] eqn:H; [|discriminate].
  intros [= ->]. unfold nlp_analysis_body in H.
  repeat (apply bind_ok in H; destruct H as (? & _ & H)).
  injection H as <-.
  cbn [commitment_strength credibility_indicators].
  split; [apply commitment_strength_nonneg
         | apply overall_credibility_nonneg].
Qed.

Lemma nlp_score_nonneg (tk : nlp_toolkit) (text : str) :
  0 <= _calculate_nlp_score (_perform_nlp_analysis tk text).
Proof.
  destruct (_perform_nlp_analysis tk text) as [b|] eqn:E;
    cbn [_calculate_nlp_score]; [|lra].
  destruct (nlp_block_nonneg _ _ _ E) as [Hc Hcr]. cbv zeta.
  destruct (Qgt_bool (esg_specific_sentiment b) (1 # 10)) eqn:Es.
  - apply Qgt_bool_true in Es. nonneg.
  - nonneg.
Qed.

Lemma nlp_confidence_nonneg (r : nlp_results) :
  0 <= _calculate_nlp_confidence r.
Proof.
  destruct r as [b|]; cbn [_calculate_nlp_confidence]; [|lra].
  cbv zeta. nonneg.
Qed.

(** Version 4 either returns evidence within the bounds or raises the
    [KeyError] of the empty analysis block. *)
Lemma v4_with_nlp_outcome (tk : nlp_toolkit) (text : str)
    (v3 : bool * evidence) :
  in_bounds (snd v3) ->
  match v4_with_nlp tk text v3 with
  | Ok (_, ev) => in_bounds ev
  | Raise e =>
      e = KeyError (s "commitment_strength") /\
      _perform_nlp_analysis tk text = None
  end.
Proof.
  destruct v3 as [b3 ev3]. cbn [snd].
  intros (s3 & c3 & Hs3 & Hc3 & B1 & B2 & B3 & B4).
  pose proof (nlp_score_nonneg tk text) as Hn.
  pose proof (nlp_confidence_nonneg (_perform_nlp_analysis tk text)) as Hnc.
  unfold v4_with_nlp. cbv zeta. rewrite Hs3, Hc3. cbn [get_or_zero].
  assert (G : forall nlp_res,
             in_bounds
               (v4_evidence ev3
                  (Qmin (s3 + _calculate_nlp_score
                                (_perform_nlp_analysis tk text)) 10)
                  (Qmin (c3 + _calculate_nlp_confidence
                                (_perform_nlp_analysis tk text)) 1)
                  nlp_res)).
  { intro r. unfold in_bounds, v4_evidence.
    cbn [sustainability_score confidence_level].
    eexists; eexists. split; [reflexivity|]. split; [reflexivity|].
    split; [nonneg|]. split; [apply Q.le_min_r|].
    split; [nonneg | apply Q.le_min_r]. }
  unfold v4_has_esg.
  destruct (Qge_bool _ 3); cbn [bind]; [apply G|].
  destruct (Qge_bool _ (75 # 100)); cbn [bind]; [apply G|].
  destruct (_perform_nlp_analysis tk text); cbn [bind]; [apply G | auto].
Qed.

Lemma v4_outcome (NLP_AVAILABLE : bool) (tk : nlp_toolkit) (sp : soup) :
  match _detect_esg_content_v4 NLP_AVAILABLE tk sp with
  | Ok (_, ev) => in_bounds ev
  | Raise e =>
      e = KeyError (s "commitment_strength") /\
      NLP_AVAILABLE = true /\
      _perform_nlp_analysis tk (get_text sp) = None
  end.
Proof.
  pose proof (v3_in_bounds sp) as H3.
  unfold _detect_esg_content_v4. destruct NLP_AVAILABLE; cbn [negb].
  - pose proof (v4_with_nlp_outcome tk (get_text sp) _ H3) as H.
    destruct (v4_with_nlp tk (get_text sp) (_detect_esg_content_v3 sp))
      as [[b ev]|e]; [exact H | tauto].
  - destruct (_detect_esg_content_v3 sp) as [b3 ev3]. exact H3.
Qed.

(** The score that versions 2 and 3 report lies in [0, 10] and the
    confidence in [0, 1], on every page; the numbers of version 4 lie
    within the same bounds whenever it returns, and it returns unless it
    raises the [KeyError] of the empty analysis block. *)
Lemma score_bounds (sp : soup) (NLP_AVAILABLE : bool) (tk : nlp_toolkit) :
  in_bounds (snd (_detect_esg_content_v2 sp)) /\
  in_bounds (snd (_detect_esg_content_v3 sp)) /\
  match _detect_esg_content_v4 NLP_AVAILABLE tk sp with
  | Ok (_, ev) => in_bounds ev
  | Raise e =>
      e = KeyError (s "commitment_strength") /\
      NLP_AVAILABLE = true /\
      _perform_nlp_analysis tk (get_text sp) = None
  end.
Proof.
  split; [apply v2_in_bounds|]. split; [apply v3_in_bounds|].
  apply v4_outcome.
Qed.

(** C2 at the failing input: on the empty document versions 2 and 3
    report their numbers within the bounds, and so does version 4 when
    the NLP libraries are absent or the analysis returns its block; with
    the NLP libraries imported and a sentiment analyzer that raises,
    [_perform_nlp_analysis] returns the empty dictionary and version 4
    raises [KeyError]: it reports no score and no confidence. *)
Theorem v4_reports_no_score_on_empty_page :
  in_bounds (snd (_detect_esg_content_v2 empty_soup)) /\
  in_bounds (snd (_detect_esg_content_v3 empty_soup)) /\
  (exists ev,
     _detect_esg_content_v4 false toolkit_without_lexicon empty_soup
     = Ok (false, ev) /\ in_bounds ev) /\
  (exists ev,
     _detect_esg_content_v4 true plain_toolkit empty_soup = Ok (false, ev) /\
     in_bounds ev) /\
  _detect_esg_content_v4 true toolkit_without_lexicon empty_soup
  = Raise (KeyError (s "commitment_strength")).
Proof.
  split; [apply v2_in_bounds|]. split; [apply v3_in_bounds|].
  assert (G : forall NLP_AVAILABLE tk,
             (exists ev, _detect_esg_content_v4 NLP_AVAILABLE tk empty_soup
                         = Ok (false, ev)) ->
             exists ev, _detect_esg_content_v4 NLP_AVAILABLE tk empty_soup
                        = Ok (false, ev) /\ in_bounds ev).
  { intros a tk [ev E]. exists ev. split; [exact E|].
    pose proof (v4_outcome a tk empty_soup) as H. now rewrite E in H. }
  split; [apply G; vm_compute; eexists; reflexivity|].
  split; [apply G; vm_compute; eexists; reflexivity|].
  vm_compute. reflexivity.
Qed.

(** ** Monotonicity of the decisions (C1) *)

Lemma v2_implies_v3 (sp : soup) :
  fst (_detect_esg_content_v2 sp) = true ->
  fst (_detect_esg_content_v3 sp) = true.
Proof.
  unfold _detect_esg_content_v3.
  destruct (_detect_esg_content_v2 sp) as [b2 ev2]. cbn [fst].
  intros ->. cbv zeta. cbn [fst]. apply orb_true_r.
Qed.

Lemma v4_with_nlp_keeps_positive (tk : nlp_toolkit) (text : str)
    (ev3 : evidence) :
  _perform_nlp_analysis tk text <> None ->
  exists ev, v4_with_nlp tk text (true, ev3) = Ok (true, ev).
Proof.
  intro Hnlp. unfold v4_with_nlp. cbv zeta. unfold v4_has_esg.
  destruct (Qge_bool _ 3); cbn [bind]; [eexists; reflexivity|].
  destruct (Qge_bool _ (75 # 100)); cbn [bind]; [eexists; reflexivity|].
  destruct (_perform_nlp_analysis tk text); [|congruence].
  cbn [bind]. rewrite orb_true_r. eexists; reflexivity.
Qed.

Lemma v4_unfold (NLP_AVAILABLE : bool) (tk : nlp_toolkit) (sp : soup) :
  _detect_esg_content_v4 NLP_AVAILABLE tk sp =
  if negb NLP_AVAILABLE then Ok (_detect_esg_content_v3 sp)
  else v4_with_nlp tk (get_text sp) (_detect_esg_content_v3 sp).
Proof. reflexivity. Qed.

Lemma v4_keeps_positive (NLP_AVAILABLE : bool) (tk : nlp_toolkit)
    (text : str) (v3 : bool * evidence) :
  NLP_AVAILABLE = false \/ _perform_nlp_analysis tk text <> None ->
  fst v3 = true ->
  exists ev,
    (if negb NLP_AVAILABLE then Ok v3 else v4_with_nlp tk text v3)
    = Ok (true, ev).
Proof.
  destruct v3 as [b3 ev3]. cbn [fst]. intros Hcap ->.
  destruct NLP_AVAILABLE; cbn [negb].
  - destruct Hcap as [Hcap | Hcap]; [discriminate|].
    now apply v4_with_nlp_keeps_positive.
  - eexists; reflexivity.
Qed.

(** With the NLP libraries absent, or with an analysis that returned its
    block, version 4 keeps a positive decision of version 3. *)
Lemma v3_implies_v4 (NLP_AVAILABLE : bool) (tk : nlp_toolkit) (sp : soup) :
  NLP_AVAILABLE = false \/ _perform_nlp_analysis tk (get_text sp) <> None ->
  fst (_detect_esg_content_v3 sp) = true ->
  exists ev, _detect_esg_content_v4 NLP_AVAILABLE tk sp = Ok (true, ev).
Proof.
  intros Hcap H3. rewrite v4_unfold. now apply v4_keeps_positive.
Qed.

(** C1 at the failing input: on a page of four high-impact phrases
    versions 2 and 3 decide [true]; with the NLP libraries imported and a
    sentiment analyzer that raises, [_perform_nlp_analysis] returns the
    empty dictionary and version 4 raises [KeyError] instead of returning
    [true]. *)
Theorem v4_raises_after_v3_positive :
  fst (_detect_esg_content_v2 keyword_page) = true /\
  fst (_detect_esg_content_v3 keyword_page) = true /\
  _perform_nlp_analysis toolkit_without_lexicon (get_text keyword_page)
  = None /\
  _detect_esg_content_v4 true toolkit_without_lexicon keyword_page
  = Raise (KeyError (s "commitment_strength")).
Proof. vm_compute. auto. Qed.

(** ** The verdict depends on the parsed page only (C10) *)

Lemma analyze_unfold (self : crawler) (w : web) (website : str) :
  analyze_company_website self w website =
  match assemble self website (_analyze_website_structure self w website) with
  | Ok r => r
  | Raise e => error_result website e
  end.
Proof. reflexivity. Qed.

(** The result assembled from a structure pair carries the verdict and the
    numbers of the strategy on its page, whatever the website string. *)
Lemma assemble_verdict (self : crawler) (website : str)
    (structure : WebsiteAnalysis * soup) :
  let r := match assemble self website structure with
           | Ok r => r
           | Raise e => error_result website e
           end in
  has_esg_reports r = page_verdict self (snd structure) /\
  reported_scores r = page_scores self (snd structure).
Proof.
  destruct structure as [analysis sp]. cbn [snd].
  unfold assemble, page_verdict, page_scores.
  destruct (_detect_esg_content self sp) as [[has_esg ev]|e]; cbn [bind];
    split; reflexivity.
Qed.

(** C10: two analysis runs over the same parsed page, with whatever
    website strings (and collaborators), agree on [has_esg_reports] and on
    the reported score and confidence: both are those of the configured
    strategy on the page, which does not see the URL; the URL patterns are
    written into the evidence after the decision. *)
Theorem verdict_depends_on_page_only (self : crawler) (w1 w2 : web)
    (url1 url2 : str)
    (Hpage : snd (_analyze_website_structure self w1 url1)
             = snd (_analyze_website_structure self w2 url2)) :
  let r1 := analyze_company_website self w1 url1 in
  let r2 := analyze_company_website self w2 url2 in
  has_esg_reports r1 = has_esg_reports r2 /\
  reported_scores r1 = reported_scores r2 /\
  has_esg_reports r1
  = page_verdict self (snd (_analyze_website_structure self w1 url1)) /\
  reported_scores r1
  = page_scores self (snd (_analyze_website_structure self w1 url1)).
Proof.
  cbv zeta. rewrite !analyze_unfold.
  destruct (assemble_verdict self url1
              (_analyze_website_structure self w1 url1)) as [Hv1 Hs1].
  destruct (assemble_verdict self url2
              (_analyze_website_structure self w2 url2)) as [Hv2 Hs2].
  rewrite Hv1, Hs1, Hv2, Hs2, Hpage. auto.
Qed.

Lemma verdict_depends_on_page_only_witness :
  snd (_analyze_website_structure crawler_v3 (static_web keyword_page)
         (s "example.com"))
  = snd (_analyze_website_structure crawler_v3 (static_web keyword_page)
           (s "example.org/sustainability")) /\
  has_esg_reports
    (analyze_company_website crawler_v3 (static_web keyword_page)
       (s "example.com"))
  = has_esg_reports
      (analyze_company_website crawler_v3 (static_web keyword_page)
         (s "example.org/sustainability")).
Proof.
  assert (H : snd (_analyze_website_structure crawler_v3
                     (static_web keyword_page) (s "example.com"))
              = snd (_analyze_website_structure crawler_v3
                       (static_web keyword_page)
                       (s "example.org/sustainability")))
    by (vm_compute; reflexivity).
  split; [exact H|].
  exact (proj1 (verdict_depends_on_page_only crawler_v3
                  (static_web keyword_page) (static_web keyword_page)
                  (s "example.com") (s "example.org/sustainability") H)).
Defined.

(** ** Failures are isolated (C3) *)

Lemma Qge_bool_false_of_lt (x y : Q) : x < y -> Qge_bool x y = false.
Proof.
  intro H. unfold Qge_bool. destruct (Qle_bool y x) eqn:E; [|reflexivity].
  apply Qle_bool_iff in E. lra.
Qed.

Lemma nlp_score_le_2 (r : nlp_results) : _calculate_nlp_score r <= 2.
Proof.
  destruct r; cbn [_calculate_nlp_score]; [apply Q.le_min_r | lra].
Qed.

Lemma nlp_confidence_le (r : nlp_results) :
  _calculate_nlp_confidence r <= 3 # 10.
Proof.
  destruct r; cbn [_calculate_nlp_confidence]; [apply Q.le_min_r | lra].
Qed.

Lemma nlp_block_commitment (tk : nlp_toolkit) (text : str) (b : nlp_block) :
  _perform_nlp_analysis tk text = Some b ->
  commitment_strength b = _analyze_commitment_strength text.
Proof.
  unfold _perform_nlp_analysis.
  destruct (nlp_analysis_body tk text) as [b'|e] eqn:H; [|discriminate].
  intros [= ->]. unfold nlp_analysis_body in H.
  repeat (apply bind_ok in H; destruct H as (? & _ & H)).
  now injection H as <-.
Qed.

(** On a negative version-3 result with the numbers of the empty page,
    the NLP part of version 4 decides [false] or raises on the empty
    analysis block. *)
Lemma v4_with_nlp_on_empty (tk : nlp_toolkit) (ev3 : evidence) (q c : Q) :
  sustainability_score ev3 = Some q -> q == 0 ->
  confidence_level ev3 = Some c -> c == 3 # 10 ->
  match v4_with_nlp tk [] (false, ev3) with
  | Ok (has_esg, _) =>
      has_esg = false /\ is_some (_perform_nlp_analysis tk []) = true
  | Raise e =>
      e = KeyError (s "commitment_strength") /\
      _perform_nlp_analysis tk [] = None
  end.
Proof.
  intros Hq Hq0 Hc Hc0. unfold v4_with_nlp. cbv zeta.
  rewrite Hq, Hc. cbn [get_or_zero]. unfold v4_has_esg.
  pose proof (nlp_score_le_2 (_perform_nlp_analysis tk [])) as Hn.
  pose proof (nlp_confidence_le (_perform_nlp_analysis tk [])) as Hnc.
  rewrite Qge_bool_false_of_lt
    by (eapply Qle_lt_trans; [apply Q.le_min_l | lra]).
  rewrite Qge_bool_false_of_lt
    by (eapply Qle_lt_trans; [apply Q.le_min_l | lra]).
  destruct (_perform_nlp_analysis tk []) as [b|] eqn:E; cbn [bind].
  - rewrite (nlp_block_commitment _ _ _ E). split; reflexivity.
  - split; reflexivity.
Qed.

Lemma v3_on_empty_page :
  exists ev q c,
    _detect_esg_content_v3 empty_soup = (false, ev) /\
    sustainability_score ev = Some q /\ q == 0 /\
    confidence_level ev = Some c /\ c == 3 # 10.
Proof.
  do 3 eexists. split; [vm_compute; reflexivity|].
  cbn. repeat split; reflexivity.
Qed.

(** The configured strategy on the empty document: a negative decision,
    or the [KeyError] of version 4 when the NLP analysis faults. *)
Lemma detect_on_empty_page (self : crawler) :
  match _detect_esg_content self empty_soup with
  | Ok (has_esg, _) =>
      has_esg = false /\ nlp_faults_on_empty_text self = false
  | Raise e =>
      e = KeyError (s "commitment_strength") /\
      nlp_faults_on_empty_text self = true
  end.
Proof.
  unfold _detect_esg_content, nlp_faults_on_empty_text.
  destruct (str_eqb (version self) (s "4.0")); cbn [andb].
  - rewrite v4_unfold. destruct (nlp_available self); cbn [negb andb].
    + destruct v3_on_empty_page as (ev & q & c & E & Hq & Hq0 & Hc & Hc0).
      rewrite E. change (get_text empty_soup) with (@nil ascii).
      pose proof (v4_with_nlp_on_empty (nltk self) ev q c Hq Hq0 Hc Hc0) as H.
      destruct (v4_with_nlp (nltk self) [] (false, ev)) as [[b ev4]|e].
      * destruct H as [-> ->]. auto.
      * destruct H as [-> ->]. auto.
    + destruct v3_on_empty_page as (ev & q & c & E & _). rewrite E. auto.
  - destruct (str_eqb (version self) (s "3.0")).
    + destruct v3_on_empty_page as (ev & q & c & E & _). rewrite E. auto.
    + destruct (str_eqb (version self) (s "2.0")).
      * assert (E : fst (_detect_esg_content_v2 empty_soup) = false)
          by (vm_compute; reflexivity).
        destruct (_detect_esg_content_v2 empty_soup). auto.
      * assert (E : fst (_detect_esg_content_v1 empty_soup) = false)
          by (vm_compute; reflexivity).
        destruct (_detect_esg_content_v1 empty_soup). auto.
Qed.

Lemma structure_on_failure (self : crawler) (w : web) (website msg : str) :
  fetch_or_parse_failure w website = Some msg ->
  _analyze_website_structure self w website
  = (inaccessible website None msg, empty_soup).
Proof.
  unfold fetch_or_parse_failure, _analyze_website_structure,
    website_structure_body.
  destruct (_normalize_url website) as [normalized|e]; [|discriminate].
  cbn [bind].
  destruct (http_get w normalized) as [e|status ctype text].
  - now intros [= <-].
  - destruct (status =? 200)%nat; cbn [negb]; [|discriminate].
    destruct text as [content|e]; cbn [bind]; [|now intros [= <-]].
    destruct (html_parser w content) as [sp|e]; [discriminate|].
    cbn [bind]. now intros [= <-].
Qed.

Lemma batch_with_length (task : str -> result ESGReportAnalysisResult)
    (websites : list str) :
  length (batch_with task websites) = length websites.
Proof.
  unfold batch_with.
  now rewrite length_map, length_combine, length_map, Nat.min_id.
Qed.

Lemma batch_with_map (task : str -> result ESGReportAnalysisResult)
    (websites : list str) :
  batch_with task websites =
  map (fun website => match task website with
                      | Raise e => error_result website e
                      | Ok r => r
                      end) websites.
Proof.
  unfold batch_with. induction websites as [|x xs IH]; [reflexivity|].
  cbn [map combine fst snd]. now rewrite IH.
Qed.

(** When the fetch or the parse of a target raises,
    [analyze_company_website] returns a result with [is_accessible = false],
    [has_esg_reports = false] and the message of the captured exception in
    [error_message]: the message of the fetch or parse failure, or, when
    version 4 then faults on the empty document, the message of that
    [KeyError], which the handler of [analyze_company_website] captures.
    [batch_analyze_companies] returns one result per target, in order, the
    result of [analyze_company_website]; a task that ends in an exception
    becomes an error result at its position. *)
Lemma failure_is_isolated (self : crawler) (w : web) (website msg : str)
    (Hfail : fetch_or_parse_failure w website = Some msg) :
  (let r := analyze_company_website self w website in
   is_accessible (website_analysis r) = false /\
   has_esg_reports r = false /\
   error_message (website_analysis r)
   = Some (if nlp_faults_on_empty_text self
           then exn_message (KeyError (s "commitment_strength"))
           else msg)) /\
  (forall websites,
     batch_analyze_companies self w websites
     = map (analyze_company_website self w) websites /\
     length (batch_analyze_companies self w websites) = length websites) /\
  (forall task websites,
     length (batch_with task websites) = length websites /\
     forall i site e,
       nth_error websites i = Some site -> task site = Raise e ->
       nth_error (batch_with task websites) i = Some (error_result site e)).
Proof.
  split; [|split].
  - cbv zeta. rewrite analyze_unfold, (structure_on_failure self _ _ _ Hfail).
    unfold assemble. pose proof (detect_on_empty_page self) as H.
    destruct (_detect_esg_content self empty_soup) as [[b ev]|e];
      cbn [bind].
    + destruct H as [-> ->]. auto.
    + destruct H as [-> ->]. auto.
  - intro websites. unfold batch_analyze_companies.
    rewrite batch_with_length, batch_with_map. auto.
  - intros task websites. split; [apply batch_with_length|].
    intros i site e Hi He. rewrite batch_with_map.
    rewrite nth_error_map, Hi. cbn [option_map]. now rewrite He.
Qed.

Lemma failure_is_isolated_witness :
  fetch_or_parse_failure unreachable_web (s "example.com")
  = Some (s "Cannot connect to host") /\
  error_message
    (website_analysis
       (analyze_company_website crawler_v3 unreachable_web (s "example.com")))
  = Some (s "Cannot connect to host").
Proof.
  assert (H : fetch_or_parse_failure unreachable_web (s "example.com")
              = Some (s "Cannot connect to host")) by reflexivity.
  split; [exact H|].
  exact (proj2 (proj2 (proj1 (failure_is_isolated crawler_v3 unreachable_web
                                (s "example.com") _ H)))).
Defined.

(** C3 at the failing input: version 4 with the NLP libraries imported
    and a sentiment analyzer that raises, on a target whose connection is
    refused.  [_analyze_website_structure] captures the failure and its
    message; the strategy then raises [KeyError] on the empty document,
    and the handler of [analyze_company_website] stores the message of
    that [KeyError] in place of the message of the fetch failure.  The
    result is inaccessible and negative all the same. *)
Theorem fetch_message_replaced_by_key_error :
  let r := analyze_company_website crawler_v4_without_lexicon
             unreachable_web (s "example.com") in
  fetch_or_parse_failure unreachable_web (s "example.com")
  = Some (s "Cannot connect to host") /\
  fst (_analyze_website_structure crawler_v4_without_lexicon
         unreachable_web (s "example.com"))
  = inaccessible (s "example.com") None (s "Cannot connect to host") /\
  error_message (website_analysis r) = Some (s "'commitment_strength'") /\
  is_accessible (website_analysis r) = false /\
  has_esg_reports r = false.
Proof. vm_compute. auto 6. Qed.

(** ** Strings: splitting and character classes *)

Lemma avoids_app (p : ascii -> bool) (a b : str) :
  avoids p (a ++ b) <-> avoids p a /\ avoids p b.
Proof. unfold avoids. rewrite forallb_app. apply andb_true_iff. Qed.

Lemma avoids_chr_in (c : ascii) (u : str) :
  avoids (Ascii.eqb c) u <-> chr_in c u = false.
Proof.
  unfold avoids, chr_in. induction u as [|x u IH]; cbn [forallb existsb].
  - tauto.
  - destruct (Ascii.eqb c x); cbn [negb andb orb]; [split; discriminate|].
    exact IH.
Qed.

Lemma avoids_weaken (p q : ascii -> bool) (u : str) :
  (forall c, p c = false -> q c = false) -> avoids p u -> avoids q u.
Proof.
  unfold avoids. intros Hpq. induction u as [|x u IH]; cbn [forallb];
    [reflexivity|].
  rewrite !andb_true_iff, !negb_true_iff. intros [Hx Hu]. auto.
Qed.

Lemma chr_in_app (c : ascii) (a b : str) :
  chr_in c (a ++ b) = chr_in c a || chr_in c b.
Proof. apply existsb_app. Qed.

Lemma span_until_eq (p : ascii -> bool) (u : str) :
  fst (span_until p u) ++ snd (span_until p u) = u.
Proof.
  induction u as [|c u IH]; cbn [span_until]; [reflexivity|].
  destruct (p c); [reflexivity|].
  destruct (span_until p u) as [a b]. cbn [fst snd app] in *. now rewrite IH.
Qed.

Lemma span_until_fst (p : ascii -> bool) (u : str) :
  avoids p (fst (span_until p u)).
Proof.
  unfold avoids. induction u as [|c u IH]; cbn [span_until]; [reflexivity|].
  destruct (p c) eqn:E; [reflexivity|].
  destruct (span_until p u) as [a b]. cbn [fst forallb] in *.
  now rewrite E, IH.
Qed.

Lemma span_until_snd (p : ascii -> bool) (u : str) :
  match snd (span_until p u) with
  | [] => True
  | c :: _ => p c = true
  end.
Proof.
  induction u as [|c u IH]; cbn [span_until]; [exact I|].
  destruct (p c) eqn:E; [exact E|].
  destruct (span_until p u) as [a b]. exact IH.
Qed.

Lemma span_until_app (p : ascii -> bool) (a b : str) :
  avoids p a ->
  match b with [] => True | c :: _ => p c = true end ->
  span_until p (a ++ b) = (a, b).
Proof.
  unfold avoids. intros Ha Hb. induction a as [|x a IH]; cbn [app].
  - destruct b as [|c b]; cbn [span_until]; [reflexivity|]. now rewrite Hb.
  - cbn [forallb] in Ha. apply andb_true_iff in Ha as [Hx Ha].
    apply negb_true_iff in Hx. cbn [span_until]. rewrite Hx.
    now rewrite (IH Ha).
Qed.

Lemma split_once_absent (c : ascii) (u : str) :
  chr_in c u = false -> split_once c u = (u, []).
Proof.
  intro H. unfold split_once.
  rewrite <- (app_nil_r u) at 1.
  rewrite span_until_app; [reflexivity | now apply avoids_chr_in | exact I].
Qed.

Lemma split_once_app (c : ascii) (a b : str) :
  chr_in c a = false -> split_once c (a ++ c :: b) = (a, b).
Proof.
  intro H. unfold split_once.
  rewrite span_until_app;
    [reflexivity | now apply avoids_chr_in | apply Ascii.eqb_refl].
Qed.

(** The two parts that [split_once] returns, put back together. *)
Lemma split_once_eq (c : ascii) (u : str) :
  u = fst (split_once c u) ++
      (if chr_in c u then c :: snd (split_once c u) else []).
Proof.
  unfold split_once.
  pose proof (span_until_eq (Ascii.eqb c) u) as E.
  pose proof (span_until_fst (Ascii.eqb c) u) as F.
  pose proof (span_until_snd (Ascii.eqb c) u) as S.
  destruct (span_until (Ascii.eqb c) u) as [a b]. cbn [fst snd] in *.
  apply avoids_chr_in in F. rewrite <- E at 2. rewrite chr_in_app, F.
  cbn [orb]. destruct b as [|x b]; cbn [tl chr_in existsb].
  - now rewrite <- E.
  - rewrite S. cbn [orb]. apply Ascii.eqb_eq in S. now subst.
Qed.

Lemma startswith_app (p a b : str) :
  startswith p a = true -> startswith p (a ++ b) = true.
Proof.
  revert a. induction p as [|c p IH]; intros a; [reflexivity|].
  destruct a as [|x a]; cbn [startswith app]; [discriminate|].
  rewrite !andb_true_iff. intros [H1 H2]. auto.
Qed.

Lemma rstrip_prefix (c : ascii) (u : str) :
  exists t, u = rstrip_chr c u ++ t.
Proof.
  induction u as [|x u [t IH]]; cbn [rstrip_chr]; [now exists []|].
  destruct (rstrip_chr c u) as [|y r].
  - destruct (Ascii.eqb x c); [now exists (x :: u)|].
    exists u. reflexivity.
  - exists t. cbn [app] in *. now rewrite <- IH.
Qed.

Lemma rstrip_idempotent (c : ascii) (u : str) :
  rstrip_chr c (rstrip_chr c u) = rstrip_chr c u.
Proof.
  induction u as [|x u IH]; cbn [rstrip_chr]; [reflexivity|].
  destruct (rstrip_chr c u) as [|y r] eqn:E.
  - destruct (Ascii.eqb x c) eqn:Ex; cbn [rstrip_chr]; [reflexivity|].
    now rewrite Ex.
  - change (rstrip_chr c (x :: y :: r))
      with (match rstrip_chr c (y :: r) with
            | [] => if Ascii.eqb x c then [] else [x]
            | r' => x :: r'
            end).
    now rewrite IH.
Qed.

(** The path that [_normalize_url] rebuilds is stable under the same
    operation. *)
Lemma strip_slash_idempotent (pth : str) :
  str_or (rstrip_chr "/" (str_or (rstrip_chr "/" pth) (s "/"))) (s "/")
  = str_or (rstrip_chr "/" pth) (s "/").
Proof.
  destruct (rstrip_chr "/" pth) as [|y r] eqn:E; cbn [str_or];
    [reflexivity|].
  rewrite <- E, rstrip_idempotent, E. reflexivity.
Qed.

(** ** Lower-casing and the characters of a URL *)

(** Case analysis over the 256 characters. *)
Ltac all_chars c :=
  destruct c as [[] [] [] [] [] [] [] []]; vm_compute; reflexivity.

Lemma lower_ascii_idempotent (c : ascii) :
  lower_ascii (lower_ascii c) = lower_ascii c.
Proof. all_chars c. Qed.

Lemma lower_ascii_unsafe (c : ascii) :
  is_unsafe (lower_ascii c) = is_unsafe c.
Proof. all_chars c. Qed.

Lemma lower_ascii_delim (c : ascii) :
  is_netloc_delim (lower_ascii c) = is_netloc_delim c.
Proof. all_chars c. Qed.

Lemma lower_ascii_hash (c : ascii) :
  Ascii.eqb "#" (lower_ascii c) = Ascii.eqb "#" c.
Proof. all_chars c. Qed.

Lemma lower_ascii_open (c : ascii) :
  Ascii.eqb "[" (lower_ascii c) = Ascii.eqb "[" c.
Proof. all_chars c. Qed.

Lemma lower_ascii_close (c : ascii) :
  Ascii.eqb "]" (lower_ascii c) = Ascii.eqb "]" c.
Proof. all_chars c. Qed.

Lemma delim_not_hash (c : ascii) :
  is_netloc_delim c = false -> Ascii.eqb "#" c = false.
Proof. destruct c as [[] [] [] [] [] [] [] []]; vm_compute; congruence. Qed.

Lemma lower_idempotent (u : str) : lower (lower u) = lower u.
Proof.
  unfold lower. rewrite map_map. apply map_ext, lower_ascii_idempotent.
Qed.

Lemma lower_avoids (p : ascii -> bool) (u : str) :
  (forall c, p (lower_ascii c) = p c) -> avoids p u -> avoids p (lower u).
Proof.
  unfold avoids, lower. intros Hp.
  induction u as [|x u IH]; cbn [map forallb]; [reflexivity|].
  rewrite !andb_true_iff, Hp. intros [Hx Hu]. auto.
Qed.

Lemma lower_chr_in (c0 : ascii) (u : str) :
  (forall c, Ascii.eqb c0 (lower_ascii c) = Ascii.eqb c0 c) ->
  chr_in c0 (lower u) = chr_in c0 u.
Proof.
  intro H. unfold chr_in, lower.
  induction u as [|x u IH]; cbn [map existsb]; [reflexivity|].
  now rewrite H, IH.
Qed.

Lemma lower_brackets (nl : str) :
  brackets_mismatch (lower nl) = brackets_mismatch nl.
Proof.
  unfold brackets_mismatch.
  now rewrite !(lower_chr_in "[" nl lower_ascii_open),
              !(lower_chr_in "]" nl lower_ascii_close).
Qed.

Lemma lower_nil (u : str) : lower u = [] -> u = [].
Proof. destruct u; [reflexivity | discriminate]. Qed.

Lemma remove_unsafe_avoids (u : str) : avoids is_unsafe (remove_unsafe u).
Proof. unfold avoids, remove_unsafe. apply forallb_filter. Qed.

Lemma remove_unsafe_id (u : str) : avoids is_unsafe u -> remove_unsafe u = u.
Proof. unfold avoids, remove_unsafe. apply forallb_filter_id. Qed.

(** ** Link extraction (C8) *)

Lemma str_eqb_eq (a b : str) : str_eqb a b = true <-> a = b.
Proof.
  unfold str_eqb. destruct (list_eq_dec ascii_dec a b); split; congruence.
Qed.

Lemma startswith_cons (c : ascii) (p u : str) :
  startswith (c :: p) u = true -> exists r, u = c :: r.
Proof.
  destruct u as [|x r]; cbn [startswith]; [discriminate|].
  intro H. apply andb_true_iff in H as [H _].
  apply Ascii.eqb_eq in H. subst. eauto.
Qed.

(** An HTTP or HTTPS URL is none of the skipped targets. *)
Lemma http_prefixed_not_skipped (u : str) :
  http_prefixed u = true -> skipped_href u = false.
Proof.
  unfold http_prefixed. intro H. apply orb_true_iff in H.
  destruct H as [H | H]; apply startswith_cons in H as [r ->];
    reflexivity.
Qed.

Lemma same_domain_netloc (link base : str) :
  _is_same_domain link base = true ->
  exists pl pb, urlparse link = Ok pl /\ urlparse base = Ok pb /\
                lower (netloc pl) = lower (netloc pb).
Proof.
  unfold _is_same_domain.
  destruct (urlparse link) as [pl|]; [|discriminate].
  destruct (urlparse base) as [pb|]; [|discriminate].
  intro H. apply str_eqb_eq in H. eauto.
Qed.

Lemma lower_ascii_at (c : ascii) :
  Ascii.eqb "@" (lower_ascii c) = Ascii.eqb "@" c.
Proof. all_chars c. Qed.

Lemma lower_ascii_colon (c : ascii) :
  Ascii.eqb ":" (lower_ascii c) = Ascii.eqb ":" c.
Proof. all_chars c. Qed.

Lemma span_until_lower (p : ascii -> bool) (u : str) :
  (forall c, p (lower_ascii c) = p c) ->
  span_until p (lower u)
  = (lower (fst (span_until p u)), lower (snd (span_until p u))).
Proof.
  intro Hp. induction u as [|c u IH]; [reflexivity|].
  cbn [lower map span_until]. fold (lower u). rewrite Hp.
  destruct (p c); [reflexivity|]. rewrite IH.
  now destruct (span_until p u).
Qed.

Lemma split_once_lower (c0 : ascii) (u : str) :
  (forall c, Ascii.eqb c0 (lower_ascii c) = Ascii.eqb c0 c) ->
  split_once c0 (lower u)
  = (lower (fst (split_once c0 u)), lower (snd (split_once c0 u))).
Proof.
  intro H. unfold split_once. rewrite (span_until_lower _ u H).
  destruct (span_until (Ascii.eqb c0) u) as [a b]. cbn [fst snd].
  now destruct b.
Qed.

Lemma after_last_lower (c0 : ascii) (u : str) :
  (forall c, Ascii.eqb c0 (lower_ascii c) = Ascii.eqb c0 c) ->
  after_last c0 (lower u) = lower (after_last c0 u).
Proof.
  intro H. unfold after_last, lower at 1. rewrite <- map_rev.
  fold (lower (rev u)). rewrite (span_until_lower _ _ H). cbn [fst].
  unfold lower. now rewrite map_rev.
Qed.

(** Splitting off the host commutes with lower-casing. *)
Lemma host_part_lower (nl : str) : host_part (lower nl) = lower (host_part nl).
Proof.
  unfold host_part. cbv zeta.
  rewrite (after_last_lower "@" nl lower_ascii_at).
  rewrite (lower_chr_in "[" _ lower_ascii_open).
  destruct (chr_in "[" (after_last "@" nl)).
  - rewrite (split_once_lower "[" _ lower_ascii_open). cbn [snd].
    now rewrite (split_once_lower "]" _ lower_ascii_close).
  - now rewrite (split_once_lower ":" _ lower_ascii_colon).
Qed.

Lemma lower_app (a b : str) : lower (a ++ b) = lower a ++ lower b.
Proof. apply map_app. Qed.

Lemma hostname_lower (nl : str) : lower (hostname nl) = lower (host_part nl).
Proof.
  unfold hostname.
  pose proof (span_until_eq (Ascii.eqb "%") (host_part nl)) as E.
  destruct (span_until (Ascii.eqb "%") (host_part nl)) as [h zone].
  cbn [fst snd] in E. now rewrite lower_app, lower_idempotent, <- lower_app, E.
Qed.

(** Network locations that agree up to case have hosts that agree up to
    case. *)
Lemma same_netloc_same_host (n1 n2 : str) :
  lower n1 = lower n2 -> lower (hostname n1) = lower (hostname n2).
Proof.
  intro H. now rewrite !hostname_lower, <- !host_part_lower, H.
Qed.

(** What the loop of [_extract_links] appends. *)
Lemma collect_links_spec (uj : str -> str -> result str) (base : str) :
  forall tags links,
    collect_links uj base tags = Ok links ->
    forall u, In u links ->
      http_prefixed u = true /\ _is_same_domain u base = true /\
      exists tag, In tag tags /\
                  skipped_href (strip (attr_or (s "href") [] tag)) = false /\
                  uj base (strip (attr_or (s "href") [] tag)) = Ok u.
Proof.
  induction tags as [|tag tags IH]; intros links H u Hu.
  - injection H as <-. destruct Hu.
  - cbn [collect_links] in H.
    destruct (skipped_href (strip (attr_or (s "href") [] tag))) eqn:Hskip.
    + destruct (IH _ H _ Hu) as (H1 & H2 & t & Ht & Hs & Hj).
      split; [exact H1|]. split; [exact H2|]. exists t. cbn [In]. auto.
    + apply bind_ok in H as (absolute_url & Hj & H).
      apply bind_ok in H as (rest & Hrest & H). injection H as <-.
      destruct (http_prefixed absolute_url
                && _is_same_domain absolute_url base) eqn:Hkeep.
      * destruct Hu as [<- | Hu].
        -- apply andb_true_iff in Hkeep as [H1 H2].
           split; [exact H1|]. split; [exact H2|].
           exists tag. cbn [In]. auto.
        -- destruct (IH _ Hrest _ Hu) as (H1 & H2 & t & Ht & Hs & Hj').
           split; [exact H1|]. split; [exact H2|]. exists t. cbn [In]. auto.
      * destruct (IH _ Hrest _ Hu) as (H1 & H2 & t & Ht & Hs & Hj').
        split; [exact H1|]. split; [exact H2|]. exists t. cbn [In]. auto.
Qed.

(** C8: the collection returned by the link extractor has no duplicates;
    each of its URLs starts with [http://] or [https://], so it is none of
    the skipped targets (empty, in-page anchor, [javascript:], [mailto:],
    [tel:]); it was resolved from an anchor whose stripped [href] is none of
    them either; and its network location, hence its host, equals that of
    the base URL case-insensitively. *)
Theorem extracted_links_are_clean (uj : str -> str -> result str)
    (sp : soup) (base : str) (links : list str)
    (H : _extract_links uj sp base = Ok links) :
  NoDup links /\
  forall u, In u links ->
    http_prefixed u = true /\
    skipped_href u = false /\
    (exists tag,
       In tag (find_all_links sp) /\
       skipped_href (strip (attr_or (s "href") [] tag)) = false /\
       uj base (strip (attr_or (s "href") [] tag)) = Ok u) /\
    (exists pl pb,
       urlparse u = Ok pl /\ urlparse base = Ok pb /\
       lower (netloc pl) = lower (netloc pb) /\
       lower (hostname (netloc pl)) = lower (hostname (netloc pb))).
Proof.
  unfold _extract_links in H. apply bind_ok in H as (raw & Hraw & H).
  injection H as <-. unfold list_set. split; [apply NoDup_nodup|].
  intros u Hu. apply nodup_In in Hu.
  destruct (collect_links_spec _ _ _ _ Hraw _ Hu) as (H1 & H2 & Htag).
  split; [exact H1|]. split; [now apply http_prefixed_not_skipped|].
  split; [exact Htag|].
  destruct (same_domain_netloc _ _ H2) as (pl & pb & Hl & Hb & Hn).
  exists pl, pb. repeat split; try assumption.
  now apply same_netloc_same_host.
Qed.

Lemma extracted_links_are_clean_witness :
  _extract_links sample_urljoin links_page (s "https://example.com/")
  = Ok [s "https://example.com/reports/sustainability-2023.pdf";
        s "https://EXAMPLE.com/about"; s "https://example.com/about"] /\
  NoDup [s "https://example.com/reports/sustainability-2023.pdf";
         s "https://EXAMPLE.com/about"; s "https://example.com/about"].
Proof.
  assert (H : _extract_links sample_urljoin links_page
                (s "https://example.com/")
              = Ok [s "https://example.com/reports/sustainability-2023.pdf";
                    s "https://EXAMPLE.com/about";
                    s "https://example.com/about"])
    by (vm_compute; reflexivity).
  split; [exact H|].
  exact (proj1 (extracted_links_are_clean sample_urljoin links_page
                  (s "https://example.com/") _ H)).
Defined.

(** ** [urlsplit] on a URL with an HTTP scheme *)

Lemma startswith_eq (p u : str) :
  startswith p u = true -> exists r, u = p ++ r.
Proof.
  revert u. induction p as [|c p IH]; intros u; [now exists u|].
  destruct u as [|x u]; cbn [startswith]; [discriminate|].
  rewrite andb_true_iff. intros [Hc Hp]. apply Ascii.eqb_eq in Hc.
  destruct (IH _ Hp) as [r ->]. subst. now exists r.
Qed.

(** The first statement of [_normalize_url] leaves a URL of one of the two
    schemes. *)
Lemma ensure_scheme_form (url : str) :
  exists sch r, (sch = s "http" \/ sch = s "https") /\
                ensure_scheme url = sch ++ s "://" ++ r.
Proof.
  unfold ensure_scheme.
  destruct (startswith (s "http://") url) eqn:E1; cbn [orb].
  - apply startswith_eq in E1 as [r ->]. exists (s "http"), r. auto.
  - destruct (startswith (s "https://") url) eqn:E2.
    + apply startswith_eq in E2 as [r ->]. exists (s "https"), r. auto.
    + exists (s "https"), url. auto.
Qed.

Lemma remove_unsafe_prefixed (sch r : str) :
  sch = s "http" \/ sch = s "https" ->
  remove_unsafe (sch ++ s "://" ++ r) = sch ++ s "://" ++ remove_unsafe r.
Proof. intros [-> | ->]; reflexivity. Qed.

Lemma split_scheme_prefixed (sch r : str) :
  sch = s "http" \/ sch = s "https" ->
  split_scheme (sch ++ s "://" ++ r) = (sch, s "//" ++ r).
Proof. intros [-> | ->]; reflexivity. Qed.

Lemma urlsplit_prefixed (sch r : str) :
  sch = s "http" \/ sch = s "https" ->
  urlsplit (sch ++ s "://" ++ r) = split_tail sch (remove_unsafe r).
Proof.
  intro H. unfold urlsplit, split_tail.
  rewrite (remove_unsafe_prefixed sch r H), (split_scheme_prefixed _ _ H).
  change (startswith (s "//") (s "//" ++ remove_unsafe r)) with true.
  change (_splitnetloc (s "//" ++ remove_unsafe r))
    with (span_until is_netloc_delim (remove_unsafe r)).
  destruct (span_until is_netloc_delim (remove_unsafe r)) as [nl rest].
  destruct (brackets_mismatch nl); reflexivity.
Qed.

Lemma urlparse_prefixed (sch r : str) :
  sch = s "http" \/ sch = s "https" ->
  urlparse (sch ++ s "://" ++ r) =
  (p <- split_tail sch (remove_unsafe r) ;;
   if str_mem (scheme p) uses_params && chr_in ";" (path p)
   then let '(pth, prm) := _splitparams (path p) in
        Ok {| scheme := scheme p; netloc := netloc p; path := pth;
              params := prm; query := query p; fragment := fragment p |}
   else Ok p).
Proof.
  intro H. unfold urlparse. now rewrite urlsplit_prefixed.
Qed.

Lemma split_once_parts (c : ascii) (u : str) :
  chr_in c (fst (split_once c u)) = false /\
  (u = fst (split_once c u) /\ snd (split_once c u) = [] \/
   u = fst (split_once c u) ++ c :: snd (split_once c u)).
Proof.
  unfold split_once.
  pose proof (span_until_eq (Ascii.eqb c) u) as E.
  pose proof (span_until_fst (Ascii.eqb c) u) as F.
  pose proof (span_until_snd (Ascii.eqb c) u) as S.
  destruct (span_until (Ascii.eqb c) u) as [a b]. cbn [fst snd] in *.
  split; [now apply avoids_chr_in|].
  destruct b as [|x b]; cbn [tl].
  - left. now rewrite app_nil_r in E.
  - right. apply Ascii.eqb_eq in S. now subst.
Qed.

Lemma split_once_avoids (p : ascii -> bool) (c : ascii) (u : str) :
  avoids p u ->
  avoids p (fst (split_once c u)) /\ avoids p (snd (split_once c u)).
Proof.
  intro H. destruct (split_once_parts c u) as [_ [[E1 E2] | E]].
  - rewrite E2, <- E1. split; [exact H | reflexivity].
  - rewrite E in H. apply avoids_app in H as [Ha Hb].
    split; [exact Ha|]. unfold avoids in *. cbn [forallb] in Hb.
    now apply andb_true_iff in Hb as [_ Hb].
Qed.

Lemma netloc_delim_cases (c : ascii) :
  is_netloc_delim c = true -> c = "/"%char \/ c = "?"%char \/ c = "#"%char.
Proof.
  destruct c as [[] [] [] [] [] [] [] []]; vm_compute; intro H;
    try discriminate H; auto.
Qed.

Lemma chr_in_split (c x : ascii) (a b : str) :
  chr_in c (a ++ x :: b) = false -> chr_in c a = false /\ chr_in c b = false.
Proof.
  rewrite chr_in_app. cbn [chr_in existsb]. intro H.
  apply orb_false_iff in H as [Ha H]. apply orb_false_iff in H as [_ Hb].
  auto.
Qed.

Lemma avoids_split (p : ascii -> bool) (x : ascii) (a b : str) :
  avoids p (a ++ x :: b) -> avoids p a /\ avoids p b.
Proof.
  intro H. apply avoids_app in H as [Ha Hb]. split; [exact Ha|].
  unfold avoids in *. cbn [forallb] in Hb.
  now apply andb_true_iff in Hb as [_ Hb].
Qed.

Lemma split_tail_wf (sch r : str) (p : ParseResult) :
  sch = s "http" \/ sch = s "https" ->
  avoids is_unsafe r ->
  split_tail sch r = Ok p ->
  wf_parts p /\ params p = [].
Proof.
  intros Hsch Hr. unfold split_tail.
  pose proof (span_until_eq is_netloc_delim r) as E.
  pose proof (span_until_fst is_netloc_delim r) as F.
  pose proof (span_until_snd is_netloc_delim r) as S.
  destruct (span_until is_netloc_delim r) as [nl rest]. cbn [fst snd] in *.
  destruct (brackets_mismatch nl) eqn:B; [discriminate|].
  rewrite <- E in Hr. apply avoids_app in Hr as [Hnl Hrest].
  pose proof (split_once_parts "#" rest) as [H1 H1'].
  pose proof (split_once_avoids is_unsafe "#" rest Hrest) as [U1 U1'].
  destruct (split_once "#" rest) as [url1 frag]. cbn [fst snd] in *.
  pose proof (split_once_parts "?" url1) as [H2 H2'].
  pose proof (split_once_avoids is_unsafe "?" url1 U1) as [U2 U2'].
  destruct (split_once "?" url1) as [pth qry]. cbn [fst snd] in *.
  intros [= <-]. split; [|reflexivity].
  assert (Hh : chr_in "#" pth = false /\ chr_in "#" qry = false).
  { destruct H2' as [[-> ->] | ->]; [auto|]. now apply chr_in_split in H1. }
  constructor; cbn [scheme netloc path params query]; try tauto;
    try reflexivity.
  (* the path is empty or starts with a slash *)
  destruct pth as [|x t]; [now left|]. right. exists t. f_equal.
  assert (Hx : exists t', rest = x :: t').
  { destruct H2' as [[-> _] | ->];
      (destruct H1' as [[-> _] | ->]; cbn [app]; eauto). }
  destruct Hx as [t' ->].
  destruct (netloc_delim_cases _ S) as [-> | [-> | ->]]; [reflexivity| |].
  - simpl in H2. discriminate H2.
  - destruct Hh as [Hh _]. simpl in Hh. discriminate Hh.
Qed.

(** The two parts that [_splitparams] returns. *)
Lemma splitparams_parts (u : str) :
  (fst (_splitparams u) = u /\ snd (_splitparams u) = []) \/
  u = fst (_splitparams u) ++ ";"%char :: snd (_splitparams u).
Proof.
  unfold _splitparams, rsplit_slash.
  pose proof (span_until_eq (Ascii.eqb "/") (rev u)) as E.
  destruct (span_until (Ascii.eqb "/") (rev u)) as [seg before].
  cbn [fst snd] in E.
  assert (Eu : u = rev before ++ rev seg)
    by (rewrite <- rev_app_distr, E; symmetry; apply rev_involutive).
  destruct (chr_in ";" (rev seg)) eqn:C; [|left; auto].
  pose proof (split_once_eq ";" (rev seg)) as P. rewrite C in P.
  destruct (split_once ";" (rev seg)) as [a b]. cbn [fst snd] in *.
  right. rewrite <- app_assoc, <- P. exact Eu.
Qed.

(** The components that [_normalize_url] obtains from [urlparse]. *)
Lemma urlparse_wf (url : str) (p : ParseResult) :
  urlparse (ensure_scheme url) = Ok p -> wf_parts p.
Proof.
  destruct (ensure_scheme_form url) as (sch & r & Hsch & ->).
  rewrite (urlparse_prefixed _ _ Hsch). intro H.
  apply bind_ok in H as (p0 & H0 & H).
  destruct (split_tail_wf _ _ _ Hsch (remove_unsafe_avoids r) H0)
    as [W Hprm].
  destruct (str_mem (scheme p0) uses_params && chr_in ";" (path p0));
    [|now injection H as <-].
  pose proof (splitparams_parts (path p0)) as P.
  destruct (_splitparams (path p0)) as [pth prm]. cbn [fst snd] in P.
  injection H as <-. destruct W.
  destruct P as [[-> ->] | P].
  - constructor; cbn [scheme netloc path params query]; auto;
      reflexivity.
  - rewrite P in wf_path_safe0, wf_path_hash0, wf_path_qmark0.
    apply avoids_split in wf_path_safe0 as [? ?].
    apply chr_in_split in wf_path_hash0 as [? ?].
    apply chr_in_split in wf_path_qmark0 as [? ?].
    constructor; cbn [scheme netloc path params query]; auto.
    destruct pth as [|x t]; [now left|]. right. exists t.
    destruct wf_path_shape0 as [E | [t' E]]; rewrite P in E;
      [discriminate | now injection E as ->].
Qed.

(** ** The output of the normalizer *)

(** The path written by [_normalize_url]. *)
Lemma stripped_chr_in (c : ascii) (pth : str) :
  chr_in c pth = false -> chr_in c (s "/") = false ->
  chr_in c (str_or (rstrip_chr "/" pth) (s "/")) = false.
Proof.
  intros H Hs. destruct (rstrip_prefix "/" pth) as [t E].
  destruct (rstrip_chr "/" pth) as [|y r]; cbn [str_or]; [exact Hs|].
  rewrite E, chr_in_app in H. now apply orb_false_iff in H as [H _].
Qed.

Lemma stripped_avoids (p : ascii -> bool) (pth : str) :
  avoids p pth -> avoids p (s "/") ->
  avoids p (str_or (rstrip_chr "/" pth) (s "/")).
Proof.
  intros H Hs. destruct (rstrip_prefix "/" pth) as [t E].
  destruct (rstrip_chr "/" pth) as [|y r]; cbn [str_or]; [exact Hs|].
  rewrite E in H. now apply avoids_app in H as [H _].
Qed.

Lemma stripped_shape (pth : str) :
  pth = [] \/ (exists t, pth = "/"%char :: t) ->
  exists t, str_or (rstrip_chr "/" pth) (s "/") = "/"%char :: t.
Proof.
  intro H. destruct (rstrip_prefix "/" pth) as [t E].
  destruct (rstrip_chr "/" pth) as [|y r]; cbn [str_or]; [now exists []|].
  exists r. destruct H as [-> | [t' ->]]; [discriminate|].
  now injection E as ->.
Qed.

Lemma stripped_double_slash (pth : str) :
  startswith (s "//") pth = false ->
  startswith (s "//") (str_or (rstrip_chr "/" pth) (s "/")) = false.
Proof.
  intro H. destruct (rstrip_prefix "/" pth) as [t E].
  destruct (rstrip_chr "/" pth) as [|y r]; cbn [str_or]; [reflexivity|].
  destruct (startswith (s "//") (y :: r)) eqn:S; [|reflexivity].
  apply (startswith_app _ _ t) in S. rewrite <- E in S. congruence.
Qed.

Lemma urlunsplit_prefixed (sch nl url qry frag : str) :
  sch = s "http" \/ sch = s "https" ->
  http_prefixed (urlunsplit sch nl url qry frag) = true.
Proof.
  intro Hsch. unfold urlunsplit.
  assert (G : forall body,
             startswith (s "//") body = true ->
             http_prefixed
               (match frag with
                | [] => match qry with
                        | [] => sch ++ s ":" ++ body
                        | _ => (sch ++ s ":" ++ body) ++ s "?" ++ qry
                        end
                | _ => match qry with
                       | [] => sch ++ s ":" ++ body
                       | _ => (sch ++ s ":" ++ body) ++ s "?" ++ qry
                       end ++ s "#" ++ frag
                end) = true).
  { intros body Hb. apply startswith_eq in Hb as [r ->].
    destruct Hsch as [-> | ->]; destruct frag, qry; reflexivity. }
  assert (Hn : sch <> []) by (destruct Hsch as [-> | ->]; discriminate).
  destruct sch as [|c0 sch']; [congruence|].
  destruct nl as [|n nl]; [|apply G; reflexivity].
  destruct (negb (str_eqb (c0 :: sch') []) && str_mem (c0 :: sch') uses_netloc
            && negb (startswith (s "//") url)) eqn:C.
  - apply G. reflexivity.
  - apply G. destruct (startswith (s "//") url); [reflexivity|].
    destruct Hsch as [E | E]; rewrite E in C; discriminate C.
Qed.

Lemma urlunsplit_no_hash (sch nl url qry : str) :
  chr_in "#" sch = false -> chr_in "#" nl = false ->
  chr_in "#" url = false -> chr_in "#" qry = false ->
  chr_in "#" (urlunsplit sch nl url qry []) = false.
Proof.
  intros Hs Hn Hu Hq. unfold urlunsplit.
  assert (Hq' : forall body, chr_in "#" body = false ->
                  chr_in "#" (match qry with
                              | [] => body
                              | _ => body ++ s "?" ++ qry
                              end) = false).
  { intros body Hb. destruct qry; [exact Hb|].
    rewrite !chr_in_app, Hb, Hq. reflexivity. }
  assert (Hs' : forall body, chr_in "#" body = false ->
                  chr_in "#" (match sch with
                              | [] => body
                              | _ => sch ++ s ":" ++ body
                              end) = false).
  { intros body Hb. destruct sch; [exact Hb|].
    rewrite !chr_in_app, Hb, Hs. reflexivity. }
  apply Hq', Hs'.
  destruct nl as [|n nl];
    [destruct (negb (str_eqb sch []) && str_mem sch uses_netloc
               && negb (startswith (s "//") url)); [|exact Hu]|];
    (destruct url as [|c u]; [|destruct (Ascii.eqb c "/")]);
    rewrite ?chr_in_app, ?Hn, ?Hu; reflexivity.
Qed.

(** Whenever the normalizer returns, its output starts with [http://] or
    [https://] and contains no [#]. *)
Lemma normalize_output (url v : str) :
  _normalize_url url = Ok v ->
  http_prefixed v = true /\ chr_in "#" v = false.
Proof.
  unfold _normalize_url. intro H. apply bind_ok in H as (p & Hp & H).
  injection H as <-. destruct (urlparse_wf _ _ Hp). split.
  - unfold urlunparse. cbn [scheme netloc path params query fragment].
    now apply urlunsplit_prefixed.
  - unfold urlunparse. cbn [scheme netloc path params query fragment].
    assert (Hpath : chr_in "#" (str_or (rstrip_chr "/" (path p)) (s "/"))
                    = false)
      by (now apply stripped_chr_in).
    apply urlunsplit_no_hash.
    + destruct wf_scheme0 as [-> | ->]; reflexivity.
    + rewrite (lower_chr_in "#" _ lower_ascii_hash).
      apply avoids_chr_in.
      apply (avoids_weaken is_netloc_delim); [|assumption].
      intros c Hc. now apply delim_not_hash.
    + destruct (params p); [exact Hpath|].
      rewrite !chr_in_app. apply orb_false_iff. split; [exact Hpath|].
      now rewrite wf_params_hash0.
    + exact wf_query_hash0.
Qed.

(** ** Parsing the output of the normalizer again *)

Lemma split_tail_build (sch nl pth t qry : str) :
  avoids is_netloc_delim nl -> brackets_mismatch nl = false ->
  pth = "/"%char :: t ->
  chr_in "#" pth = false -> chr_in "?" pth = false ->
  chr_in "#" qry = false ->
  split_tail sch (nl ++ pth ++ query_suffix qry)
  = Ok {| scheme := sch; netloc := nl; path := pth; params := [];
          query := qry; fragment := [] |}.
Proof.
  intros Hnl Hb Hpth Hh Hq Hqh. unfold split_tail.
  rewrite span_until_app; [|exact Hnl | now rewrite Hpth].
  rewrite Hb.
  assert (Hs : chr_in "#" (pth ++ query_suffix qry) = false).
  { rewrite chr_in_app, Hh. destruct qry; [reflexivity|].
    unfold query_suffix. now rewrite chr_in_app, Hqh. }
  rewrite (split_once_absent _ _ Hs).
  destruct qry as [|q0 qry']; unfold query_suffix.
  - rewrite app_nil_r, (split_once_absent _ _ Hq). reflexivity.
  - change (s "?" ++ q0 :: qry') with ("?"%char :: q0 :: qry').
    rewrite (split_once_app _ _ _ Hq). reflexivity.
Qed.

Lemma urlunsplit_form (sch nl pth t qry : str) :
  sch = s "http" \/ sch = s "https" ->
  pth = "/"%char :: t ->
  nl <> [] \/ startswith (s "//") pth = false ->
  urlunsplit sch nl pth qry []
  = sch ++ s "://" ++ nl ++ pth ++ query_suffix qry.
Proof.
  intros Hsch -> Hhost. unfold urlunsplit, query_suffix.
  destruct nl as [|n nl].
  - destruct Hhost as [Hhost | Hhost]; [congruence|]. rewrite Hhost.
    destruct Hsch as [-> | ->]; destruct qry; cbn; rewrite ?app_nil_r;
      try reflexivity; now rewrite <- ?app_assoc.
  - destruct Hsch as [-> | ->]; destruct qry; cbn; rewrite ?app_nil_r;
      try reflexivity; now rewrite <- ?app_assoc.
Qed.

Lemma ensure_scheme_id (v : str) :
  http_prefixed v = true -> ensure_scheme v = v.
Proof. unfold ensure_scheme, http_prefixed. now intros ->. Qed.

Lemma query_suffix_avoids (p : ascii -> bool) (qry : str) :
  p "?"%char = false -> avoids p qry -> avoids p (query_suffix qry).
Proof.
  intros Hp Hq. destruct qry as [|q0 qry']; [reflexivity|].
  unfold query_suffix. apply avoids_app. split; [|exact Hq].
  unfold avoids. cbn [s list_ascii_of_string forallb]. now rewrite Hp.
Qed.

(** ** The second pass of the normalizer *)

Lemma chr_in_rev (c : ascii) (u : str) : chr_in c (rev u) = chr_in c u.
Proof.
  unfold chr_in. induction u as [|x u IH]; [reflexivity|].
  cbn [rev existsb]. rewrite existsb_app, IH. cbn [existsb].
  rewrite orb_false_r. apply orb_comm.
Qed.

(** What [rsplit_slash] returns: the text up to the last slash, which is
    empty or ends with that slash, and a last segment without a slash. *)
Lemma rsplit_slash_spec (u : str) :
  u = fst (rsplit_slash u) ++ snd (rsplit_slash u) /\
  chr_in "/" (snd (rsplit_slash u)) = false /\
  (fst (rsplit_slash u) = [] \/
   exists b, fst (rsplit_slash u) = b ++ s "/").
Proof.
  unfold rsplit_slash.
  pose proof (span_until_eq (Ascii.eqb "/") (rev u)) as E.
  pose proof (span_until_fst (Ascii.eqb "/") (rev u)) as F.
  pose proof (span_until_snd (Ascii.eqb "/") (rev u)) as S.
  destruct (span_until (Ascii.eqb "/") (rev u)) as [seg before].
  cbn [fst snd] in *. split; [|split].
  - rewrite <- rev_app_distr, E. symmetry. apply rev_involutive.
  - rewrite chr_in_rev. now apply avoids_chr_in.
  - destruct before as [|c before]; [now left|]. right.
    apply Ascii.eqb_eq in S. subst c. exists (rev before). reflexivity.
Qed.

Lemma rsplit_slash_unique (before seg : str) :
  chr_in "/" seg = false ->
  before = [] \/ (exists b, before = b ++ s "/") ->
  rsplit_slash (before ++ seg) = (before, seg).
Proof.
  intros Hseg Hb. unfold rsplit_slash. rewrite rev_app_distr.
  rewrite span_until_app.
  - now rewrite !rev_involutive.
  - apply avoids_chr_in. now rewrite chr_in_rev.
  - destruct Hb as [-> | [b ->]]; [exact I|].
    rewrite rev_app_distr. reflexivity.
Qed.

Lemma rstrip_keeps (c : ascii) (u a : str) :
  a <> [] -> chr_in c a = false -> rstrip_chr c (u ++ a) = u ++ a.
Proof.
  intros Ha Hc.
  assert (G : rstrip_chr c a = a).
  { clear Ha. induction a as [|x r IH]; [reflexivity|].
    cbn [chr_in existsb] in Hc. apply orb_false_iff in Hc as [Hx Hr].
    cbn [rstrip_chr]. rewrite (IH Hr).
    destruct r; [|reflexivity].
    rewrite Ascii.eqb_sym, Hx. reflexivity. }
  induction u as [|y u IH]; [exact G|].
  cbn [app rstrip_chr]. rewrite IH.
  destruct (u ++ a) eqn:E; [|reflexivity].
  apply app_eq_nil in E as [_ E]. congruence.
Qed.

Lemma rstrip_drops (c : ascii) (u : str) :
  rstrip_chr c (u ++ [c]) = rstrip_chr c u.
Proof.
  induction u as [|y u IH]; cbn [app rstrip_chr].
  - now rewrite Ascii.eqb_refl.
  - now rewrite IH.
Qed.

Lemma rstrip_length (c : ascii) (u : str) :
  (length (rstrip_chr c u) <= length u)%nat.
Proof.
  destruct (rstrip_prefix c u) as [t E]. rewrite E at 2.
  rewrite length_app. lia.
Qed.

Lemma stripped_length (u : str) :
  u <> [] ->
  (length (str_or (rstrip_chr "/" u) (s "/")) <= length u)%nat.
Proof.
  intro H. pose proof (rstrip_length "/" u) as L.
  destruct (rstrip_chr "/" u); cbn [str_or]; [|exact L].
  destruct u; [congruence | cbn; lia].
Qed.

(** The path before a slash is written back as it is only when it is the
    slash alone. *)
Lemma stripped_slash_end (b : str) :
  str_or (rstrip_chr "/" (b ++ s "/")) (s "/") = b ++ s "/" <-> b = [].
Proof.
  split; [|intros ->; reflexivity].
  change (s "/") with ["/"%char]. rewrite rstrip_drops.
  pose proof (rstrip_length "/" b) as L.
  destruct (rstrip_chr "/" b) as [|y r]; cbn [str_or].
  - destruct b as [|x b]; [reflexivity|].
    intro E. apply (f_equal (@length ascii)) in E.
    rewrite length_app in E. cbn [length] in E. lia.
  - intro E. apply (f_equal (@length ascii)) in E.
    rewrite length_app in E. cbn [length] in *. lia.
Qed.

Lemma startswith_two_app (p x y : str) (c1 c2 : ascii) :
  length p = 2%nat ->
  startswith p (c1 :: c2 :: x ++ y) = startswith p (c1 :: c2 :: x).
Proof.
  destruct p as [|a [|b [|d p]]]; try discriminate. intros _.
  cbn [startswith]. destruct (Ascii.eqb a c1), (Ascii.eqb b c2); reflexivity.
Qed.

Lemma params_suffix_slash (prm : str) :
  chr_in "/" prm = false -> chr_in "/" (params_suffix prm) = false.
Proof. destruct prm; [reflexivity|]. intro H. cbn in *. exact H. Qed.

Lemma splitparams_unfold (before seg : str) :
  chr_in "/" seg = false ->
  before = [] \/ (exists b, before = b ++ s "/") ->
  _splitparams (before ++ seg)
  = if chr_in ";" seg
    then (before ++ fst (split_once ";" seg), snd (split_once ";" seg))
    else (before ++ seg, []).
Proof.
  intros Hs Hb. unfold _splitparams.
  rewrite (rsplit_slash_unique _ _ Hs Hb).
  destruct (chr_in ";" seg); [|reflexivity].
  now destruct (split_once ";" seg).
Qed.

(** The second pass over the path section that the first pass wrote. *)
Lemma second_pass_written (pth prm : str) :
  (exists t, pth = "/"%char :: t) ->
  str_or (rstrip_chr "/" pth) (s "/") = pth ->
  chr_in "/" prm = false ->
  second_pass (pth ++ params_suffix prm) = pth ++ params_suffix prm <->
  (let '(before, seg) := rsplit_slash pth in
   if chr_in ";" seg
   then let '(a, b) := split_once ";" seg in
        (nonempty b || nonempty prm)
        && (nonempty a || str_eqb before (s "/"))
   else true) = true.
Proof.
  intros [t Ht] Hstable Hprm.
  destruct (rsplit_slash_spec pth) as (E & Hseg & Hb).
  destruct (rsplit_slash pth) as [before seg]. cbn [fst snd] in *.
  assert (Hb' : exists b0, before = b0 ++ s "/").
  { destruct Hb as [-> | Hb]; [|exact Hb]. cbn [app] in E. subst seg.
    rewrite Ht in Hseg. discriminate Hseg. }
  assert (Hps : chr_in "/" (seg ++ params_suffix prm) = false)
    by (now rewrite chr_in_app, Hseg, params_suffix_slash).
  assert (Hw : pth ++ params_suffix prm
               = before ++ (seg ++ params_suffix prm))
    by (now rewrite app_assoc, <- E).
  unfold second_pass.
  destruct (chr_in ";" seg) eqn:Cs.
  - (* a semicolon in the last segment *)
    pose proof (split_once_eq ";" seg) as Es. rewrite Cs in Es.
    destruct (split_once_parts ";" seg) as [Ha _].
    destruct (split_once ";" seg) as [a b]. cbn [fst snd] in *.
    assert (Ha' : chr_in "/" a = false).
    { rewrite Es, chr_in_app in Hseg.
      now apply orb_false_iff in Hseg as [Hseg _]. }
    assert (C2 : chr_in ";" (pth ++ params_suffix prm) = true).
    { rewrite E, Es, !chr_in_app.
      replace (chr_in ";" (";"%char :: b)) with true by reflexivity.
      now rewrite !orb_true_r. }
    rewrite C2, Hw, (splitparams_unfold _ _ Hps (or_intror Hb')).
    assert (C3 : chr_in ";" (seg ++ params_suffix prm) = true)
      by (now rewrite chr_in_app, Cs).
    rewrite C3.
    assert (S2 : split_once ";" (seg ++ params_suffix prm)
                 = (a, b ++ params_suffix prm)).
    { rewrite Es, <- app_assoc. cbn [app]. now apply split_once_app. }
    rewrite S2. cbn [fst snd].
    assert (Hw2 : before ++ seg ++ params_suffix prm
                  = (before ++ a) ++ s ";" ++ (b ++ params_suffix prm)).
    { rewrite Es, <- !app_assoc. reflexivity. }
    rewrite Hw2.
    destruct (b ++ params_suffix prm) as [|c0 prm2] eqn:P2.
    + (* nothing is left of the parameters *)
      apply app_eq_nil in P2 as [-> P2].
      assert (prm = []) as -> by (destruct prm; [reflexivity|discriminate]).
      cbn [nonempty orb andb params_suffix]. rewrite !app_nil_r.
      split; [|discriminate]. intro H. exfalso.
      apply (f_equal (@length ascii)) in H.
      assert (Hne : before ++ a <> []).
      { destruct Hb' as [b0 ->]. destruct b0; discriminate. }
      pose proof (stripped_length _ Hne) as L.
      rewrite length_app in H. change (length (s ";")) with 1%nat in H. lia.
    + assert (Hn : nonempty b || nonempty prm = true).
      { destruct b; [|reflexivity]. destruct prm; [discriminate|reflexivity]. }
      rewrite Hn. cbn [andb].
      change (params_suffix (c0 :: prm2)) with (s ";" ++ c0 :: prm2).
      split.
      * intro H. apply app_inv_tail in H.
        destruct a as [|x a]; [|reflexivity]. cbn [nonempty orb].
        rewrite app_nil_r in H. destruct Hb' as [b0 ->].
        apply stripped_slash_end in H. subst b0. reflexivity.
      * intro H. f_equal.
        destruct a as [|x a].
        -- cbn [nonempty orb] in H. apply str_eqb_eq in H. subst before.
           reflexivity.
        -- rewrite rstrip_keeps; [|discriminate | exact Ha'].
           destruct before; reflexivity.
  - (* no semicolon in the last segment *)
    split; [reflexivity | intros _].
    destruct prm as [|c0 prm'].
    + cbn [params_suffix]. rewrite app_nil_r.
      assert (Sp : (if chr_in ";" pth then _splitparams pth else (pth, []))
                   = (pth, [])).
      { destruct (chr_in ";" pth); [|reflexivity].
        rewrite E at 1. rewrite (splitparams_unfold _ _ Hseg (or_intror Hb')).
        now rewrite Cs, <- E. }
      rewrite Sp. cbn [params_suffix]. now rewrite app_nil_r.
    + assert (C2 : chr_in ";" (pth ++ params_suffix (c0 :: prm')) = true).
      { rewrite chr_in_app. cbn. now rewrite orb_true_r. }
      rewrite C2, Hw, (splitparams_unfold _ _ Hps (or_intror Hb')).
      assert (C3 : chr_in ";" (seg ++ params_suffix (c0 :: prm')) = true).
      { rewrite chr_in_app. cbn. now rewrite orb_true_r. }
      rewrite C3.
      change (params_suffix (c0 :: prm')) with (";"%char :: c0 :: prm').
      rewrite (split_once_app ";" seg (c0 :: prm') Cs). cbn [fst snd].
      rewrite <- E, Hstable, E, <- app_assoc. reflexivity.
Qed.

(** The parameters that [urlparse] splits off lie in the last segment of
    the path. *)
Lemma urlparse_params (url : str) (p : ParseResult) :
  urlparse (ensure_scheme url) = Ok p ->
  chr_in "/" (params p) = false /\ chr_in "?" (params p) = false.
Proof.
  destruct (ensure_scheme_form url) as (sch & r & Hsch & ->).
  rewrite (urlparse_prefixed _ _ Hsch). intro H.
  apply bind_ok in H as (p0 & H0 & H).
  destruct (split_tail_wf _ _ _ Hsch (remove_unsafe_avoids r) H0)
    as [W Hprm].
  destruct (str_mem (scheme p0) uses_params && chr_in ";" (path p0));
    [|injection H as <-; now rewrite Hprm].
  unfold _splitparams in H.
  destruct (rsplit_slash_spec (path p0)) as (E & Hseg & _).
  destruct (rsplit_slash (path p0)) as [before seg]. cbn [fst snd] in *.
  destruct (chr_in ";" seg) eqn:C; [|injection H as <-; auto].
  pose proof (split_once_eq ";" seg) as Es. rewrite C in Es.
  destruct (split_once ";" seg) as [a b]. cbn [fst snd] in Es.
  injection H as <-. cbn [params].
  pose proof (wf_path_qmark _ W) as Q. rewrite E, Es, !chr_in_app in Q.
  rewrite Es, chr_in_app in Hseg.
  apply orb_false_iff in Hseg as [_ Hseg].
  apply orb_false_iff in Q as [_ Q]. apply orb_false_iff in Q as [_ Q].
  cbn [chr_in existsb] in Hseg, Q.
  apply orb_false_iff in Hseg as [_ Hseg].
  apply orb_false_iff in Q as [_ Q]. auto.
Qed.

Lemma written_double_slash (x ps : str) :
  (exists t, x = "/"%char :: t) ->
  startswith (s "//") x = false ->
  startswith (s "//") (x ++ params_suffix ps) = false.
Proof.
  intros [t ->] H. destruct t as [|c2 t].
  - destruct ps; reflexivity.
  - cbn [app]. now rewrite startswith_two_app.
Qed.

Lemma startswith_prefix_false (p a b : str) :
  startswith p (a ++ b) = false -> startswith p a = false.
Proof.
  intro H. destruct (startswith p a) eqn:E; [|reflexivity].
  apply (startswith_app _ _ b) in E. congruence.
Qed.

Lemma urlunparse_suffix (sch nl pth prm qry : str) :
  urlunparse {| scheme := sch; netloc := nl; path := pth; params := prm;
                query := qry; fragment := [] |}
  = urlunsplit sch nl (pth ++ params_suffix prm) qry [].
Proof.
  unfold urlunparse. cbn [scheme netloc path params query fragment].
  destruct prm; [now rewrite app_nil_r | reflexivity].
Qed.

(** [urlparse] on a URL as the normalizer writes it. *)
Lemma urlparse_written (sch nl u t qry : str) :
  sch = s "http" \/ sch = s "https" ->
  avoids is_netloc_delim nl -> avoids is_unsafe nl ->
  brackets_mismatch nl = false ->
  u = "/"%char :: t -> avoids is_unsafe u ->
  chr_in "#" u = false -> chr_in "?" u = false ->
  avoids is_unsafe qry -> chr_in "#" qry = false ->
  urlparse (sch ++ s "://" ++ nl ++ u ++ query_suffix qry)
  = Ok {| scheme := sch; netloc := nl;
          path := fst (if chr_in ";" u then _splitparams u else (u, []));
          params := snd (if chr_in ";" u then _splitparams u else (u, []));
          query := qry; fragment := [] |}.
Proof.
  intros Hsch Hd Hs Hb Hu Hus Hh Hq Hqs Hqh.
  assert (Hsafe : avoids is_unsafe (nl ++ u ++ query_suffix qry)).
  { apply avoids_app. split; [exact Hs|]. apply avoids_app. split;
      [exact Hus | now apply query_suffix_avoids]. }
  rewrite (urlparse_prefixed _ _ Hsch), (remove_unsafe_id _ Hsafe).
  rewrite (split_tail_build sch nl u t qry Hd Hb Hu Hh Hq Hqh).
  cbn [bind scheme path netloc query fragment].
  replace (str_mem sch uses_params) with true
    by (destruct Hsch as [-> | ->]; reflexivity).
  cbn [andb]. destruct (chr_in ";" u); [|reflexivity].
  now destruct (_splitparams u).
Qed.

(** The normalizer on a URL as it writes it. *)
Lemma normalize_written (sch nl u t qry : str) :
  sch = s "http" \/ sch = s "https" ->
  avoids is_netloc_delim nl -> avoids is_unsafe nl ->
  brackets_mismatch nl = false -> lower nl = nl ->
  u = "/"%char :: t -> avoids is_unsafe u ->
  chr_in "#" u = false -> chr_in "?" u = false ->
  avoids is_unsafe qry -> chr_in "#" qry = false ->
  nl <> [] \/ startswith (s "//") u = false ->
  _normalize_url (sch ++ s "://" ++ nl ++ u ++ query_suffix qry)
  = Ok (sch ++ s "://" ++ nl ++ second_pass u ++ query_suffix qry).
Proof.
  intros Hsch Hd Hs Hb Hl Hu Hus Hh Hq Hqs Hqh Hhost.
  unfold _normalize_url. rewrite ensure_scheme_id.
  2:{ destruct Hsch as [-> | ->]; reflexivity. }
  rewrite (urlparse_written sch nl u t qry); try assumption.
  cbn [bind scheme netloc path params query].
  rewrite urlunparse_suffix, Hl. f_equal.
  unfold second_pass.
  set (pp := if chr_in ";" u then _splitparams u else (u, [])).
  assert (Hpp : (fst pp = u /\ snd pp = []) \/
                u = fst pp ++ ";"%char :: snd pp).
  { unfold pp. destruct (chr_in ";" u); [apply splitparams_parts|].
    left. split; reflexivity. }
  destruct pp as [pth prm]. cbn [fst snd] in *.
  assert (Hshape : pth = [] \/ exists t', pth = "/"%char :: t').
  { destruct Hpp as [[-> _] | E]; [right; eauto|].
    destruct pth as [|x pth']; [now left|]. right. exists pth'.
    rewrite Hu in E. now injection E as <-. }
  assert (Hpre : exists r, u = pth ++ r).
  { destruct Hpp as [[-> _] | E]; [exists []; now rewrite app_nil_r|].
    eauto. }
  destruct (stripped_shape _ Hshape) as [t2 Ht2].
  assert (Hshape2 : exists t3,
             str_or (rstrip_chr "/" pth) (s "/") ++ params_suffix prm
             = "/"%char :: t3) by (rewrite Ht2; cbn [app]; eauto).
  destruct Hshape2 as [t3 Ht3].
  apply (urlunsplit_form _ _ _ t3); [exact Hsch | exact Ht3 |].
  destruct Hhost as [Hn | Hss]; [now left | right].
  apply written_double_slash; [eauto|].
  apply stripped_double_slash. destruct Hpre as [r Hr].
  rewrite Hr in Hss. now apply startswith_prefix_false in Hss.
Qed.

(** ** When the normalizer raises *)






(** ** The URL normalizer (C6, C7) *)

(** C6, as stated, fails: normalizing [http://h/a;/] gives [http://h/a;],
    and normalizing that gives [http://h/a]. *)
Lemma normalize_not_idempotent :
  (v <- _normalize_url (s "http://h/a;/") ;; _normalize_url v)
  <> _normalize_url (s "http://h/a;/").
Proof. vm_compute. discriminate. Qed.

(** C6, amended: whenever the normalizer returns, its output begins with
    [http://] or [https://] and contains no [#]; and on every input that
    does not combine an empty network location with a path that starts
    with two slashes, normalizing is idempotent exactly when the parsed
    components are [stable_parts]: unless the path, once its trailing
    slashes are stripped, ends in a segment with a [;] in it that has
    either nothing after its first [;] and no parameters beside it, or
    nothing before its first [;] while it is not the first segment. *)
Theorem normalize_idempotent_exactly :
  (forall url v,
     _normalize_url url = Ok v ->
     http_prefixed v = true /\ chr_in "#" v = false) /\
  (forall url p,
     urlparse (ensure_scheme url) = Ok p ->
     netloc p <> [] \/ startswith (s "//") (path p) = false ->
     exists v, _normalize_url url = Ok v /\
               (_normalize_url v = Ok v <-> stable_parts p = true)).
Proof.
  split; [exact normalize_output|].
  intros url p Hp Hhost.
  destruct (urlparse_wf _ _ Hp)
    as [Hsch Hnsafe Hndelim Hnbr Hpsafe Hphash Hpq Hshape Hrsafe Hrhash
        Hqsafe Hqhash].
  destruct (urlparse_params _ _ Hp) as [Hrslash Hrq].
  set (nl := lower (netloc p)).
  set (pth := str_or (rstrip_chr "/" (path p)) (s "/")).
  set (u := pth ++ params_suffix (params p)).
  destruct (stripped_shape _ Hshape) as [t Ht]. fold pth in Ht.
  assert (Hu : u = "/"%char :: t ++ params_suffix (params p))
    by (unfold u; now rewrite Ht).
  assert (Hhost' : nl <> [] \/ startswith (s "//") u = false).
  { destruct Hhost as [Hn | Hs]; [left | right].
    - intro E. apply Hn. now apply lower_nil.
    - apply written_double_slash; [eauto|].
      now apply stripped_double_slash. }
  assert (Hv : _normalize_url url
               = Ok (scheme p ++ s "://" ++ nl ++ u
                     ++ query_suffix (query p))).
  { unfold _normalize_url. rewrite Hp. cbn [bind].
    rewrite urlunparse_suffix. f_equal.
    now apply (urlunsplit_form _ _ _ (t ++ params_suffix (params p))). }
  exists (scheme p ++ s "://" ++ nl ++ u ++ query_suffix (query p)).
  split; [exact Hv|].
  assert (Hps_safe : avoids is_unsafe (params_suffix (params p))).
  { destruct (params p) as [|c r] eqn:Ep; [reflexivity|].
    change (params_suffix (c :: r)) with (";"%char :: c :: r).
    unfold avoids in *. cbn [forallb] in *. exact Hrsafe. }
  assert (Hps_hash : chr_in "#" (params_suffix (params p)) = false).
  { destruct (params p) as [|c r] eqn:Ep; [reflexivity|]. exact Hrhash. }
  assert (Hps_q : chr_in "?" (params_suffix (params p)) = false).
  { destruct (params p) as [|c r] eqn:Ep; [reflexivity|]. exact Hrq. }
  rewrite (normalize_written (scheme p) nl u
             (t ++ params_suffix (params p)) (query p));
    [ | exact Hsch
      | apply lower_avoids; [apply lower_ascii_delim | assumption]
      | apply lower_avoids; [apply lower_ascii_unsafe | assumption]
      | unfold nl; now rewrite lower_brackets
      | apply lower_idempotent
      | exact Hu
      | apply avoids_app; split; [now apply stripped_avoids | exact Hps_safe]
      | unfold u; rewrite chr_in_app, Hps_hash, orb_false_r;
        now apply stripped_chr_in
      | unfold u; rewrite chr_in_app, Hps_q, orb_false_r;
        now apply stripped_chr_in
      | exact Hqsafe | exact Hqhash | exact Hhost' ].
  pose proof (second_pass_written pth (params p) (ex_intro _ t Ht)
                (strip_slash_idempotent _) Hrslash) as SP.
  fold u in SP. unfold stable_parts. fold pth. rewrite <- SP.
  split.
  - intro H. injection H as H. apply app_inv_head in H.
    cbn [s list_ascii_of_string app] in H. injection H as H.
    apply app_inv_head in H. now apply app_inv_tail in H.
  - now intros ->.
Qed.

Lemma normalize_idempotent_exactly_witness :
  exists v,
    _normalize_url (s "Example.COM/a;b/?q=1#team") = Ok v /\
    _normalize_url v = Ok v.
Proof.
  assert (Hp : urlparse (ensure_scheme (s "Example.COM/a;b/?q=1#team"))
               = Ok {| scheme := s "https"; netloc := s "Example.COM";
                       path := s "/a;b/"; params := [];
                       query := s "q=1"; fragment := s "team" |})
    by (vm_compute; reflexivity).
  assert (Hn : netloc {| scheme := s "https"; netloc := s "Example.COM";
                         path := s "/a;b/"; params := [];
                         query := s "q=1"; fragment := s "team" |} <> [])
    by discriminate.
  destruct (proj2 normalize_idempotent_exactly _ _ Hp (or_introl Hn))
    as (v & Hv & Hiff).
  exists v. split; [exact Hv|]. apply Hiff. vm_compute. reflexivity.
Defined.




(** ** Same-domain test and link filter *)

Lemma str_eqb_refl (a : str) : str_eqb a a = true.
Proof. unfold str_eqb. destruct (list_eq_dec ascii_dec a a); congruence. Qed.

Lemma str_eqb_sym (a b : str) : str_eqb a b = str_eqb b a.
Proof.
  unfold str_eqb.
  destruct (list_eq_dec ascii_dec a b), (list_eq_dec ascii_dec b a);
    congruence.
Qed.

(** X1: [_is_same_domain] is symmetric and transitive; a URL is in the
    same domain as itself exactly when [urlparse] accepts it, so the test
    is an equivalence on the URLs that parse and false wherever one of
    its arguments does not. *)
Theorem same_domain_partial_equivalence (a b c : str) :
  _is_same_domain a b = _is_same_domain b a /\
  (_is_same_domain a b = true -> _is_same_domain b c = true ->
   _is_same_domain a c = true) /\
  (_is_same_domain a a = true <-> exists p, urlparse a = Ok p) /\
  (_is_same_domain a b = true -> _is_same_domain a a = true).
Proof.
  unfold _is_same_domain.
  destruct (urlparse a) as [pa|ea], (urlparse b) as [pb|eb],
           (urlparse c) as [pc|ec];
    repeat split; intros;
    try discriminate; try reflexivity; try apply str_eqb_sym;
    try apply str_eqb_refl; try (now eexists);
    try match goal with H : exists _, Raise _ = Ok _ |- _ =>
          destruct H; discriminate end.
  all: try (apply str_eqb_eq in H, H0; apply str_eqb_eq; congruence).
Qed.

(** X2: [_filter_esg_links] keeps exactly the links whose lower-cased
    form contains one of the thirteen fragments of [esg_url_patterns] as
    a substring; it returns no more links than it was given, and
    filtering twice is filtering once. *)
Theorem esg_link_filter_membership (links : list str) (link : str) :
  (In link (_filter_esg_links links) <->
   In link links /\
   exists pattern, In pattern esg_url_patterns /\
                   contains pattern (lower link) = true) /\
  (length (_filter_esg_links links) <= length links)%nat /\
  _filter_esg_links (_filter_esg_links links) = _filter_esg_links links.
Proof.
  unfold _filter_esg_links. split; [|split].
  - rewrite filter_In, is_esg_link_contains, existsb_exists. tauto.
  - apply filter_length_le.
  - induction links as [|x l IH]; cbn [filter]; [reflexivity|].
    destruct (is_esg_link x) eqn:E; cbn [filter]; [rewrite E|];
      now rewrite ?IH.
Qed.

Lemma split_tail_netloc (sch nl rest : str) :
  avoids is_netloc_delim nl -> brackets_mismatch nl = false ->
  match rest with [] => True | c :: _ => is_netloc_delim c = true end ->
  exists p, split_tail sch (nl ++ rest) = Ok p /\ netloc p = nl /\
            scheme p = sch.
Proof.
  intros Hnl Hb Hrest. unfold split_tail.
  rewrite (span_until_app _ _ _ Hnl Hrest), Hb.
  destruct (split_once "#" rest) as [u frag].
  destruct (split_once "?" u) as [u' qry].
  eexists. split; [reflexivity|]. split; reflexivity.
Qed.

Lemma urlparse_netloc (sch nl rest : str) :
  sch = s "http" \/ sch = s "https" ->
  avoids is_netloc_delim nl -> avoids is_unsafe nl ->
  brackets_mismatch nl = false ->
  match rest with [] => True | c :: _ => c = "/"%char end ->
  exists p, urlparse (sch ++ s "://" ++ nl ++ rest) = Ok p /\ netloc p = nl.
Proof.
  intros Hsch Hnl Hsafe Hb Hrest.
  rewrite (urlparse_prefixed _ _ Hsch).
  unfold remove_unsafe. rewrite filter_app.
  change (filter (fun c => negb (is_unsafe c)) nl) with (remove_unsafe nl).
  rewrite (remove_unsafe_id _ Hsafe).
  destruct (split_tail_netloc sch nl
              (filter (fun c => negb (is_unsafe c)) rest) Hnl Hb)
    as (p & Hp & Hn & Hs).
  { destruct rest as [|c rest']; [exact I|]. subst c. reflexivity. }
  rewrite Hp. cbn [bind].
  destruct (str_mem (scheme p) uses_params && chr_in ";" (path p)).
  - destruct (_splitparams (path p)) as [pth prm].
    eexists. split; [reflexivity | exact Hn].
  - eexists. split; [reflexivity | exact Hn].
Qed.

(** The URL that [urlunparse] builds around a network location that is
    not empty. *)
Lemma urlunparse_with_netloc (sch nl pth t prm qry : str) :
  sch = s "http" \/ sch = s "https" -> nl <> [] -> pth = "/"%char :: t ->
  exists rest,
    urlunparse {| scheme := sch; netloc := nl; path := pth; params := prm;
                  query := qry; fragment := [] |}
    = sch ++ s "://" ++ nl ++ "/"%char :: rest.
Proof.
  intros Hsch Hnl ->. unfold urlunparse, urlunsplit.
  cbn [scheme netloc path params query fragment].
  destruct nl as [|n nl]; [congruence|].
  destruct prm as [|c prm]; destruct qry as [|q qry];
    destruct Hsch as [-> | ->]; cbn [app Ascii.eqb];
    eexists; cbn; rewrite <- ?app_assoc; cbn [app]; reflexivity.
Qed.

(** X3: normalization keeps the domain.  When the URL, with [https://]
    put in front where it has no scheme, parses with a network location
    that is not empty, [_normalize_url] returns a URL that parses again,
    whose network location is the lower-cased one of the input, that
    [_is_same_domain] puts in the domain of the input, and that has no
    [#] left: the fragment is gone. *)
Theorem normalized_url_keeps_domain (url : str) (p : ParseResult)
    (Hp : urlparse (ensure_scheme url) = Ok p)
    (Hnl : netloc p <> []) :
  exists v pv,
    _normalize_url url = Ok v /\ urlparse v = Ok pv /\
    netloc pv = lower (netloc p) /\
    _is_same_domain (ensure_scheme url) v = true /\
    chr_in "#" v = false.
Proof.
  destruct (urlparse_wf _ _ Hp)
    as [Hsch Hsafe Hdelim Hbr _ _ _ Hshape _ _ _ _].
  destruct (stripped_shape _ Hshape) as [t Ht].
  assert (Hnl' : lower (netloc p) <> [])
    by (intro E; apply Hnl; now apply lower_nil).
  destruct (urlunparse_with_netloc (scheme p) (lower (netloc p)) _ t
              (params p) (query p) Hsch Hnl' Ht) as [rest Hv].
  destruct (urlparse_netloc (scheme p) (lower (netloc p))
              ("/"%char :: rest) Hsch) as (pv & Hpv & Hn).
  { apply lower_avoids; [apply lower_ascii_delim | assumption]. }
  { apply lower_avoids; [apply lower_ascii_unsafe | assumption]. }
  { now rewrite lower_brackets. }
  { reflexivity. }
  exists (scheme p ++ s "://" ++ lower (netloc p) ++ "/"%char :: rest), pv.
  assert (Hv' : _normalize_url url
                = Ok (scheme p ++ s "://" ++ lower (netloc p)
                      ++ "/"%char :: rest))
    by (unfold _normalize_url; rewrite Hp; cbn [bind]; now rewrite Hv).
  split; [exact Hv'|]. split; [exact Hpv|]. split; [exact Hn|]. split.
  - unfold _is_same_domain. rewrite Hp, Hpv, Hn, lower_idempotent.
    apply str_eqb_refl.
  - exact (proj2 (normalize_output _ _ Hv')).
Qed.

Lemma normalized_url_keeps_domain_witness :
  exists v pv,
    _normalize_url (s "Example.COM/About/;x?q=1#team") = Ok v /\
    urlparse v = Ok pv /\
    netloc pv = s "example.com" /\
    _is_same_domain (s "https://Example.COM/About/;x?q=1#team") v = true /\
    chr_in "#" v = false.
Proof.
  assert (Hp : urlparse (ensure_scheme (s "Example.COM/About/;x?q=1#team"))
               = Ok {| scheme := s "https"; netloc := s "Example.COM";
                       path := s "/About/"; params := s "x";
                       query := s "q=1"; fragment := s "team" |})
    by (vm_compute; reflexivity).
  exact (normalized_url_keeps_domain _ _ Hp ltac:(discriminate)).
Defined.


(** ** One link that [urljoin] rejects *)

Lemma collect_links_raises (uj : str -> str -> result str) (base : str) :
  forall tags,
    (exists e, collect_links uj base tags = Raise e) <->
    exists tag e,
      In tag tags /\
      skipped_href (strip (attr_or (s "href") [] tag)) = false /\
      uj base (strip (attr_or (s "href") [] tag)) = Raise e.
Proof.
  induction tags as [|tag tags IH]; cbn [collect_links].
  - split; [intros [e H]; discriminate | intros (? & ? & [] & _)].
  - destruct (skipped_href (strip (attr_or (s "href") [] tag))) eqn:Es.
    + rewrite IH. split.
      * intros (t & e & Hin & H). exists t, e. cbn [In]. tauto.
      * intros (t & e & [<-|Hin] & Hs & H); [congruence|]. eauto.
    + destruct (uj base (strip (attr_or (s "href") [] tag))) as [u|e] eqn:Eu;
        cbn [bind].
      * destruct (collect_links uj base tags) as [links|e'] eqn:Ec;
          cbn [bind].
        -- split; [intros [e H]; discriminate|].
           intros (t & e & [<-|Hin] & Hs & H); [congruence|].
           assert (X : exists e0, @Ok (list str) links = Raise e0)
             by (apply IH; eauto).
           destruct X as [e0 X]. discriminate X.
        -- split; [|eauto]. intros _.
           assert (X : exists e0, @Raise (list str) e' = Raise e0) by eauto.
           apply IH in X as (t & e & Hin & Hs & H). exists t, e.
           cbn [In]. auto.
      * split; [|eauto]. intros _. exists tag, e. cbn [In]. auto.
Qed.

(** X4: [_extract_links] has no handler around [urljoin]: it raises
    exactly when the page has an anchor whose stripped [href] is not
    skipped (empty, [#...], [javascript:], [mailto:], [tel:]) and is
    rejected by [urljoin]; and then the whole analysis of the site, whose
    page was fetched with status 200 and parsed, is reported as
    inaccessible with the message of that exception, none of the other
    links being kept. *)
Theorem one_rejected_link_fails_the_site (self : crawler) (w : web)
    (url normalized content : str) (ctype : option str) (sp : soup) :
  ((exists e, _extract_links (urljoin w) sp normalized = Raise e) <->
   exists tag e,
     In tag (find_all_links sp) /\
     skipped_href (strip (attr_or (s "href") [] tag)) = false /\
     urljoin w normalized (strip (attr_or (s "href") [] tag)) = Raise e) /\
  (_normalize_url url = Ok normalized ->
   http_get w normalized = Response 200 ctype (Ok content) ->
   html_parser w content = Ok sp ->
   forall e, _extract_links (urljoin w) sp normalized = Raise e ->
   _analyze_website_structure self w url
   = (inaccessible url None (handler_message e), empty_soup)).
Proof.
  split.
  - unfold _extract_links. rewrite <- collect_links_raises.
    destruct (collect_links (urljoin w) normalized (find_all_links sp));
      cbn [bind]; split; intros [e0 H]; try discriminate; eauto.
  - intros Hn Hg Hh e He.
    unfold _analyze_website_structure, website_structure_body.
    rewrite Hn. cbn [bind]. rewrite Hg. cbn [Nat.eqb negb bind].
    rewrite Hh. cbn [bind]. rewrite He. reflexivity.
Qed.

(** ** Content appended to a page *)

Lemma contains_app_l (n a b : str) :
  contains n a = true -> contains n (a ++ b) = true.
Proof.
  induction a as [|x a IH]; cbn [contains app].
  - rewrite orb_false_r. intro H. destruct n; [|discriminate].
    destruct b; reflexivity.
  - rewrite !orb_true_iff. intros [H|H].
    + left. exact (startswith_app n (x :: a) b H).
    + right. auto.
Qed.

Lemma get_text_app (a b : soup) :
  get_text (a ++ b) = get_text a ++ get_text b.
Proof. unfold get_text. now rewrite map_app, concat_app. Qed.

Lemma elements_app (a b : soup) :
  elements (a ++ b) = elements a ++ elements b.
Proof. unfold elements. apply flat_map_app. Qed.

Lemma nav_matches_app (conf : option Q) (a b : soup) :
  nav_matches conf (a ++ b) = nav_matches conf a ++ nav_matches conf b.
Proof.
  unfold nav_matches, find_nav_elements.
  now rewrite elements_app, filter_app, flat_map_app.
Qed.

Lemma find_app_some {A} (f : A -> bool) (a b : list A) (x : A) :
  List.find f a = Some x -> List.find f (a ++ b) = Some x.
Proof.
  induction a as [|y a IH]; cbn [List.find app]; [discriminate|].
  destruct (f y); auto.
Qed.

(** The title that is found first stays the title. *)
Lemma title_matches_app (conf : option Q) (a b : soup) :
  title_matches_of conf a <> [] ->
  title_matches_of conf (a ++ b) = title_matches_of conf a.
Proof.
  unfold title_matches_of, find_tag. rewrite elements_app.
  destruct (List.find _ (elements a)) as [t|] eqn:E; [|congruence].
  intros _. now rewrite (find_app_some _ _ _ _ E).
Qed.

Lemma nonempty_true {A} (l : list A) : nonempty l = true <-> l <> [].
Proof. destruct l; cbn; split; congruence. Qed.

Lemma nonempty_app_l {A} (a b : list A) :
  nonempty a = true -> nonempty (a ++ b) = true.
Proof. destruct a; [discriminate | reflexivity]. Qed.

(** X5: content appended after a page never turns a positive decision of
    version 1 into a negative one: the keywords, the navigation matches
    and the title that decided stay in place. *)
Theorem v1_survives_appended_content (sp more : soup)
    (H : fst (_detect_esg_content_v1 sp) = true) :
  fst (_detect_esg_content_v1 (sp ++ more)) = true.
Proof.
  unfold _detect_esg_content_v1 in *. cbn [fst] in *.
  rewrite !orb_true_iff in *. destruct H as [[H|H]|H].
  - left; left. apply nonempty_true, filter_nonempty_existsb.
    apply nonempty_true, filter_nonempty_existsb, existsb_exists in H.
    destruct H as [k [Hk Hc]]. apply existsb_exists. exists k.
    split; [exact Hk|]. rewrite get_text_app, lower_app.
    now apply contains_app_l.
  - left; right. rewrite nav_matches_app. now apply nonempty_app_l.
  - right. rewrite title_matches_app; [exact H|]. now apply nonempty_true.
Qed.

Lemma v1_survives_appended_content_witness :
  fst (_detect_esg_content_v1 (keyword_page ++ example_page)) = true.
Proof.
  apply (v1_survives_appended_content keyword_page example_page).
  vm_compute. reflexivity.
Defined.

(** ** The keywords and the threshold of version 2 *)

Lemma lower_ascii_not_upper (c : ascii) : is_upper (lower_ascii c) = false.
Proof. all_chars c. Qed.

Lemma startswith_lower_no_upper (p u : str) :
  startswith p (lower u) = true -> existsb is_upper p = false.
Proof.
  revert u. induction p as [|c p IH]; intros u; [reflexivity|].
  destruct u as [|x u]; cbn [lower map startswith existsb]; [discriminate|].
  rewrite andb_true_iff. intros [Hc Hp]. apply Ascii.eqb_eq in Hc. subst c.
  rewrite lower_ascii_not_upper. cbn [orb]. exact (IH u Hp).
Qed.

(** A phrase with a capital letter does not occur in a lower-cased
    text. *)
Lemma contains_lower_no_upper (p u : str) :
  existsb is_upper p = true -> contains p (lower u) = false.
Proof.
  intro Hp. induction u as [|x u IH].
  - cbn. destruct p; [discriminate | reflexivity].
  - change (lower (x :: u)) with (lower_ascii x :: lower u).
    cbn [contains]. rewrite IH, orb_false_r.
    destruct (startswith p (lower_ascii x :: lower u)) eqn:E; [|reflexivity].
    change (lower_ascii x :: lower u) with (lower (x :: u)) in E.
    apply startswith_lower_no_upper in E. congruence.
Qed.

(** X6: the high-impact keyword [ESG strategy] of version 2 is written
    with capital letters and looked up in the lower-cased page text: it is
    never found, on any page, and at most five of the six high-impact
    keywords are ever counted. *)
Theorem v2_mixed_case_keyword_never_matches (sp : soup) :
  (forall m, In m (keywords_found (snd (_detect_esg_content_v2 sp))) ->
             km_keyword m <> s "ESG strategy") /\
  exists q, content_quality_analysis (snd (_detect_esg_content_v2 sp)) = Some q
            /\ (high_impact_keywords q <= 5)%nat.
Proof.
  assert (D : contains (s "ESG strategy") (lower (get_text sp)) = false)
    by (apply contains_lower_no_upper; reflexivity).
  split.
  - intros m Hm. unfold _detect_esg_content_v2 in Hm.
    cbn [snd keywords_found] in Hm. unfold tier_matches in Hm.
    rewrite !in_app_iff, !in_map_iff in Hm.
    destruct Hm as [[k [<- Hk]]|[[k [<- Hk]]|[k [<- Hk]]]];
      apply filter_In in Hk as [Hin Hc]; cbn [km_keyword];
      intros ->; try congruence.
    all: cbv in Hin; intuition discriminate.
  - eexists. split; [reflexivity|]. cbn [high_impact_keywords].
    unfold tier_matches. rewrite length_map.
    unfold high_impact. cbn [map filter]. rewrite D.
    repeat match goal with
           | |- context [if ?b then _ else _] => destruct b
           end; cbn [length]; lia.
Qed.

Lemma Qge_bool_true (a b : Q) : b <= a -> Qge_bool a b = true.
Proof. unfold Qge_bool. apply Qle_bool_iff. Qed.

Lemma Qnat_le (n m : nat) : (n <= m)%nat -> Qnat n <= Qnat m.
Proof. intro H. unfold Qnat. rewrite <- Zle_Qle. lia. Qed.

Lemma Qnat_plus (n m : nat) : Qnat (n + m) == Qnat n + Qnat m.
Proof. unfold Qnat. now rewrite Nat2Z.inj_add, inject_Z_plus. Qed.

Lemma accumulate_value {A} (step : Q) (l : list A) :
  accumulate step l == Qnat (length l) * step.
Proof.
  unfold accumulate.
  assert (G : forall acc,
             fold_left (fun a (_ : A) => a + step) l acc
             == acc + Qnat (length l) * step).
  { induction l as [|x l IH]; intro acc; cbn [fold_left length].
    - change (Qnat 0) with 0. ring.
    - rewrite IH. replace (S (length l)) with (length l + 1)%nat by lia.
      rewrite Qnat_plus. change (Qnat 1) with 1. ring. }
  rewrite G. ring.
Qed.

(** Rounding does not pass a bound that has the digits it keeps. *)
Lemma py_round_le (x : Q) (ndigits : nat) (M : Z) :
  x * inject_Z (10 ^ Z.of_nat ndigits) <= inject_Z M ->
  py_round x ndigits <= inject_Z M / inject_Z (10 ^ Z.of_nat ndigits).
Proof.
  intro H. unfold py_round.
  set (scale := (10 ^ Z.of_nat ndigits)%Z) in *.
  assert (Hs : (0 < scale)%Z) by (apply Z.pow_pos_nonneg; lia).
  assert (HsQ : 0 < inject_Z scale)
    by (change 0 with (inject_Z 0); now rewrite <- Zlt_Qlt).
  assert (Hr : (round_half_even (x * inject_Z scale) <= M)%Z).
  { pose proof (Qfloor_le (x * inject_Z scale)) as Hfl.
    destruct (round_half_even_bounds (Qfloor (x * inject_Z scale)) M
                (x * inject_Z scale) Hfl H) as [_ Hhi]. exact Hhi. }
  apply Qle_shift_div_l; [exact HsQ|].
  unfold Qdiv. rewrite <- Qmult_assoc, (Qmult_comm (/ inject_Z scale)).
  rewrite Qmult_inv_r by lra. rewrite Qmult_1_r. now rewrite <- Zle_Qle.
Qed.

Lemma tier_matches_length (impact : string) (tier : list str) (t : str) :
  (length (tier_matches impact tier t) <= length tier)%nat.
Proof. unfold tier_matches. rewrite length_map. apply filter_length_le. Qed.

(** X7: the decision of version 2 against the number of its matches.
    A page with at least three keyword, navigation and title matches in
    total reaches the confidence threshold of 0.6 and is decided
    positive, whatever its score.  A page that is decided positive has at
    least two matches: one match alone gives a score of at most 1.8 and a
    confidence of 0.4, and the quantitative and the target pattern count
    for the score but are no match. *)
Theorem v2_decision_and_match_count (sp : soup) :
  ((3 <= length (keywords_found (snd (_detect_esg_content_v2 sp)))
         + length (navigation_matches (snd (_detect_esg_content_v2 sp)))
         + length (title_matches (snd (_detect_esg_content_v2 sp))))%nat ->
   fst (_detect_esg_content_v2 sp) = true) /\
  (fst (_detect_esg_content_v2 sp) = true ->
   (2 <= length (keywords_found (snd (_detect_esg_content_v2 sp)))
         + length (navigation_matches (snd (_detect_esg_content_v2 sp)))
         + length (title_matches (snd (_detect_esg_content_v2 sp))))%nat).
Proof.
  unfold _detect_esg_content_v2. cbv zeta.
  cbn [fst snd keywords_found navigation_matches title_matches].
  set (t := lower (get_text sp)).
  set (h := tier_matches "high" high_impact t).
  set (m := tier_matches "medium" medium_impact t).
  set (l := tier_matches "low" low_impact t).
  set (navs := nav_matches (Some (8 # 10)) sp).
  set (titles := title_matches_of (Some (9 # 10)) sp).
  split.
  - intro H. apply orb_true_iff. right. apply Qge_bool_true.
    apply Q.min_glb; [lra|].
    apply Qnat_le in H. change (Qnat 3) with 3 in H.
    lra.
  - rewrite !length_app. intro H.
    destruct (Nat.le_gt_cases 2 (length h + (length m + length l)
                                 + length navs + length titles)) as [G|G];
      [exact G | exfalso].
    assert (Hsum : Qnat (length h) + Qnat (length m) + Qnat (length l)
                   + Qnat (length navs) + Qnat (length titles) <= 1).
    { rewrite <- !Qnat_plus. change 1 with (Qnat 1). apply Qnat_le. lia. }
    pose proof (Qnat_nonneg (length h)). pose proof (Qnat_nonneg (length m)).
    pose proof (Qnat_nonneg (length l)).
    pose proof (Qnat_nonneg (length navs)).
    pose proof (Qnat_nonneg (length titles)).
    pose proof (accumulate_value (1 # 10) navs) as En.
    pose proof (accumulate_value (2 # 10) titles) as Et.
    pose proof (Q.le_min_r (4 # 10) (Qnat (length h) * (1 # 10))).
    pose proof (Q.le_min_r (3 # 10) (Qnat (length m) * (5 # 100))).
    pose proof (Q.le_min_r (1 # 10) (Qnat (length l) * (2 # 100))).
    apply orb_true_iff in H as [H|H]; unfold Qge_bool in H;
      apply Qle_bool_iff in H.
    + match type of H with
      | 2 <= Qmin 10 ?x => pose proof (Q.le_min_r 10 x) as Hx
      end.
      destruct (is_some (re_search false quantitative_pattern t));
        destruct (is_some (re_search false targets_pattern t)); lra.
    + match type of H with
      | _ <= Qmin 1 ?x => pose proof (Q.le_min_r 1 x) as Hx
      end.
      assert (Hd : Qnat (length h + (length m + length l) + length navs
                         + length titles) <= 1)
        by (change 1 with (Qnat 1); apply Qnat_le; lia).
      lra.
Qed.

(** X8: the content quality score that version 2 reports lies between 0
    and 0.91 and never reaches 1: the medium tier has five keywords and the
    low tier three, so their parts stay at 0.25 and 0.06, below the caps of
    0.3 and 0.1 that the code puts on them. *)
Theorem v2_content_quality_ceiling (sp : soup) :
  exists q, content_quality_analysis (snd (_detect_esg_content_v2 sp)) = Some q
            /\ 0 <= content_quality_score q
            /\ content_quality_score q <= 91 # 100
            /\ (medium_impact_keywords q <= 5)%nat
            /\ (low_impact_keywords q <= 3)%nat.
Proof.
  unfold _detect_esg_content_v2. cbv zeta.
  cbn [snd content_quality_analysis].
  eexists. split; [reflexivity|].
  cbn [content_quality_score medium_impact_keywords low_impact_keywords].
  set (t := lower (get_text sp)).
  pose proof (tier_matches_length "medium" medium_impact t) as Hm.
  pose proof (tier_matches_length "low" low_impact t) as Hl.
  change (length medium_impact) with 5%nat in Hm.
  change (length low_impact) with 3%nat in Hl.
  set (h := tier_matches "high" high_impact t) in *.
  set (m := tier_matches "medium" medium_impact t) in *.
  set (l := tier_matches "low" low_impact t) in *.
  pose proof (Qnat_nonneg (length h)). pose proof (Qnat_nonneg (length m)).
  pose proof (Qnat_nonneg (length l)).
  pose proof (Qnat_le _ _ Hm) as Hm'. change (Qnat 5) with 5 in Hm'.
  pose proof (Qnat_le _ _ Hl) as Hl'. change (Qnat 3) with 3 in Hl'.
  pose proof (Q.le_min_l (4 # 10) (Qnat (length h) * (1 # 10))).
  pose proof (Q.le_min_r (3 # 10) (Qnat (length m) * (5 # 100))).
  pose proof (Q.le_min_r (1 # 10) (Qnat (length l) * (2 # 100))).
  assert (0 <= Qmin (4 # 10) (Qnat (length h) * (1 # 10))) by nonneg.
  assert (0 <= Qmin (3 # 10) (Qnat (length m) * (5 # 100))) by nonneg.
  assert (0 <= Qmin (1 # 10) (Qnat (length l) * (2 # 100))) by nonneg.
  split; [|split; [|split; assumption]].
  - match goal with
    | |- 0 <= py_round ?x 3 =>
        destruct (py_round_bounds x 3 1) as [Ha _]; [| |exact Ha]
    end; change (inject_Z 1) with 1;
    destruct (is_some (re_search false quantitative_pattern t));
      destruct (is_some (re_search false targets_pattern t)); lra.
  - apply Qle_trans with (inject_Z 910 / inject_Z (10 ^ Z.of_nat 3));
      [|vm_compute; discriminate].
    apply py_round_le. change (inject_Z (10 ^ Z.of_nat 3)) with 1000.
    change (inject_Z 910) with 910.
    destruct (is_some (re_search false quantitative_pattern t));
      destruct (is_some (re_search false targets_pattern t)); lra.
Qed.

(** ** Decisions and numbers from one version to the next *)

Lemma v4_with_nlp_after_positive (tk : nlp_toolkit) (text : str)
    (ev3 : evidence) :
  match v4_with_nlp tk text (true, ev3) with
  | Ok (has_esg, _) => has_esg = true
  | Raise e =>
      e = KeyError (s "commitment_strength") /\
      _perform_nlp_analysis tk text = None
  end.
Proof.
  unfold v4_with_nlp. cbv zeta. unfold v4_has_esg.
  destruct (Qge_bool _ 3); cbn [bind]; [reflexivity|].
  destruct (Qge_bool _ (75 # 100)); cbn [bind]; [reflexivity|].
  destruct (_perform_nlp_analysis tk text); cbn [bind];
    [apply orb_true_r | auto].
Qed.

(** X9: a positive decision is never overturned by a later version: what
    version 2 decides positive version 3 decides positive, and on a page
    that version 3 decides positive version 4 returns a positive decision
    or does not return at all, raising the [KeyError] of the empty
    analysis block; it never returns a negative one. *)
Theorem verdicts_grow_with_version (sp : soup) (NLP_AVAILABLE : bool)
    (tk : nlp_toolkit) :
  (fst (_detect_esg_content_v2 sp) = true ->
   fst (_detect_esg_content_v3 sp) = true) /\
  (fst (_detect_esg_content_v3 sp) = true ->
   match _detect_esg_content_v4 NLP_AVAILABLE tk sp with
   | Ok (has_esg, _) => has_esg = true
   | Raise e =>
       e = KeyError (s "commitment_strength") /\
       NLP_AVAILABLE = true /\
       _perform_nlp_analysis tk (get_text sp) = None
   end).
Proof.
  split; [apply v2_implies_v3|].
  rewrite v4_unfold.
  destruct (_detect_esg_content_v3 sp) as [b3 ev3]. cbn [fst]. intros ->.
  destruct NLP_AVAILABLE; cbn [negb]; [|reflexivity].
  pose proof (v4_with_nlp_after_positive tk (get_text sp) ev3) as H.
  destruct (v4_with_nlp tk (get_text sp) (true, ev3)) as [[b ev]|e];
    [exact H | tauto].
Qed.

(** The numbers that version 4 adds to a result of version 3. *)
Lemma v4_with_nlp_adds (tk : nlp_toolkit) (text : str) (b3 : bool)
    (ev3 : evidence) (s3 c3 : Q) :
  sustainability_score ev3 = Some s3 -> confidence_level ev3 = Some c3 ->
  s3 <= 10 -> c3 <= 1 ->
  match v4_with_nlp tk text (b3, ev3) with
  | Ok (_, ev4) =>
      s3 <= get_or_zero (sustainability_score ev4) /\
      get_or_zero (sustainability_score ev4) <= s3 + 2 /\
      c3 <= get_or_zero (confidence_level ev4) /\
      get_or_zero (confidence_level ev4) <= c3 + (3 # 10)
  | Raise _ => True
  end.
Proof.
  intros Hs3 Hc3 B2 B4.
  pose proof (nlp_score_nonneg tk text) as Hn.
  pose proof (nlp_confidence_nonneg (_perform_nlp_analysis tk text)) as Hnc.
  pose proof (nlp_score_le_2 (_perform_nlp_analysis tk text)) as Hn2.
  pose proof (nlp_confidence_le (_perform_nlp_analysis tk text)) as Hnc2.
  unfold v4_with_nlp. cbv zeta. rewrite Hs3, Hc3. cbn [get_or_zero].
  destruct (v4_has_esg _ _ _ _); cbn [bind]; [|exact I].
  unfold v4_evidence. cbn [sustainability_score confidence_level get_or_zero].
  repeat split.
  - apply Q.min_glb; lra.
  - eapply Qle_trans; [apply Q.le_min_l|]. lra.
  - apply Q.min_glb; lra.
  - eapply Qle_trans; [apply Q.le_min_l|]. lra.
Qed.

(** The numbers that version 3 adds to a result of version 2. *)
Lemma v3_adds (sp : soup) :
  get_or_zero (sustainability_score (snd (_detect_esg_content_v2 sp)))
  <= get_or_zero (sustainability_score (snd (_detect_esg_content_v3 sp))) /\
  get_or_zero (confidence_level (snd (_detect_esg_content_v2 sp)))
  <= get_or_zero (confidence_level (snd (_detect_esg_content_v3 sp))).
Proof.
  pose proof (v2_in_bounds sp) as (s2 & c2 & Hs2 & Hc2 & A1 & A2 & A3 & A4).
  unfold _detect_esg_content_v3.
  destruct (_detect_esg_content_v2 sp) as [b2 ev2]. cbn [snd] in Hs2, Hc2.
  cbv zeta. cbn [snd sustainability_score confidence_level].
  rewrite Hs2, Hc2. cbn [get_or_zero].
  split.
  - apply Q.min_glb; [|exact A2].
    match goal with |- _ <= _ + ?a + ?b =>
      assert (0 <= a) by nonneg; assert (0 <= b) by nonneg end. lra.
  - apply Q.min_glb; [|exact A4].
    match goal with |- _ <= _ + ?a + ?b =>
      assert (0 <= a) by nonneg; assert (0 <= b) by nonneg end. lra.
Qed.

(** X10: the reported numbers never go down from one version to the next.
    The score and the confidence of version 3 are at least those of
    version 2; when version 4 returns, its score is the score of version
    3 plus at most 2 and its confidence the confidence of version 3 plus
    at most 0.3. *)
Theorem scores_grow_with_version (sp : soup) (NLP_AVAILABLE : bool)
    (tk : nlp_toolkit) :
  let score ev := get_or_zero (sustainability_score ev) in
  let confidence ev := get_or_zero (confidence_level ev) in
  let ev2 := snd (_detect_esg_content_v2 sp) in
  let ev3 := snd (_detect_esg_content_v3 sp) in
  score ev2 <= score ev3 /\
  confidence ev2 <= confidence ev3 /\
  match _detect_esg_content_v4 NLP_AVAILABLE tk sp with
  | Ok (_, ev4) =>
      score ev3 <= score ev4 /\ score ev4 <= score ev3 + 2 /\
      confidence ev3 <= confidence ev4 /\
      confidence ev4 <= confidence ev3 + (3 # 10)
  | Raise _ => True
  end.
Proof.
  cbv zeta.
  destruct (v3_adds sp) as (V1 & V2).
  repeat (split; [assumption|]). clear V1 V2.
  pose proof (v3_in_bounds sp) as (s3 & c3 & Hs3 & Hc3 & B1 & B2 & B3 & B4).
  rewrite v4_unfold.
  destruct (_detect_esg_content_v3 sp) as [b3 ev3]. cbn [snd] in *.
  destruct NLP_AVAILABLE; cbn [negb].
  - pose proof (v4_with_nlp_adds tk (get_text sp) b3 ev3 s3 c3
                  Hs3 Hc3 B2 B4) as H.
    rewrite Hs3, Hc3. cbn [get_or_zero]. exact H.
  - rewrite Hs3, Hc3. cbn [get_or_zero]. repeat split; lra.
Qed.

(** ** Document discovery *)

Lemma Qnat_pos (n : nat) : (0 < n)%nat -> 0 < Qnat n.
Proof.
  intro H. unfold Qnat. change 0 with (inject_Z 0). rewrite <- Zlt_Qlt. lia.
Qed.

(** A share: a count over the size of the whole. *)
Lemma share_range (n m : nat) :
  (n <= m)%nat -> (0 < m)%nat ->
  0 <= Qnat n / Qnat m /\ Qnat n / Qnat m <= 1.
Proof.
  intros Hnm Hm. pose proof (Qnat_pos m Hm) as Hp.
  pose proof (Qnat_le n m Hnm) as Hle. pose proof (Qnat_nonneg n) as H0.
  split.
  - apply Qle_shift_div_l; [exact Hp | lra].
  - apply Qle_shift_div_r; [exact Hp | lra].
Qed.

Lemma share_pos (n m : nat) :
  (0 < n)%nat -> (0 < m)%nat -> 0 < Qnat n / Qnat m.
Proof.
  intros Hn Hm. apply Qlt_shift_div_l; [now apply Qnat_pos|].
  rewrite Qmult_0_l. now apply Qnat_pos.
Qed.

Lemma choose_length {A B} (f : A -> option B) (l : list A) :
  (length (choose f l) <= length l)%nat.
Proof.
  induction l as [|x l IH]; cbn [choose length]; [lia|].
  destruct (f x); cbn [length]; lia.
Qed.

Lemma choose_In {A B} (f : A -> option B) (l : list A) (y : B) :
  In y (choose f l) <-> exists x, In x l /\ f x = Some y.
Proof.
  induction l as [|x l IH]; cbn [choose In].
  - split; [tauto | intros (? & [] & _)].
  - destruct (f x) as [z|] eqn:E; cbn [In]; rewrite IH; split.
    + intros [<-|(x' & Hx & Hf)]; eauto.
    + intros (x' & [<-|Hx] & Hf); [left; congruence | eauto].
    + intros (x' & Hx & Hf); eauto.
    + intros (x' & [<-|Hx] & Hf); [congruence | eauto].
Qed.

(** What [classify_link] returns for a link: a PDF when the lower-cased
    reference contains [.pdf], otherwise an office document when it
    contains one of the office extensions. *)
Lemma classify_link_spec (link : node) (di : doc_info) :
  classify_link link = Some di ->
  doc_url di = lower (attr_or (s "href") [] link) /\
  (doc_type di = s "pdf" /\ contains (s ".pdf") (doc_url di) = true
   \/ doc_type di = s "office_document" /\
      contains (s ".pdf") (doc_url di) = false /\
      existsb (fun ext => contains ext (doc_url di)) doc_extensions = true).
Proof.
  unfold classify_link. cbv zeta.
  destruct (existsb _ pdf_extensions) eqn:Ep.
  - intros [= <-]. cbn [doc_url doc_type mk_doc]. split; [reflexivity|].
    left. split; [reflexivity|].
    unfold pdf_extensions in Ep. cbn [map existsb] in Ep.
    now rewrite orb_false_r in Ep.
  - destruct (existsb _ doc_extensions) eqn:Ed; [|discriminate].
    intros [= <-]. cbn [doc_url doc_type mk_doc]. split; [reflexivity|].
    right. split; [reflexivity|]. split; [|exact Ed].
    unfold pdf_extensions in Ep. cbn [map existsb] in Ep.
    now rewrite orb_false_r in Ep.
Qed.

Lemma two_types_length (docs : list doc_info) :
  (forall di, In di docs ->
              doc_type di = s "pdf" \/ doc_type di = s "office_document") ->
  (length (filter (fun di => str_eqb (doc_type di) (s "pdf")) docs)
   + length (filter (fun di => str_eqb (doc_type di) (s "office_document"))
                    docs)
   = length docs)%nat.
Proof.
  induction docs as [|d docs IH]; intro H; [reflexivity|].
  cbn [filter]. specialize (IH (fun di Hd => H di (or_intror Hd))).
  destruct (H d (or_introl eq_refl)) as [E|E]; rewrite E.
  - change (str_eqb (s "pdf") (s "pdf")) with true.
    change (str_eqb (s "pdf") (s "office_document")) with false.
    cbn [length]. lia.
  - change (str_eqb (s "office_document") (s "pdf")) with false.
    change (str_eqb (s "office_document") (s "office_document")) with true.
    cbn [length]. lia.
Qed.

(** X11: the counts of [_discover_documents] are consistent.  Every
    anchor contributes at most one document, a PDF when its lower-cased
    reference contains [.pdf] and otherwise an office document, so a
    reference with both kinds of extension is a PDF only; the
    sustainability documents are among the documents counted, so they
    never outnumber the total and the sustainability ratio lies in
    [0, 1]; every reported URL is lower-cased. *)
Theorem document_discovery_counts (sp : soup) :
  let d := _discover_documents sp in
  (length (sustainability_documents d) <= total_documents_found d)%nat /\
  (total_documents_found d <= length (find_all_links sp))%nat /\
  0 <= sustainability_ratio d /\ sustainability_ratio d <= 1 /\
  (forall di, In di (sustainability_documents d) ->
     is_sustainability_related di = true /\
     (In di (pdf_documents d) \/ In di (doc_documents d))) /\
  (forall di, In di (pdf_documents d) ->
     contains (s ".pdf") (doc_url di) = true /\
     lower (doc_url di) = doc_url di) /\
  (forall di, In di (doc_documents d) ->
     contains (s ".pdf") (doc_url di) = false /\
     existsb (fun ext => contains ext (doc_url di)) doc_extensions = true /\
     lower (doc_url di) = doc_url di).
Proof.
  cbv zeta. unfold _discover_documents. cbv zeta.
  cbn [sustainability_documents total_documents_found pdf_documents
       doc_documents sustainability_ratio].
  set (docs := choose classify_link (find_all_links sp)).
  assert (Hspec : forall di, In di docs ->
            lower (doc_url di) = doc_url di /\
            (doc_type di = s "pdf" /\ contains (s ".pdf") (doc_url di) = true
             \/ doc_type di = s "office_document" /\
                contains (s ".pdf") (doc_url di) = false /\
                existsb (fun ext => contains ext (doc_url di)) doc_extensions
                = true)).
  { intros di Hd. apply choose_In in Hd as (l & _ & Hl).
    apply classify_link_spec in Hl as [Hu Ht]. split; [|exact Ht].
    rewrite Hu. apply lower_idempotent. }
  assert (Hlen : (length (filter (fun di => str_eqb (doc_type di) (s "pdf"))
                                 docs)
                  + length (filter (fun di => str_eqb (doc_type di)
                                                (s "office_document")) docs)
                  = length docs)%nat).
  { apply two_types_length. intros di Hd.
    destruct (Hspec di Hd) as [_ [[H _]|[H _]]]; auto. }
  rewrite Hlen.
  assert (Hs : (length (filter is_sustainability_related docs)
                <= length docs)%nat) by apply filter_length_le.
  split; [exact Hs|]. split; [apply choose_length|].
  assert (Hr : 0 <= Qnat (length (filter is_sustainability_related docs))
                    / Qnat (Nat.max (length docs) 1) /\
               Qnat (length (filter is_sustainability_related docs))
               / Qnat (Nat.max (length docs) 1) <= 1)
    by (apply share_range; lia).
  split; [apply Hr|]. split; [apply Hr|]. split; [|split].
  - intros di Hd. apply filter_In in Hd as [Hd Hrel]. split; [exact Hrel|].
    destruct (Hspec di Hd) as [_ [[H _]|[H _]]]; [left | right];
      apply filter_In; (split; [exact Hd|]); rewrite H; reflexivity.
  - intros di Hd. apply filter_In in Hd as [Hd Ht].
    destruct (Hspec di Hd) as [Hl [[_ H]|[H _]]]; [auto|].
    rewrite H in Ht. discriminate Ht.
  - intros di Hd. apply filter_In in Hd as [Hd Ht].
    destruct (Hspec di Hd) as [Hl [[H _]|[_ [H1 H2]]]]; [|auto].
    rewrite H in Ht. discriminate Ht.
Qed.

(** X12: the years that [_extract_quantitative_data] reports lie between
    2020 and 2050, and each is listed once; each numerical goal is listed
    once as well. *)
Theorem reported_years_are_relevant (sp : soup) :
  let q := _extract_quantitative_data sp in
  NoDup (years_found q) /\ NoDup (numerical_goals q) /\
  forall year, In year (years_found q) ->
               (2020 <= int_of_digits year <= 2050)%nat.
Proof.
  cbv zeta. unfold _extract_quantitative_data. cbv zeta.
  cbn [years_found numerical_goals]. unfold list_set.
  split; [apply NoDup_nodup|]. split; [apply NoDup_nodup|].
  intros year H. apply nodup_In, filter_In in H as [_ H].
  unfold relevant_year in H. apply andb_true_iff in H as [H1 H2].
  apply Nat.leb_le in H1, H2. lia.
Qed.

(** ** Version 3 on a page without documents and numbers *)

Lemma Qge_bool_false (a b : Q) : Qge_bool a b = false -> a < b.
Proof.
  unfold Qge_bool. intro H. apply Qnot_le_lt. intro Hle.
  apply Qle_bool_iff in Hle. congruence.
Qed.

(** The numbers that version 2 reports with a negative decision. *)
Lemma v2_negative_numbers (sp : soup) :
  fst (_detect_esg_content_v2 sp) = false ->
  exists s2 c2,
    sustainability_score (snd (_detect_esg_content_v2 sp)) = Some s2 /\
    confidence_level (snd (_detect_esg_content_v2 sp)) = Some c2 /\
    s2 <= 2 /\ c2 <= 6 # 10.
Proof.
  unfold _detect_esg_content_v2. cbv zeta.
  cbn [fst snd sustainability_score confidence_level].
  intro H. apply orb_false_iff in H as [Hs Hc].
  apply Qge_bool_false in Hs, Hc.
  eexists; eexists. split; [reflexivity|]. split; [reflexivity|]. split.
  - apply Qle_trans with (inject_Z 200 / inject_Z (10 ^ Z.of_nat 2));
      [|vm_compute; discriminate].
    apply py_round_le. change (inject_Z (10 ^ Z.of_nat 2)) with 100.
    change (inject_Z 200) with 200. lra.
  - apply Qle_trans with (inject_Z 600 / inject_Z (10 ^ Z.of_nat 3));
      [|vm_compute; discriminate].
    apply py_round_le. change (inject_Z (10 ^ Z.of_nat 3)) with 1000.
    change (inject_Z 600) with 600. lra.
Qed.

Lemma no_documents_no_sustainability_documents (sp : soup) :
  total_documents_found (_discover_documents sp) = 0%nat ->
  sustainability_documents (_discover_documents sp) = [].
Proof.
  unfold _discover_documents. cbv zeta.
  cbn [total_documents_found sustainability_documents].
  set (docs := choose classify_link (find_all_links sp)).
  intro H.
  assert (Hlen : (length (filter (fun di => str_eqb (doc_type di) (s "pdf"))
                                 docs)
                  + length (filter (fun di => str_eqb (doc_type di)
                                                (s "office_document")) docs)
                  = length docs)%nat).
  { apply two_types_length. intros di Hd.
    apply choose_In in Hd as (l & _ & Hl).
    apply classify_link_spec in Hl as [_ [[Ht _]|[Ht _]]]; auto. }
  rewrite H in Hlen. destruct docs; [reflexivity | discriminate Hlen].
Qed.

(** The decision and the numbers of version 3 over a result of version 2
    when nothing is added. *)
Lemma v3_without_additions (b2 : bool) (s2 c2 : Q) :
  0 <= s2 -> s2 <= 10 -> 0 <= c2 -> c2 <= 1 ->
  (b2 = false -> s2 <= 2 /\ c2 <= 6 # 10) ->
  Qmin (s2 + 0 + 0) 10 == s2 /\
  Qmin (c2 + Qmin (Qnat 0 * (1 # 10)) (2 # 10)
        + Qmin (Qnat 0 * (5 # 100)) (1 # 10)) 1 == c2 /\
  Qge_bool (Qmin (s2 + 0 + 0) 10) (25 # 10)
  || Qge_bool (Qmin (c2 + Qmin (Qnat 0 * (1 # 10)) (2 # 10)
                     + Qmin (Qnat 0 * (5 # 100)) (1 # 10)) 1) (7 # 10)
  || b2 = b2.
Proof.
  intros A1 A2 A3 A4 Hneg.
  assert (E1 : Qmin (Qnat 0 * (1 # 10)) (2 # 10) == 0) by reflexivity.
  assert (E2 : Qmin (Qnat 0 * (5 # 100)) (1 # 10) == 0) by reflexivity.
  assert (Hs : Qmin (s2 + 0 + 0) 10 == s2)
    by (rewrite Q.min_l; lra).
  assert (Hc : Qmin (c2 + Qmin (Qnat 0 * (1 # 10)) (2 # 10)
                     + Qmin (Qnat 0 * (5 # 100)) (1 # 10)) 1 == c2).
  { rewrite Q.min_l; rewrite E1, E2; lra. }
  split; [exact Hs|]. split; [exact Hc|].
  destruct b2; [apply orb_true_r|]. rewrite orb_false_r.
  destruct (Hneg eq_refl) as [B1 B2].
  rewrite !Qge_bool_false_of_lt; [reflexivity | rewrite Hc; lra
                                  | rewrite Hs; lra].
Qed.

(** X13: version 3 adds to version 2 only through the documents and the
    numbers it finds.  On a page where [_discover_documents] counts no
    document and [_extract_quantitative_data] finds no percentage, no
    target and no numerical goal, version 3 decides as version 2 does and
    reports the score and the confidence of version 2: its own thresholds
    of 2.5 and 0.7 are never reached where those of version 2 are not. *)
Theorem v3_is_v2_without_documents_and_numbers (sp : soup)
    (Hd : total_documents_found (_discover_documents sp) = 0%nat)
    (Hp : percentages_found (_extract_quantitative_data sp) = [])
    (Ht : targets_found (_extract_quantitative_data sp) = [])
    (Hg : numerical_goals (_extract_quantitative_data sp) = []) :
  fst (_detect_esg_content_v3 sp) = fst (_detect_esg_content_v2 sp) /\
  get_or_zero (sustainability_score (snd (_detect_esg_content_v3 sp)))
  == get_or_zero (sustainability_score (snd (_detect_esg_content_v2 sp))) /\
  get_or_zero (confidence_level (snd (_detect_esg_content_v3 sp)))
  == get_or_zero (confidence_level (snd (_detect_esg_content_v2 sp))).
Proof.
  pose proof (no_documents_no_sustainability_documents sp Hd) as Hs.
  pose proof (v2_in_bounds sp) as (s2 & c2 & Hs2 & Hc2 & A1 & A2 & A3 & A4).
  pose proof (v2_negative_numbers sp) as Hneg.
  unfold _detect_esg_content_v3.
  destruct (_detect_esg_content_v2 sp) as [b2 ev2].
  cbn [fst snd] in Hs2, Hc2, Hneg |- *. cbv zeta.
  cbn [fst snd sustainability_score confidence_level].
  rewrite Hd, Hs, Hp, Ht, Hg, Hs2, Hc2.
  cbn [Nat.ltb Nat.leb nonempty length get_or_zero].
  assert (Hneg' : b2 = false -> s2 <= 2 /\ c2 <= 6 # 10).
  { intro E. destruct (Hneg E) as (s & c & Es & Ec & B1 & B2).
    rewrite Hs2 in Es. rewrite Hc2 in Ec.
    injection Es as <-. injection Ec as <-. auto. }
  destruct (v3_without_additions b2 s2 c2 A1 A2 A3 A4 Hneg')
    as (E1 & E2 & E3).
  split; [exact E3|]. split; [exact E1 | exact E2].
Qed.

Lemma v3_is_v2_without_documents_and_numbers_witness :
  fst (_detect_esg_content_v3 plain_page)
  = fst (_detect_esg_content_v2 plain_page).
Proof.
  exact (proj1 (v3_is_v2_without_documents_and_numbers plain_page
                  eq_refl eq_refl eq_refl eq_refl)).
Defined.

(** ** The text measures of version 4 *)

Lemma count_present_le (phrases : list str) (text : str) :
  (count_present phrases text <= length phrases)%nat.
Proof. apply filter_length_le. Qed.

Lemma count_present_pos (phrases : list str) (text : str) :
  (0 < count_present phrases text)%nat <->
  exists p, In p phrases /\ contains p text = true.
Proof.
  unfold count_present. rewrite <- existsb_exists, <- filter_nonempty_existsb.
  destruct (filter _ phrases); cbn [length]; split; try congruence; lia.
Qed.

Lemma count_present_zero (phrases : list str) (text : str) :
  count_present phrases text = 0%nat <->
  forall p, In p phrases -> contains p text = false.
Proof.
  split.
  - intros H p Hp. destruct (contains p text) eqn:C; [|reflexivity].
    assert (0 < count_present phrases text)%nat
      by (apply count_present_pos; eauto). lia.
  - intro H. destruct (count_present phrases text) eqn:E; [reflexivity|].
    assert (P : (0 < count_present phrases text)%nat) by lia.
    apply count_present_pos in P as (p & Hp & C).
    rewrite (H p Hp) in C. discriminate C.
Qed.

(** X14: the commitment strength is 0 exactly on a text with none of the
    eighteen commitment phrases; on a text with one of them it is a
    weighted mean of the weights 1, 0.6 and 0.2, a number between 0.2 and
    1; and it is 1 on a text whose phrases are all strong ones. *)
Theorem commitment_strength_range (text : str) :
  let strong := map s ["commit"; "pledge"; "promise"; "guarantee";
                       "ensure"; "will achieve"] in
  let moderate := map s ["aim"; "target"; "goal"; "strive"; "work towards";
                         "plan to"] in
  let weak := map s ["consider"; "explore"; "may"; "might"; "could";
                     "potentially"] in
  ((forall w, In w (strong ++ moderate ++ weak) ->
              contains w (lower text) = false) ->
   _analyze_commitment_strength text == 0) /\
  ((exists w, In w (strong ++ moderate ++ weak) /\
              contains w (lower text) = true) ->
   (2 # 10) <= _analyze_commitment_strength text /\
   _analyze_commitment_strength text <= 1) /\
  ((exists w, In w strong /\ contains w (lower text) = true) ->
   (forall w, In w (moderate ++ weak) -> contains w (lower text) = false) ->
   _analyze_commitment_strength text == 1).
Proof.
  intros strong moderate weak.
  unfold _analyze_commitment_strength. cbv zeta.
  fold strong moderate weak.
  set (a := count_present strong _). set (b := count_present moderate _).
  set (c := count_present weak _).
  pose proof (Qnat_plus (a + b) c) as E1. pose proof (Qnat_plus a b) as E2.
  pose proof (Qnat_nonneg a) as Na. pose proof (Qnat_nonneg b) as Nb.
  pose proof (Qnat_nonneg c) as Nc.
  split; [|split].
  - intro H.
    assert (a = 0 /\ b = 0 /\ c = 0)%nat as (-> & -> & ->).
    { repeat split; apply count_present_zero; intros w Hw; apply H;
        rewrite !in_app_iff; auto. }
    reflexivity.
  - intros (w & Hw & C).
    assert (P : (0 < a + b + c)%nat).
    { rewrite !in_app_iff in Hw.
      destruct Hw as [Hw | [Hw | Hw]];
        [assert (0 < a)%nat | assert (0 < b)%nat | assert (0 < c)%nat];
        try (apply count_present_pos; eauto); lia. }
    destruct (a + b + c =? 0)%nat eqn:E; [apply Nat.eqb_eq in E; lia|].
    assert (Hp : 0 < Qnat (a + b + c)) by (apply Qnat_pos; lia).
    split; [|apply Q.le_min_r].
    apply Q.min_glb; [|lra].
    apply Qle_shift_div_l; [exact Hp|]. lra.
  - intros (w & Hw & C) H.
    assert (Pa : (0 < a)%nat) by (apply count_present_pos; eauto).
    assert (b = 0 /\ c = 0)%nat as (Eb & Ec).
    { split; apply count_present_zero; intros w' Hw'; apply H;
        rewrite in_app_iff; auto. }
    rewrite Eb, Ec in *. rewrite !Nat.add_0_r in *.
    destruct (a =? 0)%nat eqn:E; [apply Nat.eqb_eq in E; lia|].
    assert (Hp : 0 < Qnat a) by (now apply Qnat_pos).
    change (Qnat 0) with 0.
    assert (Ed : (Qnat a * 1 + 0 * (6 # 10) + 0 * (2 # 10)) / Qnat a == 1).
    { field. lra. }
    rewrite Ed. reflexivity.
Qed.

(** X15: every category score of [_analyze_credibility_indicators] and
    their mean, the overall credibility, lie in [0, 1];
    [has_verification] is set exactly when one of the five verification
    words occurs in the lower-cased text, [has_specific_metrics] exactly
    when one of the six metric words does. *)
Theorem credibility_scores_range (text : str) :
  let cr := _analyze_credibility_indicators text in
  (forall k v, In (k, v) (category_scores cr) -> 0 <= v /\ v <= 1) /\
  0 <= overall_credibility cr /\ overall_credibility cr <= 1 /\
  (has_verification cr = true <->
   exists w, In w (map s ["verified"; "audited"; "certified"; "accredited";
                          "validated"]) /\
             contains w (lower text) = true) /\
  (has_specific_metrics cr = true <->
   exists w, In w (map s ["tons"; "kwh"; "percent"; "%"; "million";
                          "billion"]) /\
             contains w (lower text) = true).
Proof.
  cbv zeta. unfold _analyze_credibility_indicators. cbv zeta.
  cbn [category_scores overall_credibility has_verification
       has_specific_metrics].
  unfold credibility_indicator_lists. cbn [map fst snd].
  set (t := lower text).
  set (l1 := [s "verified"; _; _; _; _]).
  set (l2 := [s "tons"; _; _; _; _; _]).
  set (l3 := [s "2030"; _; _; _; _]).
  set (l4 := [s "gri"; _; _; _; _; _]).
  pose proof (share_range _ _ (count_present_le l1 t)
                (ltac:(cbn; lia) : (0 < length l1)%nat)) as [A1 B1].
  pose proof (share_range _ _ (count_present_le l2 t)
                (ltac:(cbn; lia) : (0 < length l2)%nat)) as [A2 B2].
  pose proof (share_range _ _ (count_present_le l3 t)
                (ltac:(cbn; lia) : (0 < length l3)%nat)) as [A3 B3].
  pose proof (share_range _ _ (count_present_le l4 t)
                (ltac:(cbn; lia) : (0 < length l4)%nat)) as [A4 B4].
  split; [|split; [|split; [|split]]].
  - intros k v [H|[H|[H|[H|[]]]]]; injection H as _ <-; auto.
  - unfold Qsum. cbn [fold_left length].
    apply Qle_shift_div_l; [reflexivity|]. lra.
  - unfold Qsum. cbn [fold_left length].
    apply Qle_shift_div_r; [reflexivity|].
    change (Qnat 4) with 4. lra.
  - cbn [assocQ].
    change (str_eqb (s "third_party_verification")
                    (s "third_party_verification")) with true.
    cbv iota. rewrite <- count_present_pos. split.
    + intro H. apply Qgt_bool_true in H.
      destruct (count_present l1 t) as [|n] eqn:E; [|lia].
      exfalso. revert H. unfold Qdiv. change (Qnat 0) with 0. lra.
    + intro H. unfold Qgt_bool. apply negb_true_iff.
      destruct (Qle_bool _ 0) eqn:E; [|reflexivity].
      apply Qle_bool_iff in E.
      pose proof (share_pos _ (length l1) H ltac:(cbn; lia)). lra.
  - cbn [assocQ].
    change (str_eqb (s "specific_metrics") (s "third_party_verification"))
      with false.
    change (str_eqb (s "specific_metrics") (s "specific_metrics")) with true.
    cbv iota. rewrite <- count_present_pos. split.
    + intro H. apply Qgt_bool_true in H.
      destruct (count_present l2 t) as [|n] eqn:E; [|lia].
      exfalso. revert H. unfold Qdiv. change (Qnat 0) with 0. lra.
    + intro H. unfold Qgt_bool. apply negb_true_iff.
      destruct (Qle_bool _ 0) eqn:E; [|reflexivity].
      apply Qle_bool_iff in E.
      pose proof (share_pos _ (length l2) H ltac:(cbn; lia)). lra.
Qed.

Lemma insert_topic_In (x : topic) (l : list topic) (y : topic) :
  In y (insert_topic x l) <-> y = x \/ In y l.
Proof.
  induction l as [|z l IH]; cbn [insert_topic In]; [intuition|].
  destruct (Qgt_bool _ _); cbn [In]; [rewrite IH|]; intuition.
Qed.

Lemma insert_topic_length (x : topic) (l : list topic) :
  length (insert_topic x l) = S (length l).
Proof.
  induction l as [|z l IH]; cbn [insert_topic length]; [reflexivity|].
  destruct (Qgt_bool _ _); cbn [length]; [now rewrite IH | reflexivity].
Qed.

Lemma insert_topic_sorted (x : topic) (l : list topic) :
  StronglySorted more_relevant l ->
  StronglySorted more_relevant (insert_topic x l).
Proof.
  induction 1 as [|z l Hs IH Hz]; cbn [insert_topic].
  - repeat constructor.
  - destruct (Qgt_bool (relevance_score z) (relevance_score x)) eqn:E.
    + constructor; [exact IH|]. apply Forall_forall. intros y Hy.
      apply insert_topic_In in Hy as [->|Hy].
      * apply Qgt_bool_true in E. unfold more_relevant. lra.
      * rewrite Forall_forall in Hz. auto.
    + apply Qgt_bool_false in E. constructor; [now constructor|].
      constructor; [exact E|]. apply Forall_forall. intros y Hy.
      rewrite Forall_forall in Hz. specialize (Hz y Hy).
      unfold more_relevant in *. lra.
Qed.

Lemma sort_topics_sorted (l : list topic) :
  StronglySorted more_relevant (sort_topics l).
Proof.
  induction l as [|x l IH]; cbn [sort_topics fold_right]; [constructor|].
  now apply insert_topic_sorted.
Qed.

Lemma sort_topics_In (l : list topic) (y : topic) :
  In y (sort_topics l) <-> In y l.
Proof.
  induction l as [|x l IH]; cbn [sort_topics fold_right In]; [tauto|].
  fold (sort_topics l). rewrite insert_topic_In, IH. intuition.
Qed.

Lemma sort_topics_length (l : list topic) :
  length (sort_topics l) = length l.
Proof.
  induction l as [|x l IH]; cbn [sort_topics fold_right length];
    [reflexivity|].
  fold (sort_topics l). now rewrite insert_topic_length, IH.
Qed.

Lemma In_firstn {A} (n : nat) (l : list A) (x : A) :
  In x (firstn n l) -> In x l.
Proof.
  revert n. induction l as [|z l IH]; intros n H.
  - rewrite firstn_nil in H. destruct H.
  - destruct n; cbn [firstn In] in *; [tauto|]. destruct H; eauto.
Qed.

Lemma firstn_sorted {A} (R : A -> A -> Prop) (n : nat) (l : list A) :
  StronglySorted R l -> StronglySorted R (firstn n l).
Proof.
  intro H. revert n. induction H as [|x l Hs IH Hx]; intro n.
  - rewrite firstn_nil. constructor.
  - destruct n; cbn [firstn]; [constructor|].
    constructor; [apply IH|]. rewrite Forall_forall in *.
    intros y Hy. apply Hx. exact (In_firstn _ _ _ Hy).
Qed.

Lemma flat_map_length_le {A B} (f : A -> list B) (l : list A) :
  (forall x, length (f x) <= 1)%nat ->
  (length (flat_map f l) <= length l)%nat.
Proof.
  intro H. induction l as [|x l IH]; cbn [flat_map length]; [lia|].
  rewrite length_app. specialize (H x). lia.
Qed.

(** X16: [_identify_esg_topics] returns the topics in order of
    decreasing relevance; there are at most eight of them, one per entry
    of the topic table with a keyword in the lower-cased text, so the cut
    at ten never removes one; each has at least one keyword match and a
    relevance in (0, 1], the share of its keywords that occur. *)
Theorem esg_topics_ranked (text : str) :
  let found := _identify_esg_topics text in
  StronglySorted more_relevant found /\
  (length found <= 8)%nat /\
  forall t, In t found ->
    (1 <= keyword_matches t)%nat /\
    0 < relevance_score t /\ relevance_score t <= 1 /\
    exists name keywords,
      In (name, keywords) topics /\ tp_topic t = s name /\
      keyword_matches t = count_present keywords (lower text) /\
      relevance_score t = Qnat (keyword_matches t) / Qnat (length keywords).
Proof.
  cbv zeta. unfold _identify_esg_topics. cbv zeta.
  set (identified := flat_map _ topics).
  split; [apply firstn_sorted, sort_topics_sorted|].
  split.
  - rewrite length_firstn, sort_topics_length.
    assert (length identified <= length topics)%nat.
    { apply flat_map_length_le. intros [n k]. cbn [fst snd].
      destruct (0 <? _)%nat; cbn [length]; lia. }
    change (length topics) with 8%nat in H. lia.
  - intros t Ht. apply In_firstn in Ht.
    apply (proj1 (sort_topics_In _ _)) in Ht.
    apply in_flat_map in Ht as ([name keywords] & Hin & Ht).
    cbn [fst snd] in Ht.
    destruct (0 <? count_present keywords (lower text))%nat eqn:E;
      [|destruct Ht].
    destruct Ht as [<-|[]]. cbn [keyword_matches relevance_score tp_topic].
    apply Nat.ltb_lt in E.
    assert (Hk : (0 < length keywords)%nat).
    { pose proof (count_present_le keywords (lower text)). lia. }
    pose proof (share_range _ _ (count_present_le keywords (lower text)) Hk)
      as [_ Hle].
    pose proof (share_pos _ _ E Hk) as Hpos.
    split; [lia|]. split; [exact Hpos|]. split; [exact Hle|].
    exists name, keywords. auto.
Qed.

(** X17: [_extract_forward_looking_statements] returns at most five
    statements; each is a sentence of its input with the surrounding
    white space removed, one that contains an ESG keyword and one of the
    eight forward-looking phrases. *)
Theorem forward_looking_statements_come_from_sentences
    (sentences : list str) :
  let found := _extract_forward_looking_statements sentences in
  (length found <= 5)%nat /\
  forall statement, In statement found ->
    exists sentence,
      In sentence sentences /\ statement = strip sentence /\
      _contains_esg_keywords sentence = true /\
      exists indicator,
        In indicator (map s ["by 2030"; "by 2050"; "will"; "plan to";
                             "target"; "goal"; "future"; "next year"]) /\
        contains indicator (lower sentence) = true.
Proof.
  cbv zeta. unfold _extract_forward_looking_statements. split.
  - rewrite length_firstn. lia.
  - intros st H. apply In_firstn, in_map_iff in H as (sentence & <- & H).
    apply filter_In in H as [Hin H]. apply andb_true_iff in H as [Hi He].
    exists sentence. repeat split; try assumption.
    now apply existsb_exists in Hi.
Qed.

(** X18: the summary of [_summarize_esg_content] has at most 500
    characters and at most five key points, each a sentence of the input
    with the surrounding white space removed; the sentence count is the
    length of the input, and the summary of no sentence is empty. *)
Theorem summary_is_bounded (esg_sentences : list str) :
  let r := _summarize_esg_content esg_sentences in
  (length (summary r) <= 500)%nat /\
  (length (key_points r) <= 5)%nat /\
  sentence_count r = length esg_sentences /\
  (forall point, In point (key_points r) ->
     exists sentence, In sentence esg_sentences /\ point = strip sentence) /\
  (esg_sentences = [] -> summary r = [] /\ key_points r = []).
Proof.
  cbv zeta. unfold _summarize_esg_content.
  destruct esg_sentences as [|x l]; cbn [summary key_points sentence_count].
  - repeat split; try (cbn; lia).
  - split; [rewrite length_firstn; lia|].
    split; [rewrite length_firstn; lia|].
    split; [reflexivity|]. split; [|discriminate].
    intros p Hp. apply In_firstn, in_map_iff in Hp as (sentence & <- & Hs).
    apply filter_In in Hs as [Hs _]. eauto.
Qed.

(** X19: [_analyze_semantic_similarity] always names a dominant concept,
    one of the three of its table, even for a text without any concept
    word: the similarities are never negative, and when they are all zero
    the first concept, [environmental], is the one reported. *)
Theorem dominant_concept_always_reported (words : list str) :
  let r := _analyze_semantic_similarity words in
  (exists c, dominant_concept r = Some c /\
             In c (map s ["environmental"; "social"; "governance"])) /\
  (forall k v, In (k, v) (concept_similarities r) -> 0 <= v) /\
  0 <= overall_esg_alignment r /\
  (overall_esg_alignment r == 0 ->
   dominant_concept r = Some (s "environmental")).
Proof.
  cbv zeta. unfold _analyze_semantic_similarity. cbv zeta.
  cbn [dominant_concept concept_similarities overall_esg_alignment].
  unfold esg_concept_words. cbn [map fst snd].
  set (a := Qnat _ / Qnat _). set (b := Qnat _ / Qnat _).
  set (c := Qnat _ / Qnat _).
  assert (Ha : 0 <= a) by (subst a; nonneg).
  assert (Hb : 0 <= b) by (subst b; nonneg).
  assert (Hc : 0 <= c) by (subst c; nonneg).
  cbn [arg_max]. unfold Qsum. cbn [fold_left length].
  split; [|split; [|split]].
  - destruct (Qgt_bool c b), (Qgt_bool c a), (Qgt_bool b a);
      cbn [option_map fst]; eexists; (split; [reflexivity|]);
      cbn [map In]; auto.
  - intros k v [H|[H|[H|[]]]]; injection H as _ <-; assumption.
  - apply Qle_shift_div_l; [reflexivity|]. lra.
  - intro H0.
    assert (E : 0 + a + b + c == 0).
    { apply (Qmult_inj_r _ _ (/ Qnat 3)); [discriminate|].
      rewrite Qmult_0_l. exact H0. }
    assert (a == 0 /\ b == 0 /\ c == 0) as (Ea & Eb & Ec)
      by (repeat split; lra).
    assert (Hcb : Qgt_bool c b = false).
    { unfold Qgt_bool. apply negb_false_iff, Qle_bool_iff. lra. }
    assert (Hba : Qgt_bool b a = false).
    { unfold Qgt_bool. apply negb_false_iff, Qle_bool_iff. lra. }
    rewrite Hcb, Hba. reflexivity.
Qed.

(** X20: what the analysis block adds in version 4:
    [_calculate_nlp_score] is between 0 and 2 and
    [_calculate_nlp_confidence] between 0 and 0.3 on every result of
    [_perform_nlp_analysis], and both are 0 on the empty dictionary of a
    failed analysis. *)
Theorem nlp_contribution_range (tk : nlp_toolkit) (text : str) :
  let r := _perform_nlp_analysis tk text in
  0 <= _calculate_nlp_score r /\ _calculate_nlp_score r <= 2 /\
  0 <= _calculate_nlp_confidence r /\
  _calculate_nlp_confidence r <= 3 # 10 /\
  (r = None ->
   _calculate_nlp_score r == 0 /\ _calculate_nlp_confidence r == 0).
Proof.
  cbv zeta. split; [apply nlp_score_nonneg|]. split; [apply nlp_score_le_2|].
  split; [apply nlp_confidence_nonneg|]. split; [apply nlp_confidence_le|].
  intros ->. split; reflexivity.
Qed.

(** ** The analysis of a website *)

(** The analysis that [_analyze_website_structure] returns is of one of
    two kinds: inaccessible, with the empty document, or accessible, with
    the parsed page and its counts. *)
Lemma website_structure_cases (self : crawler) (w : web) (url : str) :
  let '(analysis, sp) := _analyze_website_structure self w url in
  (is_accessible analysis = false /\ sp = empty_soup /\
   sustainability_section_found analysis = false /\
   sustainability_links_found analysis = 0%nat /\
   total_links_found analysis = 0%nat /\
   has_navigation analysis = false /\
   (exists msg, error_message analysis = Some msg) /\
   (base_url analysis = url \/ _normalize_url url = Ok (base_url analysis)))
  \/
  (is_accessible analysis = true /\
   status_code analysis = Some 200%nat /\
   error_message analysis = None /\
   sustainability_section_found analysis = true /\
   (sustainability_links_found analysis <= total_links_found analysis)%nat /\
   _normalize_url url = Ok (base_url analysis) /\
   has_navigation analysis = _detect_navigation sp /\
   language analysis = _detect_language sp /\
   exists links,
     _extract_links (urljoin w) sp (base_url analysis) = Ok links /\
     total_links_found analysis = length links /\
     sustainability_links_found analysis = length (_filter_esg_links links)).
Proof.
  unfold _analyze_website_structure, website_structure_body.
  destruct (_normalize_url url) as [normalized|e] eqn:En; cbn [bind].
  2:{ left. cbn. repeat split; eauto. }
  destruct (http_get w normalized) as [e|status ctype text].
  { left. cbn. repeat split; eauto. }
  destruct (status =? 200)%nat eqn:Es; cbn [negb].
  2:{ left. cbn. repeat split; eauto. }
  apply Nat.eqb_eq in Es. subst status.
  destruct text as [content|e]; cbn [bind].
  2:{ left. cbn. repeat split; eauto. }
  destruct (html_parser w content) as [sp|e]; cbn [bind].
  2:{ left. cbn. repeat split; eauto. }
  destruct (_extract_links (urljoin w) sp normalized) as [links|e] eqn:El;
    cbn [bind].
  2:{ left. cbn. repeat split; eauto. }
  destruct (_detect_esg_content self sp) as [d|e]; cbn [bind].
  2:{ left. cbn. repeat split; eauto. }
  right. cbn [is_accessible status_code error_message
              sustainability_section_found sustainability_links_found
              total_links_found base_url has_navigation language orb].
  repeat split; try reflexivity.
  - apply filter_length_le.
  - exists links. auto.
Qed.

(** X21: on every analysis that [_analyze_website_structure] returns,
    [_determine_esg_report_presence] answers whether the site was
    accessible and nothing more: the flag [sustainability_section_found]
    of an accessible site holds the pair returned by the detection
    strategy, which is true as a condition whatever the strategy
    decided. *)
Theorem presence_reduces_to_accessibility (self : crawler) (w : web)
    (url : str) :
  _determine_esg_report_presence (fst (_analyze_website_structure self w url))
  = is_accessible (fst (_analyze_website_structure self w url)).
Proof.
  pose proof (website_structure_cases self w url) as H.
  destruct (_analyze_website_structure self w url) as [a sp]. cbn [fst].
  unfold _determine_esg_report_presence.
  destruct H as [(-> & _)|(-> & _ & _ & -> & _)]; reflexivity.
Qed.

(** X22: [_analyze_website_structure] never reports more ESG links than
    links; an accessible analysis has status 200, no error message and
    the normalized URL as its base; an inaccessible one comes with the
    empty document, an error message, no links and no navigation. *)
Theorem website_structure_invariants (self : crawler) (w : web) (url : str) :
  let analysis := fst (_analyze_website_structure self w url) in
  let sp := snd (_analyze_website_structure self w url) in
  (sustainability_links_found analysis <= total_links_found analysis)%nat /\
  (is_accessible analysis = true ->
   status_code analysis = Some 200%nat /\ error_message analysis = None /\
   _normalize_url url = Ok (base_url analysis)) /\
  (is_accessible analysis = false ->
   sp = empty_soup /\ error_message analysis <> None /\
   total_links_found analysis = 0%nat /\
   has_navigation analysis = false).
Proof.
  cbv zeta. pose proof (website_structure_cases self w url) as H.
  destruct (_analyze_website_structure self w url) as [a sp]. cbn [fst snd].
  destruct H as [(Ha & Hsp & _ & Hl & Ht & Hn & (msg & Hm) & _)
                |(Ha & Hs & He & _ & Hle & Hu & _)].
  - rewrite Ha, Hl, Ht, Hm. repeat split; try discriminate; auto.
  - rewrite Ha. repeat split; try discriminate; auto.
Qed.

Lemma company_website_kept (self : crawler) (w : web) (website : str) :
  company_website (analyze_company_website self w website) = website.
Proof.
  unfold analyze_company_website, analyze_body, assemble.
  destruct (_analyze_website_structure self w website) as [a sp].
  destruct (_detect_esg_content self sp) as [[b ev]|e]; reflexivity.
Qed.

(** X23: [analyze_company_website] reports ESG content only for a site
    that it could fetch and parse: a positive result has an accessible
    website analysis and its evidence, and names the website as it was
    given. *)
Theorem positive_verdict_needs_accessible_site (self : crawler) (w : web)
    (website : str)
    (H : has_esg_reports (analyze_company_website self w website) = true) :
  let r := analyze_company_website self w website in
  is_accessible (website_analysis r) = true /\
  crawling_evidence r <> None /\
  company_website r = website.
Proof.
  cbv zeta. split; [|split; [|apply company_website_kept]].
  - revert H. unfold analyze_company_website, analyze_body, assemble.
    pose proof (website_structure_cases self w website) as Hc.
    destruct (_analyze_website_structure self w website) as [a sp].
    destruct Hc as [(Ha & -> & _)|(Ha & _)].
    + pose proof (detect_on_empty_page self) as He.
      destruct (_detect_esg_content self empty_soup) as [[b ev]|e];
        cbn [bind has_esg_reports error_result]; [|discriminate].
      destruct He as [-> _]. discriminate.
    + destruct (_detect_esg_content self sp) as [[b ev]|e];
        cbn [bind website_analysis error_result has_esg_reports];
        [auto | discriminate].
  - revert H. unfold analyze_company_website, analyze_body, assemble.
    destruct (_analyze_website_structure self w website) as [a sp].
    destruct (_detect_esg_content self sp) as [[b ev]|e];
      cbn [bind crawling_evidence has_esg_reports error_result];
      [discriminate | discriminate].
Qed.

Lemma positive_verdict_needs_accessible_site_witness :
  has_esg_reports
    (analyze_company_website crawler_v3 (static_web report_page)
       (s "example.com")) = true /\
  is_accessible
    (website_analysis
       (analyze_company_website crawler_v3 (static_web report_page)
          (s "example.com"))) = true.
Proof.
  assert (H : has_esg_reports
                (analyze_company_website crawler_v3 (static_web report_page)
                   (s "example.com")) = true)
    by (vm_compute; reflexivity).
  split; [exact H|].
  exact (proj1 (positive_verdict_needs_accessible_site crawler_v3
                  (static_web report_page) (s "example.com") H)).
Defined.

(** X24: [batch_analyze_companies] returns the result of
    [analyze_company_website] for each website, in the order of its
    input: the i-th result names the i-th website. *)
Theorem batch_keeps_order (self : crawler) (w : web) (websites : list str) :
  batch_analyze_companies self w websites
  = map (analyze_company_website self w) websites /\
  map company_website (batch_analyze_companies self w websites) = websites.
Proof.
  assert (E : batch_analyze_companies self w websites
              = map (analyze_company_website self w) websites)
    by (unfold batch_analyze_companies; now rewrite batch_with_map).
  split; [exact E|]. rewrite E, map_map. clear E.
  induction websites as [|x l IH]; cbn [map]; [reflexivity|].
  now rewrite company_website_kept, IH.
Qed.

Lemma detect_language_unfold (sp : soup) :
  _detect_language sp =
  match declared_html_lang sp with
  | _ :: _ => lower (firstn 2 (declared_html_lang sp))
  | [] => match declared_meta_lang sp with
          | _ :: _ => lower (firstn 2 (declared_meta_lang sp))
          | [] => s "en"
          end
  end.
Proof.
  unfold _detect_language, declared_html_lang, declared_meta_lang, attr_or.
  destruct (find_tag (s "html") sp) as [h|].
  - destruct (attr (s "lang") h) as [[|c v]|]; try reflexivity.
    all: destruct (List.find _ (elements sp)) as [m|]; [|reflexivity];
      destruct (attr (s "content") m) as [[|c v]|]; reflexivity.
  - destruct (List.find _ (elements sp)) as [m|]; [|reflexivity].
    destruct (attr (s "content") m) as [[|c v]|]; reflexivity.
Qed.

(** X25: [_detect_language] returns the first two characters, lower-cased,
    of the language that the [html] tag declares; where that is missing
    or empty, those of the language that the first [meta] tag with
    [http-equiv="content-language"] declares; and [en] where both are
    missing or empty.  The result is never empty, and a result of ASCII
    characters has at most two of them and no capital letter. *)
Theorem detected_language_is_declared (sp : soup) :
  (declared_html_lang sp <> [] ->
   _detect_language sp = lower (firstn 2 (declared_html_lang sp))) /\
  (declared_html_lang sp = [] -> declared_meta_lang sp <> [] ->
   _detect_language sp = lower (firstn 2 (declared_meta_lang sp))) /\
  (declared_html_lang sp = [] -> declared_meta_lang sp = [] ->
   _detect_language sp = s "en") /\
  _detect_language sp <> [] /\
  (isascii (_detect_language sp) = true ->
   (length (_detect_language sp) <= 2)%nat /\
   existsb is_upper (_detect_language sp) = false).
Proof.
  rewrite detect_language_unfold.
  assert (G : forall c v,
             lower (firstn 2 (c :: v)) <> [] /\
             (length (lower (firstn 2 (c :: v))) <= 2)%nat /\
             existsb is_upper (lower (firstn 2 (c :: v))) = false).
  { intros c v. split; [discriminate|]. split.
    - unfold lower. rewrite length_map, length_firstn. lia.
    - induction (firstn 2 (c :: v)) as [|x u IH]; [reflexivity|].
      cbn [lower map existsb]. rewrite lower_ascii_not_upper. exact IH. }
  destruct (declared_html_lang sp) as [|c v].
  - destruct (declared_meta_lang sp) as [|c v].
    + repeat split; try congruence; try discriminate; reflexivity.
    + destruct (G c v) as (G1 & G2 & G3).
      repeat split; try congruence; try assumption.
  - destruct (G c v) as (G1 & G2 & G3).
    repeat split; try congruence; try assumption.
Qed.

(** ** The stored history *)

Lemma any_of_dicts (version : str) (l : list json) :
  forallb is_dict l = true ->
  any_of (entry_has_version version) l
  = Returns (existsb (fun a => equals_str
                                 (match a with
                                  | JDict kv =>
                                      dict_get (s "crawler_version") kv
                                  | _ => JNull
                                  end) version) l).
Proof.
  induction l as [|x l IH]; cbn [forallb any_of existsb]; [reflexivity|].
  rewrite andb_true_iff. intros [Hx Hl].
  destruct x; try discriminate. cbn [entry_has_version].
  destruct (equals_str _ _); cbn [orb]; [reflexivity | auto].
Qed.

(** The version check on a history that ends with a matching entry: it
    finds a match, or raises on an earlier entry that is not an object. *)
Lemma any_of_app_new (version : str) (old : list json) (entry : json) :
  entry_has_version version entry = Returns true ->
  match any_of (entry_has_version version) (old ++ [entry]) with
  | Returns b => b = true
  | Raises e =>
      exists x, In x old /\ is_dict x = false /\
                entry_has_version version x = Raises e
  end.
Proof.
  intro He. induction old as [|x old IH]; cbn [app any_of].
  - now rewrite He.
  - destruct (entry_has_version version x) as [[|]|e] eqn:E.
    + reflexivity.
    + destruct (any_of _ (old ++ [entry])) as [b|e]; [exact IH|].
      destruct IH as (y & Hy & Hd & Hr). exists y. cbn [In]. auto.
    + exists x. cbn [In]. split; [auto|]. split; [|exact E].
      destruct x; try reflexivity. discriminate E.
Qed.

Lemma new_analysis_has_version (version : str) (r : stored_result) :
  entry_has_version version (new_analysis version r) = Returns true.
Proof.
  unfold new_analysis, entry_has_version. cbn [dict_get].
  change (str_eqb (s "crawler_version") (s "has_esg_reports")) with false.
  change (str_eqb (s "crawler_version") (s "analysis_timestamp")) with false.
  change (str_eqb (s "crawler_version") (s "website_analysis")) with false.
  change (str_eqb (s "crawler_version") (s "crawling_evidence")) with false.
  change (str_eqb (s "crawler_version") (s "crawler_config")) with false.
  change (str_eqb (s "crawler_version") (s "crawler_version")) with true.
  cbv iota. cbn [equals_str]. now rewrite str_eqb_refl.
Qed.

(** The array that [update_company_esg_info] writes ends with the new
    entry; in replace mode it has no other entry. *)
Lemma updated_analysis_shape (loads : str -> outcome json) (version : str)
    (existing_data : outcome json) (r : stored_result)
    (replace_existing : bool) (updated : list json) :
  updated_analysis loads version existing_data r replace_existing
  = Returns updated ->
  exists old, updated = old ++ [new_analysis version r] /\
              (replace_existing = true -> old = []).
Proof.
  unfold updated_analysis. cbv zeta. destruct replace_existing.
  - intros [= <-]. exists []. auto.
  - destruct existing_data as [stored|e]; cbn [and_then]; [|discriminate].
    assert (G : and_then (decoded loads stored)
                  (fun existing_analysis =>
                     Returns (match existing_analysis with
                              | JList l => l
                              | _ => [existing_analysis]
                              end ++ [new_analysis version r]))
                = Returns updated ->
                exists old, updated = old ++ [new_analysis version r] /\
                            (false = true -> old = [])).
    { destruct (decoded loads stored) as [value|e]; cbn [and_then];
        [|discriminate].
      intros [= <-]. eexists. split; [reflexivity | discriminate]. }
    destruct stored; try exact G.
    intros [= <-]. exists []. auto.
Qed.

(** X26: what [update_company_esg_info] writes.  In replace mode the
    array is the new analysis alone, whatever is stored.  In append mode
    it is the stored history followed by the new analysis: nothing for
    [NULL], the elements of a stored array in their order, and a stored
    value that is not an array as the single earlier entry; a stored text
    is decoded first.  Append mode raises exactly when the [SELECT] or
    the decoding raises. *)
Theorem update_appends_or_replaces (loads : str -> outcome json)
    (version : str) (existing_data : outcome json) (r : stored_result) :
  updated_analysis loads version existing_data r true
  = Returns [new_analysis version r] /\
  match updated_analysis loads version existing_data r false with
  | Returns updated =>
      exists stored old,
        existing_data = Returns stored /\
        updated = old ++ [new_analysis version r] /\
        (stored = JNull /\ old = []
         \/ stored <> JNull /\
            exists value, decoded loads stored = Returns value /\
              (value = JList old \/
               old = [value] /\ forall l, value <> JList l))
  | Raises e =>
      existing_data = Raises e \/
      exists stored, existing_data = Returns stored /\
                     decoded loads stored = Raises e
  end.
Proof.
  split; [reflexivity|]. unfold updated_analysis. cbv zeta.
  destruct existing_data as [stored|e]; cbn [and_then]; [|auto].
  assert (G : stored <> JNull ->
             match and_then (decoded loads stored)
                     (fun existing_analysis =>
                        Returns (match existing_analysis with
                                 | JList l => l
                                 | _ => [existing_analysis]
                                 end ++ [new_analysis version r])) with
             | Returns updated =>
                 exists stored0 old,
                   Returns stored = Returns stored0 /\
                   updated = old ++ [new_analysis version r] /\
                   (stored0 = JNull /\ old = []
                    \/ stored0 <> JNull /\
                       exists value, decoded loads stored0 = Returns value /\
                         (value = JList old \/
                          old = [value] /\ forall l, value <> JList l))
             | Raises e =>
                 Returns stored = Raises e \/
                 exists stored0, Returns stored = Returns stored0 /\
                                 decoded loads stored0 = Raises e
             end).
  { intros Hn.
    destruct (decoded loads stored) as [value|e] eqn:E; cbn [and_then].
    - exists stored.
      exists (match value with JList l => l | _ => [value] end).
      split; [reflexivity|]. split; [reflexivity|]. right.
      split; [exact Hn|]. exists value. split; [exact E|].
      destruct value; try (right; split; [reflexivity | discriminate]).
      left. reflexivity.
    - right. exists stored. auto. }
  destruct stored; try (apply G; discriminate).
  exists JNull, []. split; [reflexivity|]. split; [reflexivity|]. auto.
Qed.

(** X27: an update is seen by the version check.  On the array that
    [update_company_esg_info] has written, [_has_version_analysis] for
    the version of the crawler never answers [False]: it answers [True],
    or, in append mode only, it raises the [AttributeError] of an earlier
    entry that is not an object. *)
Theorem version_found_after_update (loads : str -> outcome json)
    (version : str) (existing_data : outcome json) (r : stored_result)
    (replace_existing : bool) (updated : list json)
    (H : updated_analysis loads version existing_data r replace_existing
         = Returns updated) :
  match _has_version_analysis loads (JList updated) version with
  | Returns found => found = true
  | Raises e =>
      replace_existing = false /\
      (exists msg, e = AttributeError msg) /\
      exists x, In x updated /\ is_dict x = false /\
                entry_has_version version x = Raises e
  end.
Proof.
  destruct (updated_analysis_shape _ _ _ _ _ _ H) as (old & -> & Hrep).
  unfold _has_version_analysis.
  assert (Ht : truthy (JList (old ++ [new_analysis version r])) = true)
    by (cbn [truthy]; destruct old; reflexivity).
  rewrite Ht. cbn [negb decoded and_then].
  pose proof (any_of_app_new version old _
                (new_analysis_has_version version r)) as Hany.
  destruct (any_of (entry_has_version version)
                   (old ++ [new_analysis version r])) as [b|e].
  - exact Hany.
  - destruct Hany as (x & Hx & Hd & Hr).
    assert (He : exists msg, e = AttributeError msg).
    { destruct x; cbn [entry_has_version] in Hr; try discriminate;
        injection Hr as <-; eexists; reflexivity. }
    destruct He as (msg & ->).
    split; [|split; [eauto|]].
    + destruct replace_existing; [|reflexivity].
      rewrite (Hrep eq_refl) in Hx. destruct Hx.
    + exists x. rewrite in_app_iff. auto.
Qed.

Lemma version_found_after_update_witness :
  updated_analysis rejecting_loads (s "3.0") (Returns (JList sample_history))
    sample_result false
  = Returns (sample_history ++ [new_analysis (s "3.0") sample_result]) /\
  _has_version_analysis rejecting_loads
    (JList (sample_history ++ [new_analysis (s "3.0") sample_result]))
    (s "3.0")
  = Returns true.
Proof.
  assert (H : updated_analysis rejecting_loads (s "3.0")
                (Returns (JList sample_history)) sample_result false
              = Returns (sample_history
                         ++ [new_analysis (s "3.0") sample_result]))
    by reflexivity.
  split; [exact H|].
  pose proof (version_found_after_update _ _ _ _ _ _ H) as V.
  destruct (_has_version_analysis rejecting_loads _ (s "3.0")) as [b|e] eqn:E.
  - now rewrite V.
  - vm_compute in E. discriminate E.
Defined.

(** [any] stops at the first entry that is not a dictionary when no
    dictionary before it has the version. *)
Lemma any_of_stops (version : str) (pre post : list json) (x : json) :
  forallb is_dict pre = true ->
  existsb (fun a => equals_str
                      (match a with
                       | JDict kv => dict_get (s "crawler_version") kv
                       | _ => JNull
                       end) version) pre = false ->
  is_dict x = false ->
  any_of (entry_has_version version) (pre ++ x :: post)
  = entry_has_version version x.
Proof.
  intros Hd He Hx. induction pre as [|a pre IH]; cbn [app any_of].
  - destruct x; try discriminate Hx; reflexivity.
  - cbn [forallb existsb] in Hd, He.
    apply andb_true_iff in Hd as [Ha Hd].
    apply orb_false_iff in He as [Hv He].
    destruct a; try discriminate Ha. cbn [entry_has_version].
    rewrite Hv. now apply IH.
Qed.

(** X28: the answers of [_has_version_analysis].  It answers [False] for
    a value that is false as a condition ([None], the empty string, an
    empty array or object) and for a text that [json.loads] rejects with
    [JSONDecodeError]; on an array of objects it answers whether one of
    them has the version under [crawler_version]; a stored text that
    decodes to a text gets [False], one that decodes to another value
    gets the answer of that value; on an array whose first entry that is
    not an object comes before any object with the version, the
    [AttributeError] of that entry leaves the function; and no exception
    leaves it but an [AttributeError] or an exception of [json.loads] of
    a class other than [JSONDecodeError] and [TypeError]. *)
Theorem version_check_edge_cases (loads : str -> outcome json)
    (esg_info : json) (version : str) :
  (truthy esg_info = false ->
   _has_version_analysis loads esg_info version = Returns false) /\
  (forall t msg, esg_info = JStr t -> loads t = Raises (JSONDecodeError msg) ->
   _has_version_analysis loads esg_info version = Returns false) /\
  (forall l, esg_info = JList l -> forallb is_dict l = true ->
   _has_version_analysis loads esg_info version
   = Returns (existsb (fun a => equals_str
                                  (match a with
                                   | JDict kv =>
                                       dict_get (s "crawler_version") kv
                                   | _ => JNull
                                   end) version) l)) /\
  (forall t value, esg_info = JStr t -> t <> [] ->
   loads t = Returns value ->
   _has_version_analysis loads esg_info version
   = match value with
     | JStr _ => Returns false
     | _ => _has_version_analysis loads value version
     end) /\
  (forall pre x post, esg_info = JList (pre ++ x :: post) ->
   forallb is_dict pre = true ->
   existsb (fun a => equals_str
                       (match a with
                        | JDict kv => dict_get (s "crawler_version") kv
                        | _ => JNull
                        end) version) pre = false ->
   is_dict x = false ->
   _has_version_analysis loads esg_info version
   = Raises (AttributeError
               (s "'" ++ s (type_name x)
                  ++ s "' object has no attribute 'get'"))) /\
  (forall e, _has_version_analysis loads esg_info version = Raises e ->
   (exists msg, e = AttributeError msg) \/
   (exists msg, e = OtherException msg)).
Proof.
  split; [|split; [|split; [|split; [|split]]]].
  - intro H. unfold _has_version_analysis. now rewrite H.
  - intros t msg -> Hl. unfold _has_version_analysis.
    destruct (truthy (JStr t)); cbn [negb]; [|reflexivity].
    cbn [decoded]. now rewrite Hl.
  - intros l -> Hd. unfold _has_version_analysis.
    destruct l as [|x l]; [reflexivity|]. cbn [truthy nonempty negb].
    cbn [decoded and_then]. now rewrite (any_of_dicts version _ Hd).
  - intros t value -> Ht Hl. unfold _has_version_analysis.
    destruct t as [|c t]; [congruence|]. cbn [truthy nonempty negb].
    cbn [decoded]. rewrite Hl. cbn [and_then].
    destruct value as [| | | |u|l|kv]; cbn [truthy negb decoded and_then];
      try reflexivity.
    + destruct b; reflexivity.
    + destruct (negb (n =? 0)%Z); reflexivity.
    + destruct (negb (Qeq_bool x 0)); reflexivity.
    + destruct l; reflexivity.
    + destruct kv as [|[k v] kv]; cbn [nonempty negb]; reflexivity.
  - intros pre x post -> Hd He Hx. unfold _has_version_analysis.
    replace (truthy (JList (pre ++ x :: post))) with true
      by (destruct pre; reflexivity).
    cbn [negb decoded and_then].
    rewrite (any_of_stops version pre post x Hd He Hx).
    destruct x; try discriminate Hx; reflexivity.
  - intros e. unfold _has_version_analysis.
    destruct (truthy esg_info); cbn [negb]; [|discriminate].
    destruct (and_then _ _) as [b|e'] eqn:E; [discriminate|].
    destruct e'; try discriminate; intros [= <-]; eauto.
Qed.

(** ** The batches of the statistics *)

(** X29: each number of batches that [show_analysis_statistics] prints
    is the least number of batches of that size that covers the companies
    still to analyse. *)
Theorem batches_cover_remaining (need_analysis batch_size batches : Z)
    (H : In (batch_size, batches) (batches_needed need_analysis)) :
  ((batches - 1) * batch_size < need_analysis <= batches * batch_size)%Z.
Proof.
  revert H. unfold batches_needed, batch_examples. cbn [map In].
  intros [H|[H|[H|[H|[]]]]]; injection H as <- <-.
  all: match goal with
       | |- context [(?a / ?b)%Z] =>
           pose proof (Z.div_mod a b ltac:(lia));
           pose proof (Z.mod_pos_bound a b ltac:(lia))
       end; lia.
Qed.

Lemma batches_cover_remaining_witness :
  In (25, 3)%Z (batches_needed 51) /\
  ((3 - 1) * 25 < 51 <= 3 * 25)%Z.
Proof.
  assert (H : In (25, 3)%Z (batches_needed 51)) by (vm_compute; auto).
  split; [exact H|].
  exact (batches_cover_remaining 51 25 3 H).
Defined.

(** ** Continuous processing *)

Section ContinuousProcessingProperties.

Variable db : Type.
Variable company : Type.
Variable get_total_companies_count : db -> outcome Z.
Variable get_companies_to_process : db -> Z -> Z -> outcome (list company).
Variable process_company : db -> company -> db.

Lemma paged_snoc (batch_size start : Z) (l : list (Z * list company))
    (companies : list company) :
  paged batch_size start l -> companies <> [] ->
  paged batch_size start
    (l ++ [((start + Z.of_nat (length l) * batch_size)%Z, companies)]).
Proof.
  revert start. induction l as [|[o c] l IH]; intros start H Hc.
  - cbn [app paged length]. repeat split; [lia | exact Hc].
  - cbn [app paged] in *. destruct H as (-> & Hn & H).
    repeat split; [exact Hn|].
    specialize (IH _ H Hc).
    replace (start + Z.of_nat (length ((start, c) :: l)) * batch_size)%Z
      with (start + batch_size + Z.of_nat (length l) * batch_size)%Z
      by (cbn [length]; lia).
    exact IH.
Qed.

Lemma companies_in_snoc (l : list (Z * list company))
    (b : Z * list company) :
  companies_in (l ++ [b]) = (companies_in l + Z.of_nat (length (snd b)))%Z.
Proof.
  unfold companies_in. rewrite fold_right_app. cbn [fold_right].
  induction l as [|x l IH]; cbn [fold_right]; [lia|]. rewrite IH. lia.
Qed.

(** The invariant of the loop and what it gives at the end: with one
    iteration left for every company still to count, the loop is not cut
    off. *)
Lemma process_all_loop_spec (batch_size total : Z) :
  forall fuel st processed done,
    (Z.to_nat (total - processed) <= fuel)%nat ->
    paged batch_size 0 (rev done) ->
    companies_in (rev done) = processed ->
    match process_all_loop get_total_companies_count
            get_companies_to_process process_company
            fuel batch_size total st processed
            (Z.of_nat (length done) * batch_size)%Z done with
    | Returns None => False
    | Returns (Some p) =>
        paged batch_size 0 (batches_done p) /\
        companies_in (batches_done p) = processed_count p /\
        (processed <= processed_count p)%Z /\
        (length (batches_done p) <= length done + fuel)%nat
    | Raises _ => True
    end.
Proof.
  induction fuel as [|fuel IH]; intros st processed done Hf Hp Hc;
    cbn [process_all_loop].
  - destruct (processed <? total)%Z eqn:E.
    + apply Z.ltb_lt in E. lia.
    + cbn [batches_done processed_count]. rewrite length_rev.
      repeat split; [assumption.. | lia | lia].
  - destruct (processed <? total)%Z eqn:E.
    2:{ cbn [batches_done processed_count]. rewrite length_rev.
        repeat split; [assumption.. | lia | lia]. }
    apply Z.ltb_lt in E.
    destruct (get_companies_to_process st batch_size _) as [companies|e];
      cbn [and_then]; [|exact I].
    destruct companies as [|c cs].
    { cbn [batches_done processed_count]. rewrite length_rev.
      repeat split; [assumption.. | lia | lia]. }
    destruct (batch_size =? 0)%Z; [exact I|].
    set (companies := c :: cs).
    assert (Hne : companies <> []) by discriminate.
    assert (Hp' : paged batch_size 0
                    (rev (((Z.of_nat (length done) * batch_size)%Z,
                           companies) :: done))).
    { cbn [rev]. pose proof (paged_snoc batch_size 0 (rev done) companies
                               Hp Hne) as H.
      rewrite length_rev in H. exact H. }
    assert (Hc' : companies_in
                    (rev (((Z.of_nat (length done) * batch_size)%Z,
                           companies) :: done))
                  = (processed + Z.of_nat (length companies))%Z).
    { cbn [rev]. rewrite companies_in_snoc, Hc. reflexivity. }
    destruct (get_total_companies_count _) as [remaining|e];
      cbn [and_then]; [|exact I].
    destruct (remaining =? 0)%Z.
    { cbn [batches_done processed_count]. rewrite length_rev.
      repeat split; [assumption.. | lia | cbn [length]; lia]. }
    specialize (IH (fold_left process_company companies st)
                   (processed + Z.of_nat (length companies))%Z
                   ((Z.of_nat (length done) * batch_size, companies)
                    :: done)%Z).
    replace (Z.of_nat (length done) * batch_size + batch_size)%Z
      with (Z.of_nat (length ((Z.of_nat (length done) * batch_size,
                               companies) :: done)%Z) * batch_size)%Z
      by (cbn [length]; lia).
    assert (Hlen : (1 <= Z.of_nat (length companies))%Z)
      by (subst companies; cbn [length]; lia).
    specialize (IH ltac:(lia) Hp' Hc').
    destruct (process_all_loop _ _ _ _ _ _ _ _ _ _) as [[p|]|e];
      [|exact IH | exact I].
    destruct IH as (H1 & H2 & H3 & H4).
    repeat split; [assumption.. | lia | cbn [length] in H4; lia].
Qed.

(** X30: [process_all_companies] ends, whatever the database answers: the
    iterations that its first count allows are enough, so a run returns
    or raises and is never cut off.  A run that returns has fetched its
    batches at the offsets 0, [batch_size], 2 [batch_size], ..., each
    of them non-empty, at most as many as the first count; its counter
    [processed_count] is the number of companies in these batches. *)
Theorem process_all_companies_ends (batch_size : Z) (st : db) :
  match process_all_companies get_total_companies_count
          get_companies_to_process process_company batch_size st with
  | Returns None => False
  | Returns (Some p) =>
      paged batch_size 0 (batches_done p) /\
      companies_in (batches_done p) = processed_count p /\
      exists total_companies,
        get_total_companies_count st = Returns total_companies /\
        (length (batches_done p) <= Z.to_nat total_companies)%nat
  | Raises _ => True
  end.
Proof.
  unfold process_all_companies.
  destruct (get_total_companies_count st) as [total|e] eqn:Et;
    cbn [and_then]; [|exact I].
  destruct (total =? 0)%Z.
  - cbn [batches_done processed_count paged companies_in fold_right length].
    repeat split. exists total. split; [reflexivity | lia].
  - pose proof (process_all_loop_spec batch_size total (Z.to_nat total)
                  st 0%Z [] ltac:(lia) I eq_refl) as H.
    cbn [length] in H. change (Z.of_nat 0 * batch_size)%Z with 0%Z in H.
    destruct (process_all_loop _ _ _ _ _ _ _ _ _ _) as [[p|]|e];
      [|exact H | exact I].
    destruct H as (H1 & H2 & _ & H4). repeat split; [assumption..|].
    exists total. split; [reflexivity | lia].
Qed.

End ContinuousProcessingProperties.
